(** * molt-logger: the batching MongoDB transport and the NestJS wrapper

    A shallow embedding of [src/mongo-transport.js] (the record mapper
    [pinoToDoc], the option resolution of [buildTransport], and the buffer,
    timer and sink write path of the writable stream it returns), of the
    package index ([wrapForNest], [getLogsMongoUri], [isLocalMode] and
    [createLogger]) and of [src/request-logger.js] ([sanitizeBody] and the
    middleware), followed by the properties of the specification proved or
    refuted on them and by further properties of the code.

    Conventions.
    - A JavaScript string is a [string]: the sequence of its UTF-8 bytes.
      For ASCII text this is also the sequence of its code units.
    - A JavaScript number is kept as the decimal it was written with
      ([Num m s] is m / 10^s); the runtime rounds it to a double, which
      changes nothing for decimals of at most 15 significant digits.
    - The event loop is a step function on an explicit state: a call of the
      stream's [write] or [final], a timer firing, and the settling of a
      promise of the MongoDB client are the events. *)

From Stdlib Require Import ZArith String Ascii List Lia DecimalString Bool.
From Stdlib Require DecimalN DecimalPos.
From stdpp Require Import base option list strings gmap.
Import ListNotations.
Open Scope string_scope.
#[local] Set Warnings "-register-all".

(** ** Results of code that may throw *)

Inductive exn : Type :=
| SyntaxError
| TypeError.

Inductive res (A : Type) : Type :=
| Ok (a : A)
| Throw (e : exn).
Arguments Ok {A} a.
Arguments Throw {A} e.

Definition res_bind {A B : Type} (r : res A) (k : A -> res B) : res B :=
  match r with
  | Ok a => k a
  | Throw e => Throw e
  end.

Notation "'let*' x ':=' r 'in' k" := (res_bind r (fun x => k))
  (at level 10, x pattern, r at level 100, k at level 200).

(** ** JavaScript values that JSON text can denote *)

Module JS.

(** [Num m s] is the number m / 10^s. *)
Inductive number : Type :=
| NaN
| Num (m : Z) (s : N).

(** Canonical form: an integer has scale 0, a fraction no trailing zero. *)
Fixpoint canon (fuel : nat) (m : Z) (s : N) : number :=
  match fuel with
  | O => Num m s
  | S f =>
      if (s =? 0)%N then Num m 0
      else if (m =? 0)%Z then Num 0 0
      else if (m mod 10 =? 0)%Z then canon f (m / 10) (N.pred s)
      else Num m s
  end.

(** The number m * 10^e. *)
Definition mk_number (m e : Z) : number :=
  if (0 <=? e)%Z then Num (m * 10 ^ e) 0
  else canon (N.to_nat (Z.to_N (- e))) m (Z.to_N (- e)).

Definition int (z : Z) : number := Num z 0.

(** ToBoolean on a number: 0 and NaN are falsy. *)
Definition number_truthy (n : number) : bool :=
  match n with
  | NaN => false
  | Num m _ => negb (m =? 0)%Z
  end.

(** [len >= n], the comparison of an array length with a number; a
    comparison with NaN is false. *)
Definition length_ge (len : nat) (n : number) : bool :=
  match n with
  | NaN => false
  | Num m s => (m <=? Z.of_nat len * 10 ^ Z.of_N s)%Z
  end.


Definition digits (z : Z) : string :=
  NilZero.string_of_uint (N.to_uint (Z.to_N z)).

Fixpoint zeros (n : nat) : string :=
  match n with
  | O => ""
  | S k => String "0" (zeros k)
  end.

(** The digits of [d] without its trailing zeros. *)
Fixpoint strip_zeros (d : string) : string :=
  match d with
  | EmptyString => ""
  | String c r =>
      match strip_zeros r with
      | EmptyString => if Ascii.eqb c "0" then "" else String c ""
      | r' => String c r'
      end
  end.

Definition substring_from (n : nat) (s : string) : string :=
  String.substring n (String.length s - n) s.

(** Number::toString(x) for radix 10, on a positive m / 10^s. *)
Definition positive_toString (m : Z) (s : N) : string :=
  let d0 := digits m in
  let d := strip_zeros d0 in
  let k := Z.of_nat (String.length d) in
  let n := (Z.of_nat (String.length d0) - Z.of_N s)%Z in
  if ((k <=? n) && (n <=? 21))%Z then d ++ zeros (Z.to_nat (n - k))
  else if ((0 <? n) && (n <=? 21))%Z then
    String.substring 0 (Z.to_nat n) d ++ "." ++ substring_from (Z.to_nat n) d
  else if ((-6 <? n) && (n <=? 0))%Z then "0." ++ zeros (Z.to_nat (- n)) ++ d
  else
    let e := (n - 1)%Z in
    let sign := if (e <? 0)%Z then "-" else "+" in
    let mant := if (k =? 1)%Z then d
                else String.substring 0 1 d ++ "." ++ substring_from 1 d in
    mant ++ "e" ++ sign ++ digits (Z.abs e).

Definition number_toString (n : number) : string :=
  match n with
  | NaN => "NaN"
  | Num m s =>
      if (m =? 0)%Z then "0"
      else if (m <? 0)%Z then "-" ++ positive_toString (- m) s
      else positive_toString m s
  end.

Inductive json : Type :=
| JNull
| JBool (b : bool)
| JNum (n : number)
| JStr (s : string)
| JArr (l : list json)
| JObj (l : list (string * json)).

(** An object keeps its own properties in insertion order. *)
Definition props (A : Type) : Type := list (string * A).

Fixpoint get_prop {A : Type} (k : string) (l : props A) : option A :=
  match l with
  | [] => None
  | (k', v) :: r => if String.eqb k k' then Some v else get_prop k r
  end.

(** [o[k] = v]: an existing property keeps its place. *)
Fixpoint set_prop {A : Type} (k : string) (v : A) (l : props A) : props A :=
  match l with
  | [] => [(k, v)]
  | (k', v') :: r =>
      if String.eqb k k' then (k, v) :: r else (k', v') :: set_prop k v r
  end.

Definition keys {A : Type} (l : props A) : list string := map fst l.

Definition has_prop {A : Type} (k : string) (l : props A) : bool :=
  match get_prop k l with
  | Some _ => true
  | None => false
  end.

Definition join (sep : string) (l : list string) : string :=
  match l with
  | [] => ""
  | h :: t => fold_left (fun acc x => acc ++ sep ++ x) t h
  end.

(** String(v).  An array joins its elements, null elements as empty
    strings.  A plain object gives "[object Object]" through the inherited
    toString; an own property toString (never callable in JSON data) makes
    the conversion throw a TypeError. *)
Fixpoint String_ (v : json) : res string :=
  match v with
  | JNull => Ok "null"
  | JBool b => Ok (if b then "true" else "false")
  | JNum n => Ok (number_toString n)
  | JStr s => Ok s
  | JArr l =>
      let fix elems (l : list json) : res (list string) :=
        match l with
        | [] => Ok []
        | x :: r =>
            let* s := (match x with JNull => Ok "" | _ => String_ x end) in
            let* ss := elems r in
            Ok (s :: ss)
        end in
      let* ss := elems l in
      Ok (join "," ss)
  | JObj l => if has_prop "toString" l then Throw TypeError
              else Ok "[object Object]"
  end.

(** The property key of an array index. *)
Definition nat_key (i : nat) : string :=
  NilZero.string_of_uint (Nat.to_uint i).

(** ToBoolean. *)
Definition truthy (v : json) : bool :=
  match v with
  | JNull => false
  | JBool b => b
  | JNum n => number_truthy n
  | JStr s => negb (String.eqb s "")
  | JArr _ | JObj _ => true
  end.

End JS.

(** ** JSON.parse *)

Module Json.
Import JS.

Definition code (c : ascii) : Z := Z.of_N (N_of_ascii c).

Definition byte (z : Z) : ascii := ascii_of_N (Z.to_N z).

(** JSON white space: space, tab, line feed, carriage return. *)
Definition is_ws (c : ascii) : bool :=
  let n := code c in
  (n =? 32)%Z || (n =? 9)%Z || (n =? 10)%Z || (n =? 13)%Z.

Fixpoint skip_ws (s : string) : string :=
  match s with
  | String c r => if is_ws c then skip_ws r else s
  | EmptyString => s
  end.

Definition digit_val (c : ascii) : option Z :=
  let n := code c in
  if ((48 <=? n) && (n <=? 57))%Z then Some (n - 48)%Z else None.

Definition hex_val (c : ascii) : option Z :=
  let n := code c in
  if ((48 <=? n) && (n <=? 57))%Z then Some (n - 48)%Z
  else if ((97 <=? n) && (n <=? 102))%Z then Some (n - 87)%Z
  else if ((65 <=? n) && (n <=? 70))%Z then Some (n - 55)%Z
  else None.

(** The longest run of decimal digits at the head of [s], accumulated on
    [acc], with the number of digits read. *)
Fixpoint read_digits (s : string) (acc : Z) (cnt : N) : Z * N * string :=
  match s with
  | String c r =>
      match digit_val c with
      | Some d => read_digits r (acc * 10 + d)%Z (cnt + 1)%N
      | None => (acc, cnt, s)
      end
  | EmptyString => (acc, cnt, s)
  end.

(** A number literal: an optional minus sign; 0, or a non-zero digit and
    further digits; an optional fraction of a point and one or more digits;
    an optional exponent of e or E, an optional sign and one or more
    digits. *)
Definition parse_number (s : string) : option (number * string) :=
  let '(neg, s1) := match s with
                    | String "-" r => (true, r)
                    | _ => (false, s)
                    end in
  match s1 with
  | EmptyString => None
  | String c r =>
      match digit_val c with
      | None => None
      | Some d =>
          let '(ip, _, s2) := if (d =? 0)%Z then (0%Z, 1%N, r)
                              else read_digits s1 0 0 in
          let frac :=
            match s2 with
            | String "." r2 =>
                let '(m, cnt, s3) := read_digits r2 ip 0 in
                if (cnt =? 0)%N then None else Some (m, cnt, s3)
            | _ => Some (ip, 0%N, s2)
            end in
          match frac with
          | None => None
          | Some (m, scale, s3) =>
              let exp :=
                match s3 with
                | String ("e" | "E") r3 =>
                    let '(eneg, r4) := match r3 with
                                       | String "-" r => (true, r)
                                       | String "+" r => (false, r)
                                       | _ => (false, r3)
                                       end in
                    let '(ev, cnt, s4) := read_digits r4 0 0 in
                    if (cnt =? 0)%N then None
                    else Some ((if eneg then - ev else ev)%Z, s4)
                | _ => Some (0%Z, s3)
                end in
              match exp with
              | None => None
              | Some (e, s4) =>
                  Some (mk_number (if neg then - m else m) (e - Z.of_N scale),
                        s4)
              end
          end
      end
  end.

(** The UTF-8 bytes of a code point (a lone surrogate is encoded like any
    other three-byte code point). *)
Definition utf8 (cp : Z) : string :=
  if (cp <? 128)%Z then String (byte cp) ""
  else if (cp <? 2048)%Z then
    String (byte (192 + cp / 64)) (String (byte (128 + cp mod 64)) "")
  else if (cp <? 65536)%Z then
    String (byte (224 + cp / 4096))
      (String (byte (128 + (cp / 64) mod 64))
         (String (byte (128 + cp mod 64)) ""))
  else
    String (byte (240 + cp / 262144))
      (String (byte (128 + (cp / 4096) mod 64))
         (String (byte (128 + (cp / 64) mod 64))
            (String (byte (128 + cp mod 64)) ""))).

Definition hex4 (s : string) : option (Z * string) :=
  match s with
  | String a (String b (String c (String d r))) =>
      match hex_val a, hex_val b, hex_val c, hex_val d with
      | Some x, Some y, Some z, Some w =>
          Some (((x * 16 + y) * 16 + z) * 16 + w, r)%Z
      | _, _, _, _ => None
      end
  | _ => None
  end.

(** The code point of a \u escape whose four digits gave [hi]: a high
    surrogate followed by an escaped low surrogate makes one code point. *)
Definition escaped_code_point (hi : Z) (r : string) : Z * string :=
  if ((55296 <=? hi) && (hi <=? 56319))%Z then
    match r with
    | String "\" (String "u" r') =>
        match hex4 r' with
        | Some (lo, r'') =>
            if ((56320 <=? lo) && (lo <=? 57343))%Z
            then (65536 + (hi - 55296) * 1024 + (lo - 56320), r'')%Z
            else (hi, r)
        | None => (hi, r)
        end
    | _ => (hi, r)
    end
  else (hi, r).

(** The characters of a string literal after its opening quote, up to and
    with the closing quote (code 34); code 92 is the backslash. *)
Fixpoint parse_string (fuel : nat) (s : string) : option (string * string) :=
  match fuel with
  | O => None
  | S f =>
      match s with
      | EmptyString => None
      | String c r =>
          if (code c =? 34)%Z then Some ("", r)
          else if (code c =? 92)%Z then
            match r with
            | EmptyString => None
            | String e r =>
                let simple (c : Z) :=
                  match parse_string f r with
                  | Some (t, r') => Some (String (byte c) t, r')
                  | None => None
                  end in
                if (code e =? 34)%Z then simple 34%Z
                else if (code e =? 92)%Z then simple 92%Z
                else if Ascii.eqb e "/" then simple 47%Z
                else if Ascii.eqb e "b" then simple 8%Z
                else if Ascii.eqb e "f" then simple 12%Z
                else if Ascii.eqb e "n" then simple 10%Z
                else if Ascii.eqb e "r" then simple 13%Z
                else if Ascii.eqb e "t" then simple 9%Z
                else if Ascii.eqb e "u" then
                  match hex4 r with
                  | Some (hi, r1) =>
                      let '(cp, r2) := escaped_code_point hi r1 in
                      match parse_string f r2 with
                      | Some (t, r') => Some (utf8 cp ++ t, r')
                      | None => None
                      end
                  | None => None
                  end
                else None
            end
          else if (code c <? 32)%Z then None
          else match parse_string f r with
               | Some (t, r') => Some (String c t, r')
               | None => None
               end
      end
  end.

Fixpoint parse_value (fuel : nat) (s : string) : option (json * string) :=
  match fuel with
  | O => None
  | S f =>
      match skip_ws s with
      | String "{" r =>
          match skip_ws r with
          | String "}" r' => Some (JObj [], r')
          | r1 => parse_members f r1 []
          end
      | String "[" r =>
          match skip_ws r with
          | String "]" r' => Some (JArr [], r')
          | r1 => parse_elements f r1 []
          end
      | String "t" (String "r" (String "u" (String "e" r))) =>
          Some (JBool true, r)
      | String "f" (String "a" (String "l" (String "s" (String "e" r)))) =>
          Some (JBool false, r)
      | String "n" (String "u" (String "l" (String "l" r))) =>
          Some (JNull, r)
      | String c r as s' =>
          if (code c =? 34)%Z then
            match parse_string (S (String.length r)) r with
            | Some (t, r') => Some (JStr t, r')
            | None => None
            end
          else
            match parse_number s' with
            | Some (n, r) => Some (JNum n, r)
            | None => None
            end
      | EmptyString => None
      end
  end
with parse_elements (fuel : nat) (s : string) (acc : list json)
  : option (json * string) :=
  match fuel with
  | O => None
  | S f =>
      match parse_value f s with
      | Some (v, r) =>
          match skip_ws r with
          | String "," r' => parse_elements f r' (acc ++ [v])
          | String "]" r' => Some (JArr (acc ++ [v]), r')
          | _ => None
          end
      | None => None
      end
  end
with parse_members (fuel : nat) (s : string) (acc : props json)
  : option (json * string) :=
  match fuel with
  | O => None
  | S f =>
      match skip_ws s with
      | String c r =>
          if (code c =? 34)%Z then
            match parse_string (S (String.length r)) r with
            | Some (k, r1) =>
                match skip_ws r1 with
                | String ":" r2 =>
                    match parse_value f r2 with
                    | Some (v, r3) =>
                        match skip_ws r3 with
                        | String "," r4 =>
                            parse_members f r4 (set_prop k v acc)
                        | String "}" r4 =>
                            Some (JObj (set_prop k v acc), r4)
                        | _ => None
                        end
                    | None => None
                    end
                | _ => None
                end
            | None => None
            end
          else None
      | EmptyString => None
      end
  end.

(** JSON.parse(text); [None] stands for the SyntaxError it throws.  A
    value and a bracket each take one unit of fuel for at least one
    character. *)
Definition parse (text : string) : option json :=
  match parse_value (2 * String.length text + 2) text with
  | Some (v, r) =>
      match skip_ws r with
      | EmptyString => Some v
      | _ => None
      end
  | None => None
  end.

(** JSON text written with an apostrophe for every double quote. *)
Fixpoint js (s : string) : string :=
  match s with
  | EmptyString => ""
  | String c r => String (if Ascii.eqb c "'" then byte 34 else c) (js r)
  end.

End Json.

(** ** src/mongo-transport.js *)

Module Transport.
Import JS.

(** *** String helpers of the runtime *)

(** str.split("\n") *)
Fixpoint split_nl (s : string) : list string :=
  match s with
  | EmptyString => [""]
  | String c r =>
      if (Json.code c =? 10)%Z then "" :: split_nl r
      else match split_nl r with
           | h :: t => String c h :: t
           | [] => [String c ""]
           end
  end.

Definition is_ascii_white (n : Z) : bool :=
  ((9 <=? n) && (n <=? 13))%Z || (n =? 32)%Z.

(** The three-byte white space and line terminators: U+1680,
    U+2000..U+200A, U+2028, U+2029, U+202F, U+205F, U+3000, U+FEFF. *)
Definition is_white3 (a b c : Z) : bool :=
  ((a =? 225) && (b =? 154) && (c =? 128))%Z
  || ((a =? 226) && (b =? 128)
      && (((128 <=? c) && (c <=? 138)) || (c =? 168) || (c =? 169)
          || (c =? 175)))%Z
  || ((a =? 226) && (b =? 129) && (c =? 159))%Z
  || ((a =? 227) && (b =? 128) && (c =? 128))%Z
  || ((a =? 239) && (b =? 187) && (c =? 191))%Z.

(** s.trimStart() *)
Fixpoint trimStart (s : string) : string :=
  match s with
  | EmptyString => s
  | String c1 r1 =>
      if is_ascii_white (Json.code c1) then trimStart r1
      else
        match r1 with
        | EmptyString => s
        | String c2 r2 =>
            if ((Json.code c1 =? 194) && (Json.code c2 =? 160))%Z
            then trimStart r2
            else
              match r2 with
              | EmptyString => s
              | String c3 r3 =>
                  if is_white3 (Json.code c1) (Json.code c2) (Json.code c3)
                  then trimStart r3
                  else s
              end
        end
  end.

(** The filter callback [(s) => s.trim()] as a condition: s.trim() is a
    non-empty string exactly when s.trimStart() is. *)
Definition trim_truthy (s : string) : bool :=
  negb (String.eqb (trimStart s) "").

(** parseInt(v, 10) on an environment variable, [None] when it is unset
    (the string "undefined" is then parsed). *)
Definition parseInt (v : option string) : number :=
  let s := trimStart (match v with
                      | Some s => s
                      | None => "undefined"
                      end) in
  let '(neg, s) := match s with
                   | String "-" r => (true, r)
                   | String "+" r => (false, r)
                   | _ => (false, s)
                   end in
  let '(m, cnt, _) := Json.read_digits s 0 0 in
  if (cnt =? 0)%N then NaN else Num (if neg then - m else m) 0.

(** [x || d] on numbers. *)
Definition num_or (x d : number) : number :=
  if number_truthy x then x else d.

(** [x || y] on strings that may be undefined. *)
Definition str_or (x y : option string) : option string :=
  match x with
  | Some s => if String.eqb s "" then y else x
  | None => y
  end.

(** *** The record mapper *)

(** [DateOf t] is new Date(t); [DateNow c] is new Date() when the clock
    reads [c]. *)
Inductive date : Type :=
| DateOf (time : json)
| DateNow (clock : Z).

(** A value of a document field.  [FInherited k] is the function or
    object that Object.prototype holds under the name [k]. *)
Inductive field : Type :=
| FJson (j : json)
| FDate (d : date)
| FInherited (name : string).

Definition doc : Type := props field.

Definition LEVEL_MAP : props string :=
  [("10", "trace"); ("20", "debug"); ("30", "info"); ("40", "warn");
   ("50", "error"); ("60", "fatal")].

(** The names an object literal inherits from Object.prototype. *)
Definition Object_prototype : list string :=
  ["constructor"; "__defineGetter__"; "__defineSetter__"; "hasOwnProperty";
   "__lookupGetter__"; "__lookupSetter__"; "isPrototypeOf";
   "propertyIsEnumerable"; "toString"; "valueOf"; "__proto__";
   "toLocaleString"].

Definition mem (k : string) (l : list string) : bool :=
  existsb (String.eqb k) l.

(** LEVEL_MAP[key], [None] for undefined. *)
Definition LEVEL_MAP_get (key : string) : option field :=
  match get_prop key LEVEL_MAP with
  | Some s => Some (FJson (JStr s))
  | None => if mem key Object_prototype then Some (FInherited key) else None
  end.

Definition field_truthy (f : field) : bool :=
  match f with
  | FJson j => truthy j
  | FDate _ | FInherited _ => true
  end.

(** The property key of a value, [None] being undefined. *)
Definition property_key (v : option json) : res string :=
  match v with
  | None => Ok "undefined"
  | Some j => String_ j
  end.

(** LEVEL_MAP[level] || "info" *)
Definition level_name (level : option json) : res field :=
  let* key := property_key level in
  Ok (match LEVEL_MAP_get key with
      | Some f => if field_truthy f then f else FJson (JStr "info")
      | None => FJson (JStr "info")
      end).

Definition is_digit (c : ascii) : bool :=
  let n := Json.code c in
  ((48 <=? n) && (n <=? 57))%Z.

Fixpoint all_digits (s : string) : bool :=
  match s with
  | EmptyString => true
  | String c r => is_digit c && all_digits r
  end.

(** What the property key of a number starts with: a digit, the minus
    sign, the N of NaN, or nothing else that Number::toString writes. *)
Definition numeric_head (s : string) : bool :=
  match s with
  | EmptyString => true
  | String c _ =>
      is_digit c || Ascii.eqb c "-" || Ascii.eqb c "N" || Ascii.eqb c "."
      || Ascii.eqb c "e"
  end.

(** The names taken out of the record by the destructuring pattern. *)
Definition named : list string :=
  ["level"; "msg"; "time"; "reqId"; "userId"; "endpoint"; "request";
   "response"].

(** obj[k] for [k] among [named]: an own property of an object; the
    prototypes of objects, arrays, strings, numbers and booleans have none
    of these names. *)
Definition get (obj : json) (k : string) : option json :=
  match obj with
  | JObj l => get_prop k l
  | _ => None
  end.

Fixpoint index_props (i : nat) (l : list json) : props json :=
  match l with
  | [] => []
  | x :: r => (nat_key i, x) :: index_props (S i) r
  end.

(** The own enumerable properties the rest pattern copies: those of an
    object, the elements of an array, the characters of a string. *)
Definition own_enumerable (obj : json) : props json :=
  match obj with
  | JObj l => l
  | JArr l => index_props 0 l
  | JStr s =>
      index_props 0 (map (fun c => JStr (String c "")) (list_ascii_of_string s))
  | _ => []
  end.

Definition rest_of (obj : json) : props json :=
  List.filter (fun kv => negb (mem (fst kv) named)) (own_enumerable obj).

(** [Some v] when [x != null], v being the value of x. *)
Definition non_null (x : option json) : option json :=
  match x with
  | Some JNull => None
  | _ => x
  end.

(** [typeof x === "object"] on a value that is not null. *)
Definition is_object (x : json) : bool :=
  match x with
  | JArr _ | JObj _ => true
  | _ => false
  end.

(** new Date(time): an object or array is first converted to a primitive,
    which throws where String(time) does. *)
Definition new_Date (time : json) : res date :=
  let* _ := String_ time in
  Ok (DateOf time).

(** if (x != null) doc[k] = String(x) *)
Definition set_string (k : string) (x : option json) (d : doc) : res doc :=
  match non_null x with
  | Some v => let* s := String_ v in Ok (set_prop k (FJson (JStr s)) d)
  | None => Ok d
  end.

(** if (x != null && typeof x === "object") doc[k] = x *)
Definition set_object (k : string) (x : option json) (d : doc) : doc :=
  match non_null x with
  | Some v => if is_object v then set_prop k (FJson v) d else d
  | None => d
  end.

(** if (Object.keys(rest).length > 0) doc.meta = rest *)
Definition set_meta (rest : props json) (d : doc) : doc :=
  if (0 <? length (keys rest))%nat then set_prop "meta" (FJson (JObj rest)) d
  else d.

Section Mapper.

(** JSON.parse, [None] when it throws. *)
Variable JSON_parse : string -> option json.

(** typeof line === "string" ? JSON.parse(line) : line *)
Definition record_of (line : json) : res json :=
  match line with
  | JStr s => match JSON_parse s with
              | Some v => Ok v
              | None => Throw SyntaxError
              end
  | _ => Ok line
  end.

(** pinoToDoc(line, service), called when the clock reads [now]. *)
Definition pinoToDoc (now : Z) (line : json) (service : string) : res doc :=
  let* obj := record_of line in
  match obj with
  | JNull => Throw TypeError
  | _ =>
      let level := get obj "level" in
      let msg := get obj "msg" in
      let time := get obj "time" in
      let reqId := get obj "reqId" in
      let userId := get obj "userId" in
      let endpoint := get obj "endpoint" in
      let reqDetails := get obj "request" in
      let resDetails := get obj "response" in
      let rest := rest_of obj in
      let* lvl := level_name level in
      let message :=
        match non_null msg with
        | Some m => m
        | None => match get_prop "msg" rest with
                  | Some (JStr s) => JStr s
                  | _ => JStr ""
                  end
        end in
      let* timestamp := match non_null time with
                        | Some t => new_Date t
                        | None => Ok (DateNow now)
                        end in
      let d : doc :=
        [("level", lvl);
         ("message", FJson message);
         ("service", FJson (JStr service));
         ("source", FJson (JStr "logger-client-node"));
         ("storage", FJson (JStr "mongodb"));
         ("storageTags", FJson (JArr [JStr "mongodb"]));
         ("timestamp", FDate timestamp)] in
      let* d := set_string "reqId" reqId d in
      let* d := set_string "userId" userId d in
      let* d := set_string "endpoint" endpoint d in
      let d := set_object "request" reqDetails d in
      let d := set_object "response" resDetails d in
      let d := set_meta rest d in
      Ok d
  end.

End Mapper.

(** *** The stream returned by buildTransport *)

(** A rejection of a promise of the MongoDB client. *)
Record error : Type := {
  err_name : string;
  err_message : string;
  err_stack : option string
}.

(** String(err) for an Error. *)
Definition error_toString (e : error) : string :=
  if String.eqb (err_name e) "" then err_message e
  else if String.eqb (err_message e) "" then err_name e
  else err_name e ++ ": " ++ err_message e.

(** [err.stack || err] inside a template literal. *)
Definition stack_or_error (e : error) : string :=
  match err_stack e with
  | Some s => if String.eqb s "" then error_toString e else s
  | None => error_toString e
  end.

Definition newline : string := String (Json.byte 10) "".

(** The two writes to process.stderr of the catch handler. *)
Definition failure_report (e : error) : list string :=
  ["[logger-client-node] MongoDB insertMany failed: " ++ err_message e
     ++ newline;
   "[logger-client-node] Check LOG_MONGODB_URI and network. Full error: "
     ++ stack_or_error e ++ newline].

(** The resolved options the closures of the stream see. *)
Record config : Type := {
  uri : string;
  dbName : string;
  collection : string;
  service : string;
  batchSize : number;
  flushMs : number
}.

(** col.insertMany(docs, { ordered }) *)
Record insertMany_call : Type := {
  docs : list doc;
  ordered : bool
}.

Record state : Type := {
  buffer : list doc;
  flushTimer : option nat;
  (** the timers the runtime holds, each with its delay *)
  timers : list (nat * number);
  next_handle : nat;
  (** every call of col.insertMany so far, in call order *)
  inserts : list insertMany_call;
  (** positions in [inserts] of the promises not settled yet *)
  pending : list nat;
  stderr : list string;
  (** number of calls [cb()] made by write *)
  write_done : nat;
  (** client.close() was called *)
  closing : bool;
  (** what the callback of final was called with, once it was *)
  final_cb : option (option error)
}.

Definition initial : state :=
  {| buffer := []; flushTimer := None; timers := []; next_handle := 0;
     inserts := []; pending := []; stderr := []; write_done := 0;
     closing := false; final_cb := None |}.

(** array.splice(start, deleteCount): the removed elements and what is
    left of the array. *)
Definition splice {A : Type} (start deleteCount : nat) (l : list A)
  : list A * list A :=
  (firstn deleteCount (skipn start l),
   (firstn start l ++ skipn (start + deleteCount) l)%list).

Definition flush (st : state) : state :=
  if (length (buffer st) =? 0)%nat then st
  else
    let '(removed, remaining) :=
      splice 0 (length (buffer st)) (buffer st) in
    {| buffer := remaining;
       flushTimer := flushTimer st;
       timers := timers st;
       next_handle := next_handle st;
       inserts := inserts st ++ [{| docs := removed; ordered := false |}];
       pending := pending st ++ [length (inserts st)];
       stderr := stderr st;
       write_done := write_done st;
       closing := closing st;
       final_cb := final_cb st |}.

Definition set_flushTimer (t : option nat) (st : state) : state :=
  {| buffer := buffer st; flushTimer := t; timers := timers st;
     next_handle := next_handle st; inserts := inserts st;
     pending := pending st; stderr := stderr st;
     write_done := write_done st; closing := closing st;
     final_cb := final_cb st |}.

(** setTimeout(callback, delay): the new handle and the state. *)
Definition setTimeout (delay : number) (st : state) : nat * state :=
  (next_handle st,
   {| buffer := buffer st; flushTimer := flushTimer st;
      timers := timers st ++ [(next_handle st, delay)];
      next_handle := S (next_handle st); inserts := inserts st;
      pending := pending st; stderr := stderr st;
      write_done := write_done st; closing := closing st;
      final_cb := final_cb st |}).

Definition clearTimeout (h : nat) (st : state) : state :=
  {| buffer := buffer st; flushTimer := flushTimer st;
     timers := List.filter (fun t => negb (fst t =? h)%nat) (timers st);
     next_handle := next_handle st; inserts := inserts st;
     pending := pending st; stderr := stderr st;
     write_done := write_done st; closing := closing st;
     final_cb := final_cb st |}.

(** if (flushTimer) clearTimeout(flushTimer) *)
Definition clear_pending_timer (st : state) : state :=
  match flushTimer st with
  | Some h => clearTimeout h st
  | None => st
  end.

Section Stream.

Variable JSON_parse : string -> option json.
Variable cfg : config.

Definition scheduleFlush (st : state) : state :=
  match flushTimer st with
  | Some _ => st
  | None =>
      let '(h, st') := setTimeout (flushMs cfg) st in
      set_flushTimer (Some h) st'
  end.

(** The callback given to setTimeout. *)
Definition timer_callback (st : state) : state :=
  flush (set_flushTimer None st).

(** The loop of write over the lines; the clock reads [now i] at line
    number [i]. *)
Fixpoint push_lines (now : nat -> Z) (i : nat) (lines : list string)
  (buf : list doc) : list doc :=
  match lines with
  | [] => buf
  | line :: r =>
      match pinoToDoc JSON_parse (now i) (JStr line) (service cfg) with
      | Ok d => push_lines now (S i) r (buf ++ [d])
      | Throw _ => push_lines now (S i) r buf
      end
  end.

Definition lines_of (str : string) : list string :=
  List.filter trim_truthy (split_nl str).

(** The documents of the lines the mapper accepts, in the order of the
    lines. *)
Fixpoint mapped (now : nat -> Z) (i : nat) (lines : list string) : list doc :=
  match lines with
  | [] => []
  | line :: r =>
      match pinoToDoc JSON_parse (now i) (JStr line) (service cfg) with
      | Ok d => d :: mapped now (S i) r
      | Throw _ => mapped now (S i) r
      end
  end.

(** The number of lines the mapper throws on. *)
Fixpoint dropped (now : nat -> Z) (i : nat) (lines : list string) : nat :=
  match lines with
  | [] => 0
  | line :: r =>
      match pinoToDoc JSON_parse (now i) (JStr line) (service cfg) with
      | Ok _ => dropped now (S i) r
      | Throw _ => S (dropped now (S i) r)
      end
  end.

(** The buffer write holds after its loop, before it looks at the
    threshold. *)
Definition filled (str : string) (now : nat -> Z) (st : state) : list doc :=
  push_lines now 0 (lines_of str) (buffer st).

Definition set_buffer (b : list doc) (st : state) : state :=
  {| buffer := b; flushTimer := flushTimer st; timers := timers st;
     next_handle := next_handle st; inserts := inserts st;
     pending := pending st; stderr := stderr st;
     write_done := write_done st; closing := closing st;
     final_cb := final_cb st |}.

Definition call_cb (st : state) : state :=
  {| buffer := buffer st; flushTimer := flushTimer st; timers := timers st;
     next_handle := next_handle st; inserts := inserts st;
     pending := pending st; stderr := stderr st;
     write_done := S (write_done st); closing := closing st;
     final_cb := final_cb st |}.

(** write(chunk, _enc, cb), [str] being chunk.toString(). *)
Definition write (str : string) (now : nat -> Z) (st : state) : state :=
  let st := set_buffer (push_lines now 0 (lines_of str) (buffer st)) st in
  let st :=
    if length_ge (length (buffer st)) (batchSize cfg) then
      set_flushTimer None (clear_pending_timer (flush st))
    else scheduleFlush st in
  call_cb st.

(** final(cb) up to the call of client.close(), whose promise decides
    when and with what cb is called. *)
Definition final (st : state) : state :=
  let st := flush (clear_pending_timer st) in
  {| buffer := buffer st; flushTimer := flushTimer st; timers := timers st;
     next_handle := next_handle st; inserts := inserts st;
     pending := pending st; stderr := stderr st;
     write_done := write_done st; closing := true;
     final_cb := final_cb st |}.

(** The promise of insertMany call number [id] settles: nothing on
    success, the catch handler on failure. *)
Definition settle (id : nat) (outcome : option error) (st : state) : state :=
  {| buffer := buffer st; flushTimer := flushTimer st; timers := timers st;
     next_handle := next_handle st; inserts := inserts st;
     pending := List.filter (fun i => negb (i =? id)%nat) (pending st);
     stderr := match outcome with
               | Some e => stderr st ++ failure_report e
               | None => stderr st
               end;
     write_done := write_done st; closing := closing st;
     final_cb := final_cb st |}.

(** The promise of client.close() settles: [then(() => cb(), cb)]. *)
Definition closed (outcome : option error) (st : state) : state :=
  {| buffer := buffer st; flushTimer := flushTimer st; timers := timers st;
     next_handle := next_handle st; inserts := inserts st;
     pending := pending st; stderr := stderr st;
     write_done := write_done st; closing := closing st;
     final_cb := Some outcome |}.

(** What the runtime and the client can make happen. *)
Inductive event : Type :=
| Write (str : string) (now : nat -> Z)
| Fire (handle : nat)
| Settle (id : nat) (outcome : option error)
| Final
| Closed (outcome : option error).

Definition mem_nat (n : nat) (l : list nat) : bool :=
  existsb (Nat.eqb n) l.

(** One turn of the event loop; [None] when the event cannot happen in
    that state: the stream delivers no write after final and calls final
    once, a timer fires only while the runtime holds it, a promise settles
    once, and the promise of close exists only after final. *)
Definition step (st : state) (ev : event) : option state :=
  match ev with
  | Write str now => if closing st then None else Some (write str now st)
  | Fire h =>
      if mem_nat h (map fst (timers st))
      then Some (timer_callback (clearTimeout h st))
      else None
  | Settle id outcome =>
      if mem_nat id (pending st) then Some (settle id outcome st) else None
  | Final => if closing st then None else Some (final st)
  | Closed outcome =>
      match closing st, final_cb st with
      | true, None => Some (closed outcome st)
      | _, _ => None
      end
  end.

Fixpoint run (st : state) (evs : list event) : option state :=
  match evs with
  | [] => Some st
  | ev :: r =>
      match step st ev with
      | Some st' => run st' r
      | None => None
      end
  end.

End Stream.

(** *** buildTransport(opts) *)

(** process.env *)
Definition env : Type := string -> option string.

Definition BATCH_SIZE (e : env) : number :=
  num_or (parseInt (e "LOG_BATCH_SIZE")) (int 50).

Definition FLUSH_MS (e : env) : number :=
  num_or (parseInt (e "LOG_FLUSH_MS")) (int 2000).

(** The options object, typed as the package documents it; [None] is a
    property that is absent or undefined. *)
Record options : Type := {
  opt_uri : option string;
  opt_database : option string;
  opt_collection : option string;
  opt_service : option string;
  opt_batchSize : option number;
  opt_flushMs : option number
}.

(** The empty object of [opts || {}]. *)
Definition no_options : options :=
  {| opt_uri := None; opt_database := None; opt_collection := None;
     opt_service := None; opt_batchSize := None; opt_flushMs := None |}.

(** What the MongoDB driver does, seen from buildTransport: whether
    new MongoClient(uri) throws, whether client.connect() rejects, and the
    database name the connection string selects. *)
Record client : Type := {
  construct : string -> option error;
  connect : string -> option error;
  databaseName : string -> string
}.

Inductive client_call : Type :=
| NewClient (uri : string)
| Connect
| Db (name : option string)
| Collection (name : string).

Inductive failure : Type :=
| ConfigurationError (message : string)
| ClientError (e : error).

(** The promise buildTransport returns: rejected, or resolved with the
    stream (its options and its first state); with the calls made on the
    driver on the way. *)
Inductive built : Type :=
| Rejected (f : failure) (calls : list client_call)
| Resolved (cfg : config) (st : state) (calls : list client_call).

Definition uri_required : string :=
  "MongoDB URI for logs required: set LOG_MONGODB_URI "
  ++ "(or MONGODB_URI) in environment".

Definition buildTransport (e : env) (mongo : client) (opts : option options)
  : built :=
  let o := default no_options opts in
  let uri := match opt_uri o with
             | Some u => Some u
             | None => str_or (e "LOG_MONGODB_URI") (e "MONGODB_URI")
             end in
  let database := match opt_database o with
                  | Some d => Some d
                  | None => e "LOG_DATABASE"
                  end in
  let collection :=
    default (default "logs" (str_or (e "LOG_COLLECTION") None))
      (opt_collection o) in
  let service :=
    default (default "app" (str_or (e "LOG_SERVICE") None)) (opt_service o) in
  let batchSize := default (BATCH_SIZE e) (opt_batchSize o) in
  let flushMs := default (FLUSH_MS e) (opt_flushMs o) in
  match str_or uri None with
  | None => Rejected (ConfigurationError uri_required) []
  | Some u =>
      match construct mongo u with
      | Some err => Rejected (ClientError err) [NewClient u]
      | None =>
          match connect mongo u with
          | Some err => Rejected (ClientError err) [NewClient u; Connect]
          | None =>
              let '(dbName, asked) :=
                match str_or database None with
                | Some d => (d, [])
                | None => (databaseName mongo u, [Db None])
                end in
              Resolved
                {| uri := u; dbName := dbName; collection := collection;
                   service := service; batchSize := batchSize;
                   flushMs := flushMs |}
                initial
                ([NewClient u; Connect] ++ asked
                 ++ [Db (Some dbName); Collection collection])%list
          end
      end
  end.

(** The document [d] with the clock reading of its timestamp, when it is
    one, replaced by [now]. *)
Definition with_clock (now : Z) (d : doc) : doc :=
  map (fun kv =>
         (fst kv,
          if String.eqb (fst kv) "timestamp" then
            match snd kv with
            | FDate (DateNow _) => FDate (DateNow now)
            | f => f
            end
          else snd kv)) d.

(** *** The storage document schema *)

Definition level_names : list string :=
  ["trace"; "debug"; "info"; "warn"; "error"; "fatal"].

(** The fields of the schema as the specification lists them. *)
Definition schema_fields : list string :=
  ["level"; "message"; "service"; "timestamp"; "reqId"; "userId";
   "endpoint"; "request"; "response"; "meta"].

(** The fields pinoToDoc can set. *)
Definition document_fields : list string :=
  ["level"; "message"; "service"; "source"; "storage"; "storageTags";
   "timestamp"; "reqId"; "userId"; "endpoint"; "request"; "response";
   "meta"].

Definition is_string (f : field) : bool :=
  match f with
  | FJson (JStr _) => true
  | _ => false
  end.

Definition is_level (f : field) : bool :=
  match f with
  | FJson (JStr s) => mem s level_names
  | _ => false
  end.

Definition is_datetime (f : field) : bool :=
  match f with
  | FDate _ => true
  | _ => false
  end.

Definition is_object_field (f : field) : bool :=
  match f with
  | FJson v => is_object v
  | _ => false
  end.

Definition required (p : field -> bool) (k : string) (d : doc) : bool :=
  match get_prop k d with
  | Some f => p f
  | None => false
  end.

Definition optional (p : field -> bool) (k : string) (d : doc) : bool :=
  match get_prop k d with
  | Some f => p f
  | None => true
  end.

(** The schema in the words of the specification:
    { level: string (one of the six names), message: string,
      service: string, timestamp: datetime, reqId?: string,
      userId?: string, endpoint?: string, request?: object,
      response?: object, meta?: object }. *)
Definition conforms_to_storage_schema (d : doc) : bool :=
  required is_level "level" d
  && required is_string "message" d
  && required is_string "service" d
  && required is_datetime "timestamp" d
  && optional is_string "reqId" d
  && optional is_string "userId" d
  && optional is_string "endpoint" d
  && optional is_object_field "request" d
  && optional is_object_field "response" d
  && optional is_object_field "meta" d
  && forallb (fun k => mem k schema_fields) (keys d).

(** At most one timer: the runtime holds no timer, or exactly the one
    flushTimer names. *)
Definition one_timer (st : state) : Prop :=
  (timers st = [] /\ (flushTimer st = None \/ closing st = true))
  \/ (exists h d, timers st = [(h, d)] /\ flushTimer st = Some h
                  /\ closing st = false).

(** ** Examples used as concrete inputs *)

Definition example_config (size : Z) : config :=
  {| uri := "mongodb://logs.example/central"; dbName := "central";
     collection := "logs"; service := "gym"; batchSize := int size;
     flushMs := int 2000 |}.

Definition at_noon : nat -> Z := fun _ => 1700000000000%Z.

Definition boom : error :=
  {| err_name := "MongoNetworkError"; err_message := "connection refused";
     err_stack := None |}.

(** A driver whose constructor accepts every connection string and whose
    connect rejects. *)
Definition unreachable_mongo : client :=
  {| construct := fun _ => None;
     connect := fun _ => Some boom;
     databaseName := fun _ => "central" |}.

(** A driver that connects. *)
Definition reachable_mongo : client :=
  {| construct := fun _ => None;
     connect := fun _ => None;
     databaseName := fun _ => "central" |}.

Definition no_env : env := fun _ => None.

Definition env_with (name value : string) : env :=
  fun k => if String.eqb k name then Some value else None.

Definition options_with_uri (u : string) : options :=
  {| opt_uri := Some u; opt_database := None; opt_collection := None;
     opt_service := None; opt_batchSize := None; opt_flushMs := None |}.

(** The stream with batchSize 50 after one record was written: the record
    is buffered and the timer runs. *)
Definition one_buffered : state :=
  write Json.parse (example_config 50) "{}" at_noon initial.

(** The stream with batchSize 1 after one record was written: the record
    is in flight. *)
Definition one_in_flight : state :=
  write Json.parse (example_config 1) "{}" at_noon initial.

(** A chunk of three records. *)
Definition three_records : string :=
  "{}" ++ newline ++ "{}" ++ newline ++ "{}" ++ newline.

(** A chunk of a line that is not JSON and a record. *)
Definition bad_then_good : string :=
  "oops" ++ newline ++ "{}" ++ newline.

(** A record with every field the mapper knows and one it does not. *)
Definition full_record : string :=
  Json.js
    ("{'level':50,'time':1700000000000,'msg':'POST /coach 500 12ms',"
     ++ "'reqId':'r-1','userId':42,'endpoint':'POST /coach',"
     ++ "'request':{'method':'POST'},'response':{'statusCode':500},"
     ++ "'extra':true}").


(** *** What a run has taken in and handed over *)

(** The documents handed to the sink so far, in the order of the calls. *)
Definition handed (st : state) : list doc :=
  List.concat (map docs (inserts st)).

Definition is_write (ev : event) : bool :=
  match ev with
  | Write _ _ => true
  | _ => false
  end.

Definition is_settle (ev : event) : bool :=
  match ev with
  | Settle _ _ => true
  | _ => false
  end.

Definition is_failure (ev : event) : bool :=
  match ev with
  | Settle _ (Some _) => true
  | _ => false
  end.

Definition count (p : event -> bool) (evs : list event) : nat :=
  length (List.filter p evs).

Section Accounting.

Variable JSON_parse : string -> option json.
Variable cfg : config.

(** The documents the mapper accepts from the chunks written in a run. *)
Definition accepted (ev : event) : list doc :=
  match ev with
  | Write str now => mapped JSON_parse cfg now 0 (lines_of str)
  | _ => []
  end.

Definition written (evs : list event) : list doc :=
  List.flat_map accepted evs.

End Accounting.

(** *** What holds between two turns of the event loop *)

(** Every call of insertMany has a non-empty batch and is unordered. *)
Definition well_formed_calls (st : state) : Prop :=
  Forall (fun c => docs c <> [] /\ ordered c = false) (inserts st).

(** The promises in flight are distinct calls that were made. *)
Definition in_flight_ok (st : state) : Prop :=
  List.NoDup (pending st)
  /\ Forall (fun i => i < length (inserts st)) (pending st).

(** After final the stream is quiet: nothing buffered, no timer. *)
Definition quiet_when_closing (st : state) : Prop :=
  one_timer st /\ (closing st = true -> buffer st = [] /\ timers st = []).

Section Invariants.

Variable cfg : config.

(** The buffer holds fewer records than batchSize. *)
Definition below_threshold (st : state) : Prop :=
  buffer st = [] \/ length_ge (length (buffer st)) (batchSize cfg) = false.

(** A buffered record waits for a timer of flushMs that the runtime
    holds. *)
Definition timer_covers_buffer (st : state) : Prop :=
  one_timer st
  /\ Forall (fun t => snd t = flushMs cfg) (timers st)
  /\ (buffer st <> [] -> flushTimer st <> None /\ closing st = false).

End Invariants.

(** *** Lines, decimal numerals and level numbers *)

Fixpoint has_newline (s : string) : bool :=
  match s with
  | EmptyString => false
  | String c r => (Json.code c =? 10)%Z || has_newline r
  end.

(** The number a decimal numeral writes, after the digits read into
    [acc]. *)
Fixpoint uint_value (d : Decimal.uint) (acc : Z) : Z :=
  match d with
  | Decimal.Nil => acc
  | Decimal.D0 l => uint_value l (acc * 10)
  | Decimal.D1 l => uint_value l (acc * 10 + 1)
  | Decimal.D2 l => uint_value l (acc * 10 + 2)
  | Decimal.D3 l => uint_value l (acc * 10 + 3)
  | Decimal.D4 l => uint_value l (acc * 10 + 4)
  | Decimal.D5 l => uint_value l (acc * 10 + 5)
  | Decimal.D6 l => uint_value l (acc * 10 + 6)
  | Decimal.D7 l => uint_value l (acc * 10 + 7)
  | Decimal.D8 l => uint_value l (acc * 10 + 8)
  | Decimal.D9 l => uint_value l (acc * 10 + 9)
  end.

(** The text does not go on with a digit. *)
Definition no_digit_head (s : string) : bool :=
  match s with
  | EmptyString => true
  | String c _ => negb (is_digit c)
  end.

(** The level names of the logging library by number, info for every
    other number. *)
Definition pino_level (z : Z) : string :=
  if (z =? 10)%Z then "trace"
  else if (z =? 20)%Z then "debug"
  else if (z =? 30)%Z then "info"
  else if (z =? 40)%Z then "warn"
  else if (z =? 50)%Z then "error"
  else if (z =? 60)%Z then "fatal"
  else "info".

(** *** The fields of a record as the document holds them *)

(** String(x) succeeds, for x that is not null or undefined. *)
Definition stringable (x : option json) : bool :=
  match non_null x with
  | Some v => match String_ v with
              | Ok _ => true
              | Throw _ => false
              end
  | None => true
  end.

(** The string field made of x, none for null and undefined. *)
Definition stringified (x : option json) : option field :=
  match non_null x with
  | Some v => match String_ v with
              | Ok s => Some (FJson (JStr s))
              | Throw _ => None
              end
  | None => None
  end.


Definition primitive_or_absent (x : option json) : bool :=
  match x with
  | Some v => negb (is_object v)
  | None => true
  end.

(** The fields of a record that the mapper converts. *)
Definition converted : list string :=
  ["level"; "time"; "reqId"; "userId"; "endpoint"].

End Transport.

(** ** wrapForNest (package index) *)

Module Nest.
Import JS.

(** Values and functions.  A function of the logging library is known by
    a number; the closures wrapForNest creates are kept as what they
    captured. *)
Inductive value : Type :=
| VUndefined
| VNull
| VBool (b : bool)
| VNum (n : number)
| VStr (s : string)
| VRef (r : nat)
| VFun (f : func)
with func : Type :=
| FHost (id : nat)
| FBound (f : func) (this : value)
| FLog (logger : value)
| FVerbose (logger : value)
| FChild (origChild : func).

Record object : Type := {
  proto : option nat;
  own : gmap string value
}.

(** A heap is the list of the objects allocated so far, [list object]; a
    reference is a position in it. *)

Definition truthy (v : value) : bool :=
  match v with
  | VUndefined | VNull => false
  | VBool b => b
  | VNum n => number_truthy n
  | VStr s => negb (String.eqb s "")
  | VRef _ | VFun _ => true
  end.

(** The property [k] of object [r], through its prototype chain. *)
Fixpoint lookup (fuel : nat) (h : list object) (r : nat) (k : string)
  : value :=
  match fuel with
  | O => VUndefined
  | S f =>
      match h !! r with
      | None => VUndefined
      | Some o =>
          match own o !! k with
          | Some v => v
          | None =>
              match proto o with
              | Some p => lookup f h p k
              | None => VUndefined
              end
          end
      end
  end.

(** v[k] for the names used here (log, verbose, child, info, debug), which
    no built-in prototype defines: undefined on a primitive or a function,
    a TypeError on undefined and null. *)
Definition get (h : list object) (v : value) (k : string) : res value :=
  match v with
  | VUndefined | VNull => Throw TypeError
  | VRef r => Ok (lookup (S (length h)) h r k)
  | _ => Ok VUndefined
  end.

(** Object.create(proto) *)
Definition Object_create (p : nat) (h : list object) : nat * list object :=
  (length h, (h ++ [{| proto := Some p; own := ∅ |}])%list).

(** o[k] = v on an object whose chain holds [k], if at all, as a writable
    data property. *)
Definition assign (r : nat) (k : string) (v : value) (h : list object)
  : list object :=
  match h !! r with
  | Some o => <[r := {| proto := proto o; own := <[k := v]> (own o) |}]> h
  | None => h
  end.

Definition wrapForNest (logger : value) (h : list object)
  : res (value * list object) :=
  let* log := get h logger "log" in
  let* verbose := get h logger "verbose" in
  if truthy log && truthy verbose then Ok (logger, h)
  else
    match logger with
    | VRef r =>
        let '(w, h) := Object_create r h in
        let h := assign w "log" (VFun (FLog logger)) h in
        let h := assign w "verbose" (VFun (FVerbose logger)) h in
        let* child := get h logger "child" in
        match child with
        | VFun c =>
            let origChild := FBound c logger in
            let h := assign w "child" (VFun (FChild origChild)) h in
            Ok (VRef w, h)
        | _ => Throw TypeError
        end
    | _ => Throw TypeError
    end.

Section Calls.

(** The functions of the logging library: what function [id] does when
    called on [this] with [args]. *)
Variable host :
  nat -> value -> list value -> list object -> res (value * list object).

(** f.apply(this, args); [None] when [fuel] nested calls do not suffice. *)
Fixpoint call (fuel : nat) (f : func) (this : value) (args : list value)
  (h : list object) : option (res (value * list object)) :=
  match fuel with
  | O => None
  | S n =>
      let apply_method (logger : value) (name : string) :=
        match get h logger name with
        | Ok (VFun g) => call n g logger args h
        | Ok _ => Some (Throw TypeError)
        | Throw e => Some (Throw e)
        end in
      match f with
      | FHost id => Some (host id this args h)
      | FBound g t => call n g t args h
      | FLog logger => apply_method logger "info"
      | FVerbose logger => apply_method logger "debug"
      | FChild origChild =>
          match call n origChild VUndefined [nth 0 args VUndefined] h with
          | Some (Ok (r, h')) => Some (wrapForNest r h')
          | other => other
          end
      end
  end.

(** obj[name](...args) *)
Definition invoke (fuel : nat) (obj : value) (name : string)
  (args : list value) (h : list object)
  : option (res (value * list object)) :=
  match get h obj name with
  | Ok (VFun f) => call fuel f obj args h
  | Ok _ => Some (Throw TypeError)
  | Throw e => Some (Throw e)
  end.

End Calls.

(** Every prototype was allocated before the objects that inherit from
    it, as with Object.create. *)
Definition older_prototypes (h : list object) : Prop :=
  forall (r p : nat) (o : object),
    h !! r = Some o -> proto o = Some p -> p < r.

(** A logger as the logging library makes it: info, debug and child are
    functions of the library, log and verbose are absent. *)
Definition library_logger : object :=
  {| proto := None;
     own := <["child" := VFun (FHost 2)]>
              (<["debug" := VFun (FHost 1)]>
                 (<["info" := VFun (FHost 0)]> ∅)) |}.

(** A library whose functions return their number and the first argument
    joined in a string, and allocate nothing. *)
(** The heap after wrapForNest on the library logger alone in the heap;
    the wrapper is object 1. *)
Definition wrapped_once : list object :=
  match wrapForNest (VRef 0) [library_logger] with
  | Ok (_, h) => h
  | Throw _ => []
  end.

Definition echo_host (id : nat) (this : value) (args : list value)
  (h : list object) : res (value * list object) :=
  Ok (VStr (nat_key id ++ ":" ++
            match args with
            | VStr s :: _ => s
            | _ => ""
            end), h).

End Nest.

(** ** createLogger (package index) *)

Module Index.
Import JS Transport.

(** The options of createLogger, typed as the package documents them;
    [None] is a property that is absent or undefined.  A value of
    options.pino is kept as JSON data or, when it is none, by a number. *)
Inductive pino_value : Type :=
| PJson (j : json)
| POpaque (id : nat).

Record logger_options : Type := {
  lo_uri : option string;
  lo_service : option string;
  lo_local : option bool;
  lo_logFile : option string;
  lo_database : option string;
  lo_collection : option string;
  lo_batchSize : option number;
  lo_flushMs : option number;
  lo_stdout : option bool;
  lo_pino : option (props pino_value)
}.

(** The empty object of [options = {}]. *)
Definition no_logger_options : logger_options :=
  {| lo_uri := None; lo_service := None; lo_local := None;
     lo_logFile := None; lo_database := None; lo_collection := None;
     lo_batchSize := None; lo_flushMs := None; lo_stdout := None;
     lo_pino := None |}.

(** [v === s] on an environment variable. *)
Definition env_is (v : option string) (s : string) : bool :=
  match v with
  | Some x => String.eqb x s
  | None => false
  end.

Definition getLogsMongoUri (e : env) (options : logger_options)
  : option string :=
  str_or (str_or (lo_uri options) (e "LOG_MONGODB_URI")) (e "MONGODB_URI").

Definition isLocalMode (e : env) (options : logger_options) : bool :=
  match lo_local options with
  | Some true => true
  | _ => false
  end
  || env_is (e "LOG_TO_MONGO") "false"
  || env_is (e "NODE_ENV") "development".

(** Where a logger writes: process.stdout, pino.destination(file, {append:
    true}), or pino.transport with mongo-transport.js as target and the
    options given. *)
Inductive stream : Type :=
| Stdout
| File (path : string)
| MongoTransport (opts : Transport.options).

(** One stream as it is, or pino.multistream of several. *)
Inductive destination : Type :=
| Single (s : stream)
| Multistream (l : list stream).

Definition streams_of (d : destination) : list stream :=
  match d with
  | Single s => [s]
  | Multistream l => l
  end.

(** [x !== false] *)
Definition not_false (x : option bool) : bool :=
  match x with
  | Some false => false
  | _ => true
  end.

(** The options handed to the transport. *)
Definition transport_options (e : env) (options : logger_options)
  : Transport.options :=
  {| opt_uri := getLogsMongoUri e options;
     opt_service :=
       str_or (str_or (lo_service options) (e "LOG_SERVICE")) (Some "app");
     opt_database := str_or (lo_database options) (e "LOG_DATABASE");
     opt_collection :=
       str_or (str_or (lo_collection options) (e "LOG_COLLECTION"))
         (Some "logs");
     opt_batchSize := lo_batchSize options;
     opt_flushMs := lo_flushMs options |}.

(** The file of local mode, when there is one: options.logFile ||
    process.env.LOG_FILE, if truthy. *)
Definition log_file (e : env) (options : logger_options) : option string :=
  str_or (str_or (lo_logFile options) (e "LOG_FILE")) None.

(** dest, lines 65 to 98. *)
Definition destination_of (e : env) (options : logger_options)
  : destination :=
  if isLocalMode e options then
    let streams :=
      ((if not_false (lo_stdout options) then [Stdout] else [])
       ++ match log_file e options with
          | Some f => [File f]
          | None => []
          end)%list in
    if (1 <? length streams)%nat then Multistream streams
    else match streams with
         | s :: _ => Single s
         | [] => Single Stdout
         end
  else
    let transport := MongoTransport (transport_options e options) in
    if not_false (lo_stdout options) then Multistream [Stdout; transport]
    else Single transport.

(** The directory made before the file is opened: fs.mkdirSync of
    path.dirname(logFile), recursive, its errors ignored.  [Some f] stands
    for the directory of f. *)
Definition mkdir_for (e : env) (options : logger_options) : option string :=
  if isLocalMode e options then log_file e options else None.

(** { ...o }: the own properties of o, assigned in their order. *)
Definition spread {A : Type} (o : props A) (into : props A) : props A :=
  fold_left (fun acc kv => set_prop (fst kv) (snd kv) acc) o into.

(** { level: process.env.LOG_LEVEL || "info", ...options.pino } *)
Definition pino_options (e : env) (options : logger_options)
  : props pino_value :=
  let level := default "info" (str_or (e "LOG_LEVEL") None) in
  spread (default [] (lo_pino options)) [("level", PJson (JStr level))].

Section CreateLogger.

(** pino(options, destination): the logging library makes the logger, or
    throws. *)
Variable pino :
  props pino_value -> destination -> list Nest.object
  -> res (Nest.value * list Nest.object).

Definition createLogger (e : env) (options : option logger_options)
  (h : list Nest.object) : res (Nest.value * list Nest.object) :=
  let o := default no_logger_options options in
  let* (logger, h') := pino (pino_options e o) (destination_of e o) h in
  Nest.wrapForNest logger h'.

End CreateLogger.

(** The first of the values that is a non-empty string. *)
Fixpoint first_truthy (l : list (option string)) : option string :=
  match l with
  | [] => None
  | Some s :: r => if String.eqb s "" then first_truthy r else Some s
  | None :: r => first_truthy r
  end.

Definition is_transport (s : stream) : bool :=
  match s with
  | MongoTransport _ => true
  | _ => false
  end.

Definition is_file (s : stream) : bool :=
  match s with
  | File _ => true
  | _ => false
  end.

End Index.

(** ** src/request-logger.js *)

Module RequestLogger.
Import JS Transport.

(** *** sanitizeBody *)

(** The text of a body is counted and cut by UTF-16 code units, so it is
    kept as the list of them. *)
Definition text : Type := list N.

(** The code units of ASCII text. *)
Definition units (s : string) : text :=
  map N_of_ascii (list_ascii_of_string s).

(** A request body as sanitizeBody sees it: undefined, null, a value that
    is no object with the text String(body) gives, or an object with the
    text JSON.stringify(body) gives ([None] when it throws or returns
    undefined). *)
Inductive body : Type :=
| BUndefined
| BNull
| BPrimitive (string_of : text)
| BObject (stringified : option text).

(** ToIntegerOrInfinity *)
Definition to_integer (n : number) : Z :=
  match n with
  | NaN => 0
  | Num m s => Z.quot m (10 ^ Z.of_N s)
  end.

(** t.slice(0, end) *)
Definition slice0 (t : text) (end_ : number) : text :=
  let len := Z.of_nat (length t) in
  let e := to_integer end_ in
  let final := if (e <? 0)%Z then Z.max (len + e) 0 else Z.min e len in
  firstn (Z.to_nat final) t.

(** [len > n]; a comparison with NaN is false. *)
Definition length_gt (len : nat) (n : number) : bool :=
  match n with
  | NaN => false
  | Num m s => (m <? Z.of_nat len * 10 ^ Z.of_N s)%Z
  end.

(** sanitizeBody(body, maxLength); [None] is undefined. *)
Definition sanitizeBody (b : body) (maxLength : option number)
  : option text :=
  let maxLength := default (int 2000) maxLength in
  match b with
  | BUndefined | BNull => None
  | BPrimitive s => Some (slice0 s maxLength)
  | BObject (Some str) =>
      Some (if length_gt (length str) maxLength
            then (slice0 str maxLength ++ units "...")%list
            else str)
  | BObject None => Some (units "[non-serializable]")
  end.

(** *** requestLoggerMiddleware *)

(** The options, typed as the package documents them; a logger is known
    by a number. *)
Record middleware_options : Type := {
  mo_logger : option nat;
  mo_includeBody : option bool;
  mo_includeHeaders : option bool;
  mo_bodyMaxLength : option number;
  mo_redactHeaders : option (list string)
}.

(** The empty object of [options = {}]. *)
Definition no_middleware_options : middleware_options :=
  {| mo_logger := None; mo_includeBody := None; mo_includeHeaders := None;
     mo_bodyMaxLength := None; mo_redactHeaders := None |}.

(** What the middleware reads of the request; [None] is undefined. *)
Record request : Type := {
  req_id : option string;
  req_headers : option (props json);
  req_method : option string;
  req_originalUrl : option string;
  req_path : option string;
  req_query : option (props json);
  req_body : body;
  req_app_locals_logger : option nat
}.

Record request_details : Type := {
  rd_method : string;
  rd_path : string;
  rd_query : option (props json);
  (** [None]: no body property; [Some None]: the property is undefined. *)
  rd_body : option (option text);
  rd_headers : option (props json)
}.

(** logger[level]({ reqId, endpoint, request, response }, message) *)
Record log_call : Type := {
  lc_logger : nat;
  lc_level : string;
  lc_reqId : json;
  lc_endpoint : string;
  lc_request : request_details;
  lc_statusCode : number;
  lc_durationMs : Z;
  lc_message : string
}.

(** s.split("?")[0] *)
Fixpoint before_query (s : string) : string :=
  match s with
  | EmptyString => ""
  | String c r =>
      if (Json.code c =? 63)%Z then "" else String c (before_query r)
  end.

(** [n >= k] for an integer k; a comparison with NaN is false. *)
Definition number_ge (n : number) (k : Z) : bool :=
  match n with
  | NaN => false
  | Num m s => (k * 10 ^ Z.of_N s <=? m)%Z
  end.

Definition is_null (v : json) : bool :=
  match v with
  | JNull => true
  | _ => false
  end.

Section Middleware.

(** String.prototype.toLowerCase *)
Variable toLowerCase : string -> string.

(** One turn of redactHeaders.forEach on the copy of the headers, an
    object literal: [headers[k]] may be inherited from Object.prototype,
    and assigning to an inherited __proto__ adds no property. *)
Definition redact_one (headers : props json) (key : string) : props json :=
  let k := toLowerCase key in
  match get_prop k headers with
  | Some v =>
      if is_null v then headers else set_prop k (JStr "[redacted]") headers
  | None =>
      if mem k Object_prototype && negb (String.eqb k "__proto__")
      then set_prop k (JStr "[redacted]") headers
      else headers
  end.

Definition redact (keys : list string) (headers : props json) : props json :=
  fold_left redact_one keys headers.

(** reqId, computed when the request arrives: req.id, the x-request-id
    header, or a new one made of the clock and a random text. *)
Definition reqId_of (req : request) (now : Z) (random : string) : json :=
  let generated :=
    JStr ("req-" ++ number_toString (int now) ++ "-" ++ random) in
  match str_or (req_id req) None with
  | Some s => JStr s
  | None =>
      match req_headers req with
      | Some hs =>
          match get_prop "x-request-id" hs with
          | Some v => if truthy v then v else generated
          | None => generated
          end
      | None => generated
      end
  end.

(** The callback of the finish event of the response: the call it makes
    on the logger, if any.  [start] and [now] are the clock when the
    request arrived and when the response finished. *)
Definition on_finish (options : middleware_options) (req : request)
  (reqId : json) (start : Z) (statusCode : number) (now : Z)
  : option log_call :=
  match match mo_logger options with
        | Some l => Some l
        | None => req_app_locals_logger req
        end with
  | None => None
  | Some logger =>
      let method := default "?" (str_or (req_method req) None) in
      let path :=
        default "/"
          (str_or (str_or (option_map before_query (req_originalUrl req))
                     (req_path req)) None) in
      let endpoint := method ++ " " ++ path in
      let durationMs := (now - start)%Z in
      let query := match req_query req with
                   | Some (kv :: q) => Some (kv :: q)
                   | _ => None
                   end in
      let body :=
        if default true (mo_includeBody options) then
          match req_body req with
          | BUndefined => None
          | b => Some (sanitizeBody b
                         (Some (default (int 2000)
                                  (mo_bodyMaxLength options))))
          end
        else None in
      let headers :=
        if default false (mo_includeHeaders options) then
          match req_headers req with
          | Some hs =>
              Some (redact (default ["authorization"; "cookie"]
                              (mo_redactHeaders options)) hs)
          | None => None
          end
        else None in
      let level :=
        if number_ge statusCode 500 then "error"
        else if number_ge statusCode 400 then "warn"
        else "info" in
      let message :=
        method ++ " " ++ path ++ " " ++ number_toString statusCode ++ " "
        ++ number_toString (int durationMs) ++ "ms" in
      Some {| lc_logger := logger; lc_level := level; lc_reqId := reqId;
              lc_endpoint := endpoint;
              lc_request := {| rd_method := method; rd_path := path;
                               rd_query := query; rd_body := body;
                               rd_headers := headers |};
              lc_statusCode := statusCode; lc_durationMs := durationMs;
              lc_message := message |}
  end.

(** middleware(req, res, next): the id it gives the request and the
    callback it registers; next is then called.  [start] and [now] are the
    two readings of the clock, [random] the text of Math.random() in base
    36 from its third to its ninth character. *)
Definition middleware (options : option middleware_options) (req : request)
  (start now : Z) (random : string)
  : json * (number -> Z -> option log_call) :=
  let o := default no_middleware_options options in
  let reqId := reqId_of req now random in
  (reqId, on_finish o req reqId start).

End Middleware.


Definition redacted_or_absent (v : option json) : bool :=
  match v with
  | None | Some JNull => true
  | Some (JStr s) => String.eqb s "[redacted]"
  | _ => false
  end.

End RequestLogger.

(** ** Concrete inputs for the package index and the middleware *)

(** Two chunks written to a stream with batchSize 2: three records, then
    one. *)
Definition two_chunks : list Transport.event :=
  [Transport.Write Transport.three_records Transport.at_noon;
   Transport.Write "{}" Transport.at_noon].

(** A whole life of that stream: the two chunks, final, the two calls of
    insertMany settling (the second one rejected), and the connection
    closed. *)
Definition whole_life : list Transport.event :=
  (two_chunks
   ++ [Transport.Final; Transport.Settle 0 None;
       Transport.Settle 1 (Some Transport.boom); Transport.Closed None])%list.

(** Options that name a service and override the level of the logging
    library. *)
Definition gym_options : Index.logger_options :=
  {| Index.lo_uri := None; Index.lo_service := Some "gym";
     Index.lo_local := None; Index.lo_logFile := None;
     Index.lo_database := None; Index.lo_collection := None;
     Index.lo_batchSize := None; Index.lo_flushMs := None;
     Index.lo_stdout := None;
     Index.lo_pino :=
       Some [("level", Index.PJson (JS.JStr "debug"));
             ("name", Index.PJson (JS.JStr "gym"))] |}.

(** A logging library that makes the library logger as the next object of
    the heap. *)
Definition example_pino (o : JS.props Index.pino_value)
  (d : Index.destination) (h : list Nest.object)
  : res (Nest.value * list Nest.object) :=
  Ok (Nest.VRef (length h), (h ++ [Nest.library_logger])%list).


(** POST /coach/register?ref=mail with an authorization header and a JSON
    body of nine code units. *)
Definition example_request : RequestLogger.request :=
  {| RequestLogger.req_id := None;
     RequestLogger.req_headers :=
       Some [("authorization", JS.JStr "Bearer secret");
             ("accept", JS.JStr "*/*")];
     RequestLogger.req_method := Some "POST";
     RequestLogger.req_originalUrl := Some "/coach/register?ref=mail";
     RequestLogger.req_path := Some "/register";
     RequestLogger.req_query := Some [("ref", JS.JStr "mail")];
     RequestLogger.req_body :=
       RequestLogger.BObject
         (Some (RequestLogger.units (Json.js "{'a':100}")));
     RequestLogger.req_app_locals_logger := Some 0 |}.

(** Options that include the headers. *)
Definition with_headers : RequestLogger.middleware_options :=
  {| RequestLogger.mo_logger := None;
     RequestLogger.mo_includeBody := None;
     RequestLogger.mo_includeHeaders := Some true;
     RequestLogger.mo_bodyMaxLength := None;
     RequestLogger.mo_redactHeaders := None |}.

(** toLowerCase on text that has no upper case letter. *)
Definition lower_case_already (s : string) : string := s.

(** * Properties *)

Import JS Transport.
Local Open Scope list_scope.

(** ** The buffer, the timer and the sink write path *)

Section StreamFacts.

Variable JSON_parse : string -> option json.
Variable cfg : config.

Lemma splice_all {A : Type} (l : list A) :
  splice 0 (length l) l = (l, []).
Proof.
  unfold splice. simpl. rewrite firstn_all, skipn_all. reflexivity.
Qed.

Lemma flush_empty (st : state) : buffer st = [] -> flush st = st.
Proof.
  intros E. unfold flush. rewrite E. reflexivity.
Qed.

Lemma flush_nonempty (st : state) :
  buffer st <> [] ->
  flush st =
    {| buffer := [];
       flushTimer := flushTimer st;
       timers := timers st;
       next_handle := next_handle st;
       inserts := inserts st ++ [{| docs := buffer st; ordered := false |}];
       pending := pending st ++ [length (inserts st)];
       stderr := stderr st;
       write_done := write_done st;
       closing := closing st;
       final_cb := final_cb st |}.
Proof.
  intros NE. unfold flush. rewrite splice_all.
  destruct (buffer st) as [|d b]; [congruence|]. reflexivity.
Qed.

(** What flush leaves alone. *)
Lemma flush_frame (st : state) :
  flushTimer (flush st) = flushTimer st /\
  timers (flush st) = timers st /\
  next_handle (flush st) = next_handle st /\
  stderr (flush st) = stderr st /\
  write_done (flush st) = write_done st /\
  closing (flush st) = closing st /\
  final_cb (flush st) = final_cb st /\
  buffer (flush st) = [].
Proof.
  destruct (buffer st) as [|d b] eqn:E.
  - rewrite flush_empty by assumption. rewrite E. repeat split.
  - rewrite flush_nonempty by congruence. simpl. repeat split.
Qed.

Lemma flush_inserts (st : state) :
  exists more, inserts (flush st) = inserts st ++ more.
Proof.
  destruct (buffer st) as [|d b] eqn:E.
  - rewrite flush_empty by assumption. exists []. by rewrite app_nil_r.
  - rewrite flush_nonempty by congruence. simpl. rewrite E. eauto.
Qed.

(** The calls of insertMany only grow: a call once made is never changed
    or removed, whatever happens next. *)
Lemma step_inserts (st st' : state) (ev : event) :
  step JSON_parse cfg st ev = Some st' ->
  exists more, inserts st' = inserts st ++ more.
Proof.
  destruct ev as [str now|h|id o| |o]; simpl.
  - destruct (closing st); [discriminate|]. intros [= <-].
    unfold Transport.write, call_cb. simpl.
    set (st1 := set_buffer _ st).
    assert (I1 : inserts st1 = inserts st) by reflexivity.
    destruct (length_ge _ _).
    + unfold set_flushTimer, clear_pending_timer. simpl.
      destruct (flush_inserts st1) as [more E].
      destruct (flushTimer (flush st1)); simpl; rewrite E, I1; eauto.
    + unfold scheduleFlush. destruct (flushTimer st1); simpl.
      * exists []. by rewrite app_nil_r.
      * exists []. by rewrite app_nil_r.
  - destruct (mem_nat _ _); [|discriminate]. intros [= <-].
    unfold timer_callback.
    destruct (flush_inserts (set_flushTimer None (clearTimeout h st)))
      as [more E].
    rewrite E. simpl. eauto.
  - destruct (mem_nat _ _); [|discriminate]. intros [= <-]. simpl.
    exists []. by rewrite app_nil_r.
  - destruct (closing st); [discriminate|]. intros [= <-].
    unfold final. simpl.
    destruct (flush_inserts (clear_pending_timer st)) as [more E].
    rewrite E. unfold clear_pending_timer.
    destruct (flushTimer st); simpl; eauto.
  - destruct (closing st), (final_cb st); try discriminate.
    intros [= <-]. simpl. exists []. by rewrite app_nil_r.
Qed.

Lemma run_inserts (evs : list event) (st st' : state) :
  run JSON_parse cfg st evs = Some st' ->
  exists more, inserts st' = inserts st ++ more.
Proof.
  revert st. induction evs as [|ev evs IH]; simpl; intros st.
  - intros [= <-]. exists []. by rewrite app_nil_r.
  - destruct (step JSON_parse cfg st ev) as [st1|] eqn:E; [|discriminate].
    intros R. destruct (step_inserts _ _ _ E) as [m1 E1].
    destruct (IH _ R) as [m2 E2]. exists (m1 ++ m2).
    by rewrite E2, E1, app_assoc.
Qed.

Lemma push_lines_mapped (now : nat -> Z) (lines : list string) :
  forall (i : nat) (buf : list doc),
    push_lines JSON_parse cfg now i lines buf
    = buf ++ mapped JSON_parse cfg now i lines.
Proof.
  induction lines as [|line r IH]; intros i buf; simpl.
  - by rewrite app_nil_r.
  - destruct (pinoToDoc _ _ _ _); rewrite IH; [|reflexivity].
    by rewrite <- app_assoc.
Qed.

Lemma write_below (str : string) (now : nat -> Z) (st : state) :
  let buf := filled JSON_parse cfg str now st in
  length_ge (length buf) (batchSize cfg) = false ->
  write JSON_parse cfg str now st
  = call_cb (scheduleFlush cfg (set_buffer buf st)).
Proof.
  intros buf L. unfold write. simpl. fold (filled JSON_parse cfg str now st).
  fold buf. by rewrite L.
Qed.

Lemma write_reached (str : string) (now : nat -> Z) (st : state) :
  let buf := filled JSON_parse cfg str now st in
  length_ge (length buf) (batchSize cfg) = true ->
  write JSON_parse cfg str now st
  = call_cb (set_flushTimer None
               (clear_pending_timer (flush (set_buffer buf st)))).
Proof.
  intros buf L. unfold write. simpl. fold (filled JSON_parse cfg str now st).
  fold buf. by rewrite L.
Qed.

Lemma clearTimeout_gone (h : nat) (st : state) :
  ~ In h (map fst (timers (clearTimeout h st))).
Proof.
  simpl. intros I. apply in_map_iff in I as [[h' d] [E I]].
  apply filter_In in I as [_ I]. simpl in *. subst h'.
  by rewrite Nat.eqb_refl in I.
Qed.

Lemma one_timer_step (st st' : state) (ev : event) :
  one_timer st -> step JSON_parse cfg st ev = Some st' -> one_timer st'.
Proof.
  intros Inv. destruct ev as [str now|h|id o| |o]; simpl.
  - destruct (closing st) eqn:C; [discriminate|]. intros [= <-].
    destruct (length_ge (length (filled JSON_parse cfg str now st))
                (batchSize cfg)) eqn:L.
    + rewrite write_reached by assumption. left. simpl.
      set (st1 := set_buffer _ st).
      destruct (flush_frame st1) as (FT & TM & _).
      unfold clear_pending_timer. rewrite FT. simpl.
      destruct Inv as [[T _]|(h & d & T & F & _)].
      * destruct (flushTimer st); simpl; rewrite TM; simpl; rewrite T; auto.
      * rewrite F. simpl. rewrite TM. simpl. rewrite T. simpl.
        rewrite Nat.eqb_refl. auto.
    + rewrite write_below by assumption.
      destruct Inv as [[T [F|F]]|(h & d & T & F & _)]; [|congruence|].
      * right. unfold scheduleFlush. simpl. rewrite F. simpl. rewrite T.
        eauto.
      * right. unfold scheduleFlush. simpl. rewrite F. simpl. eauto.
  - destruct (mem_nat h (map fst (timers st))) eqn:M; [|discriminate].
    intros [= <-]. left. unfold timer_callback.
    destruct (flush_frame (set_flushTimer None (clearTimeout h st)))
      as (FT & TM & _).
    rewrite FT, TM. simpl.
    destruct Inv as [[T _]|(h' & d & T & F & _)].
    + rewrite T in M. discriminate.
    + rewrite T in *. simpl in M. rewrite orb_false_r in M.
      apply Nat.eqb_eq in M. subst h'. simpl. rewrite Nat.eqb_refl. auto.
  - destruct (mem_nat _ _); [|discriminate]. intros [= <-]. exact Inv.
  - destruct (closing st) eqn:C; [discriminate|]. intros [= <-]. left.
    unfold final. simpl.
    destruct (flush_frame (clear_pending_timer st)) as (_ & TM & _).
    rewrite TM. unfold clear_pending_timer. split; [|auto].
    destruct Inv as [[T _]|(h & d & T & F & _)].
    + destruct (flushTimer st); simpl; rewrite T; reflexivity.
    + rewrite F. simpl. rewrite T. simpl. by rewrite Nat.eqb_refl.
  - destruct (closing st), (final_cb st); try discriminate.
    intros [= <-]. exact Inv.
Qed.


Lemma one_timer_initial : one_timer initial.
Proof. left. simpl. auto. Qed.


Lemma mapped_dropped (now : nat -> Z) (lines : list string) :
  forall i : nat,
    length (mapped JSON_parse cfg now i lines)
    + dropped JSON_parse cfg now i lines = length lines.
Proof.
  induction lines as [|line r IH]; intros i; simpl; [reflexivity|].
  destruct (pinoToDoc _ _ _ _); simpl; rewrite <- (IH (S i)); lia.
Qed.

(** C3. flush() on an empty buffer changes nothing, so it calls the sink
    zero times.  On a non-empty buffer the splice removes every buffered
    record and leaves the buffer empty; insertMany is called once with
    exactly those records in their order; the records of the next chunk
    start from an empty buffer; and whatever happens afterwards that call
    still holds exactly the records it was given. *)
Theorem flush_detaches_snapshot (st : state) :
  (buffer st = [] -> flush st = st) /\
  (buffer st <> [] ->
     splice 0 (length (buffer st)) (buffer st) = (buffer st, []) /\
     buffer (flush st) = [] /\
     inserts (flush st)
       = inserts st ++ [{| docs := buffer st; ordered := false |}] /\
     pending (flush st) = pending st ++ [length (inserts st)] /\
     (forall (str : string) (now : nat -> Z),
        filled JSON_parse cfg str now (flush st)
          = mapped JSON_parse cfg now 0 (lines_of str)) /\
     (forall (evs : list event) (st' : state),
        run JSON_parse cfg (flush st) evs = Some st' ->
        inserts st' !! length (inserts st)
          = Some {| docs := buffer st; ordered := false |})).
Proof.
  split; [apply flush_empty|]. intros NE.
  split; [apply splice_all|].
  rewrite (flush_nonempty st NE). simpl.
  repeat split.
  - intros str now. unfold filled. simpl. by rewrite push_lines_mapped.
  - intros evs st' R. apply run_inserts in R as [more E]. simpl in E.
    rewrite E, <- app_assoc, lookup_app_r by lia.
    by rewrite Nat.sub_diag.
Qed.


(** C1 as the code has it.  final cancels the timer flushTimer names,
    flushes: the buffer is left empty and, when it held records, they are
    handed to one more insertMany that is added to the writes in flight;
    then it calls client.close() and returns without having called its
    callback.  The callback is called when the promise of close settles,
    with the error of close if there is one, and the writes in flight at
    that moment stay in flight. *)
Theorem final_flushes_then_closes (st : state) :
  (forall h, flushTimer st = Some h -> ~ In h (map fst (timers (final st))))
  /\ buffer (final st) = []
  /\ (buffer st = [] ->
      inserts (final st) = inserts st /\ pending (final st) = pending st)
  /\ (buffer st <> [] ->
      inserts (final st)
        = inserts st ++ [{| docs := buffer st; ordered := false |}] /\
      pending (final st) = pending st ++ [length (inserts st)])
  /\ closing (final st) = true
  /\ final_cb (final st) = final_cb st
  /\ (forall (st1 : state) (o : option error),
        closing st1 = true -> final_cb st1 = None ->
        exists st2, step JSON_parse cfg st1 (Closed o) = Some st2 /\
                    final_cb st2 = Some o /\ pending st2 = pending st1).
Proof.
  assert (Hc : buffer (clear_pending_timer st) = buffer st
               /\ inserts (clear_pending_timer st) = inserts st
               /\ pending (clear_pending_timer st) = pending st).
  { unfold clear_pending_timer. by destruct (flushTimer st). }
  destruct Hc as (Hb & Hi & Hp).
  destruct (flush_frame (clear_pending_timer st))
    as (FT & TM & _ & _ & _ & _ & FC & B).
  unfold final. simpl. repeat split.
  - intros h F. rewrite TM. unfold clear_pending_timer. rewrite F.
    apply clearTimeout_gone.
  - exact B.
  - rewrite flush_empty by congruence. exact Hi.
  - rewrite flush_empty by congruence. exact Hp.
  - rewrite flush_nonempty by congruence. simpl. by rewrite Hi, Hb.
  - rewrite flush_nonempty by congruence. simpl. by rewrite Hi, Hp.
  - rewrite FC. unfold clear_pending_timer. by destruct (flushTimer st).
  - intros st1 o C F. exists (closed o st1). simpl. by rewrite C, F.
Qed.

(** C2 as the code has it.  When the promise of an insertMany rejects,
    the buffer and the list of insertMany calls are what they were (the
    batch is neither put back nor sent again), the write is no longer in
    flight, the catch handler writes two lines to process.stderr, the
    first with the message of the error and the second with its stack or
    the error itself, and no callback is called. *)
Theorem failed_write_is_dropped_and_reported
  (st : state) (id : nat) (e : error) :
  In id (pending st) ->
  exists st',
    step JSON_parse cfg st (Settle id (Some e)) = Some st' /\
    buffer st' = buffer st /\
    inserts st' = inserts st /\
    ~ In id (pending st') /\
    stderr st' = stderr st ++
      [("[logger-client-node] MongoDB insertMany failed: "
          ++ err_message e ++ newline)%string;
       ("[logger-client-node] Check LOG_MONGODB_URI and network. Full error: "
          ++ stack_or_error e ++ newline)%string] /\
    timers st' = timers st /\
    flushTimer st' = flushTimer st /\
    write_done st' = write_done st /\
    closing st' = closing st /\
    final_cb st' = final_cb st.
Proof.
  intros I. exists (settle id (Some e) st). simpl.
  assert (M : mem_nat id (pending st) = true).
  { apply existsb_exists. exists id. split; [exact I|apply Nat.eqb_refl]. }
  rewrite M. repeat split.
  intros I'. apply filter_In in I' as [_ I'].
  by rewrite Nat.eqb_refl in I'.
Qed.

(** C6 as the code has it.  write never fails and passes no error to its
    callback.  Its loop appends to the buffer the document of every line
    the mapper accepts, in the order of the lines, and skips every line the
    mapper throws on; nothing is written to process.stderr and nothing in
    the state of the stream records how many lines were skipped. *)
Theorem write_skips_rejected_lines
  (st : state) (str : string) (now : nat -> Z) :
  closing st = false ->
  exists st',
    step JSON_parse cfg st (Write str now) = Some st' /\
    filled JSON_parse cfg str now st
      = buffer st ++ mapped JSON_parse cfg now 0 (lines_of str) /\
    length (mapped JSON_parse cfg now 0 (lines_of str))
      + dropped JSON_parse cfg now 0 (lines_of str)
      = length (lines_of str) /\
    ((buffer st' = filled JSON_parse cfg str now st /\
      inserts st' = inserts st)
     \/ (buffer st' = [] /\
         inserts st' = inserts st ++
           match filled JSON_parse cfg str now st with
           | [] => []
           | b => [{| docs := b; ordered := false |}]
           end)) /\
    stderr st' = stderr st /\
    write_done st' = S (write_done st) /\
    closing st' = false /\
    final_cb st' = final_cb st.
Proof.
  intros C. exists (write JSON_parse cfg str now st).
  unfold step. rewrite C.
  split; [reflexivity|].
  split; [apply push_lines_mapped|].
  split; [apply mapped_dropped|].
  set (buf := filled JSON_parse cfg str now st).
  destruct (length_ge (length buf) (batchSize cfg)) eqn:L.
  - rewrite write_reached by exact L. fold buf.
    set (st1 := set_buffer buf st).
    assert (Hc : forall t,
               buffer (clear_pending_timer t) = buffer t
               /\ inserts (clear_pending_timer t) = inserts t
               /\ stderr (clear_pending_timer t) = stderr t
               /\ write_done (clear_pending_timer t) = write_done t
               /\ closing (clear_pending_timer t) = closing t
               /\ final_cb (clear_pending_timer t) = final_cb t).
    { intros t. unfold clear_pending_timer. by destruct (flushTimer t). }
    destruct (Hc (flush st1)) as (E1 & E2 & E3 & E4 & E5 & E6).
    destruct (flush_frame st1) as (_ & _ & _ & SE & WD & CL & FC & B).
    simpl. rewrite E1, E2, E3, E4, E5, E6, B, SE, WD, CL, FC. simpl.
    repeat split; try assumption.
    right. split; [reflexivity|].
    destruct buf as [|d b] eqn:Eb.
    + rewrite flush_empty by reflexivity. simpl. by rewrite app_nil_r.
    + by rewrite flush_nonempty.
  - rewrite write_below by exact L. fold buf.
    unfold scheduleFlush. simpl.
    destruct (flushTimer st) eqn:F; simpl; rewrite ?C; repeat split; auto.
Qed.

Lemma clear_pending_timer_frame (st : state) :
  buffer (clear_pending_timer st) = buffer st /\
  inserts (clear_pending_timer st) = inserts st /\
  pending (clear_pending_timer st) = pending st /\
  stderr (clear_pending_timer st) = stderr st /\
  write_done (clear_pending_timer st) = write_done st /\
  closing (clear_pending_timer st) = closing st /\
  final_cb (clear_pending_timer st) = final_cb st.
Proof.
  unfold clear_pending_timer. by destruct (flushTimer st).
Qed.

(** The callback of final is called only when the promise of
    client.close() settles, and with what it settled with. *)
Lemma final_cb_only_from_close (st st' : state) (ev : event) :
  step JSON_parse cfg st ev = Some st' ->
  final_cb st' <> final_cb st ->
  exists o, ev = Closed o /\ final_cb st' = Some o.
Proof.
  destruct ev as [str now|h|id o| |o]; unfold step.
  - destruct (closing st) eqn:C; [discriminate|]. intros [= <-] N.
    destruct N. unfold write.
    destruct (length_ge _ _); simpl.
    + destruct (clear_pending_timer_frame (flush (set_buffer
        (push_lines JSON_parse cfg now 0 (lines_of str) (buffer st)) st)))
        as (_ & _ & _ & _ & _ & _ & ->).
      by destruct (flush_frame (set_buffer
        (push_lines JSON_parse cfg now 0 (lines_of str) (buffer st)) st))
        as (_ & _ & _ & _ & _ & _ & -> & _).
    + unfold scheduleFlush. simpl. by destruct (flushTimer st).
  - destruct (mem_nat _ _); [|discriminate]. intros [= <-] N. destruct N.
    unfold timer_callback.
    by destruct (flush_frame (set_flushTimer None (clearTimeout h st)))
      as (_ & _ & _ & _ & _ & _ & -> & _).
  - destruct (mem_nat _ _); [|discriminate]. by intros [= <-] N.
  - destruct (closing st); [discriminate|]. intros [= <-] N. destruct N.
    unfold final. simpl.
    destruct (flush_frame (clear_pending_timer st))
      as (_ & _ & _ & _ & _ & _ & -> & _).
    apply clear_pending_timer_frame.
  - destruct (closing st), (final_cb st); try discriminate.
    intros [= <-] _. by exists o.
Qed.

End StreamFacts.

(** *** The stream on concrete inputs *)

Lemma flush_detaches_snapshot_witness :
  flush initial = initial /\
  buffer one_buffered <> [] /\
  buffer (flush one_buffered) = [] /\
  inserts (flush one_buffered)
    = inserts one_buffered ++ [{| docs := buffer one_buffered;
                                  ordered := false |}].
Proof.
  pose proof (flush_detaches_snapshot Json.parse (example_config 50) initial)
    as [E _].
  pose proof (flush_detaches_snapshot Json.parse (example_config 50)
                one_buffered) as [_ H].
  assert (NE : buffer one_buffered <> []) by (vm_compute; discriminate).
  destruct (H NE) as (_ & B & I & _).
  split; [exact (E eq_refl)|]. split; [exact NE|]. split; [exact B|exact I].
Defined.


Lemma final_flushes_then_closes_witness :
  ~ In 0 (map fst (timers (final one_buffered))) /\
  inserts (final one_buffered)
    = inserts one_buffered ++ [{| docs := buffer one_buffered;
                                  ordered := false |}] /\
  pending (final one_buffered) = pending one_buffered ++ [0] /\
  inserts (final initial) = inserts initial /\
  exists st2,
    step Json.parse (example_config 50) (final one_buffered) (Closed None)
      = Some st2
    /\ final_cb st2 = Some None
    /\ pending st2 = pending (final one_buffered).
Proof.
  pose proof (final_flushes_then_closes Json.parse (example_config 50)
                one_buffered) as (T & _ & _ & NE & _ & _ & C).
  pose proof (final_flushes_then_closes Json.parse (example_config 50)
                initial) as (_ & _ & E & _).
  assert (N : buffer one_buffered <> []) by (vm_compute; discriminate).
  destruct (NE N) as [I P].
  split; [exact (T 0 eq_refl)|]. split; [exact I|]. split; [exact P|].
  split; [exact (proj1 (E eq_refl))|].
  exact (C (final one_buffered) None eq_refl eq_refl).
Defined.

(** C1 fails as stated.  One record is written, final is called, and the
    promise of client.close() resolves while the promise of the final
    insertMany is still pending: the callback of final has been called and
    the write is still in flight. *)
Lemma final_callback_before_write_settles :
  exists st,
    run Json.parse (example_config 50) initial
      [Write "{}" at_noon; Final; Closed None] = Some st /\
    final_cb st = Some None /\
    pending st = [0] /\
    length (inserts st) = 1.
Proof.
  eexists. split; [reflexivity|]. repeat split.
Qed.

Lemma failed_write_is_dropped_and_reported_witness :
  In 0 (pending one_in_flight) /\
  exists st',
    step Json.parse (example_config 1) one_in_flight (Settle 0 (Some boom))
      = Some st' /\
    buffer st' = buffer one_in_flight /\
    inserts st' = inserts one_in_flight /\
    ~ In 0 (pending st') /\
    length (stderr st') = 2.
Proof.
  assert (I : In 0 (pending one_in_flight)) by (left; reflexivity).
  split; [exact I|].
  destruct (failed_write_is_dropped_and_reported Json.parse (example_config 1)
              one_in_flight 0 boom I)
    as (st' & E & B & N & P & S & _).
  exists st'. repeat split; try assumption.
  rewrite S. reflexivity.
Defined.

(** C2 fails as stated.  A batch of three records is rejected: two lines
    are written to process.stderr, not one, and neither holds the number
    of records; a rejected batch of one record gives the same two lines. *)
Lemma failed_batch_reports_twice_without_count :
  exists st3 st1,
    run Json.parse (example_config 3) initial
      [Write three_records at_noon; Settle 0 (Some boom)] = Some st3 /\
    run Json.parse (example_config 1) initial
      [Write "{}" at_noon; Settle 0 (Some boom)] = Some st1 /\
    map (fun c => length (docs c)) (inserts st3) = [3] /\
    map (fun c => length (docs c)) (inserts st1) = [1] /\
    stderr st3 =
      [("[logger-client-node] MongoDB insertMany failed: connection refused"
          ++ newline)%string;
       ("[logger-client-node] Check LOG_MONGODB_URI and network. "
          ++ "Full error: MongoNetworkError: connection refused"
          ++ newline)%string] /\
    stderr st1 = stderr st3 /\
    ~ (exists m, stderr st3 = [m]).
Proof.
  eexists; eexists.
  split; [reflexivity|]. split; [reflexivity|].
  repeat split. intros [m E]. discriminate E.
Qed.

Lemma write_skips_rejected_lines_witness :
  closing initial = false /\
  exists st',
    step Json.parse (example_config 50) initial (Write bad_then_good at_noon)
      = Some st' /\
    length (lines_of bad_then_good) = 2 /\
    length (mapped Json.parse (example_config 50) at_noon 0
              (lines_of bad_then_good)) = 1 /\
    dropped Json.parse (example_config 50) at_noon 0 (lines_of bad_then_good)
      = 1 /\
    stderr st' = [] /\
    write_done st' = 1 /\
    final_cb st' = None.
Proof.
  split; [reflexivity|].
  destruct (write_skips_rejected_lines Json.parse (example_config 50) initial
              bad_then_good at_noon eq_refl)
    as (st' & E & _ & _ & _ & S & W & _ & F).
  exists st'. split; [exact E|].
  split; [reflexivity|]. split; [reflexivity|]. split; [reflexivity|].
  split; [exact S|]. split; [exact W|exact F].
Defined.

(** C6 fails as stated.  A chunk whose only line is not JSON leaves the
    stream in the very state an empty chunk leaves it in, so no function of
    the state of the stream counts the lines that were dropped. *)
Lemma no_drop_counter :
  write Json.parse (example_config 50) "oops" at_noon initial
    = write Json.parse (example_config 50) "" at_noon initial /\
  dropped Json.parse (example_config 50) at_noon 0 (lines_of "oops") = 1 /\
  dropped Json.parse (example_config 50) at_noon 0 (lines_of "") = 0 /\
  ~ (exists count : state -> nat,
       forall (st : state) (str : string) (now : nat -> Z),
         count (write Json.parse (example_config 50) str now st)
         = count st
           + dropped Json.parse (example_config 50) now 0 (lines_of str)).
Proof.
  assert (E : write Json.parse (example_config 50) "oops" at_noon initial
              = write Json.parse (example_config 50) "" at_noon initial)
    by reflexivity.
  split; [exact E|]. split; [reflexivity|]. split; [reflexivity|].
  intros [count H].
  pose proof (H initial "oops" at_noon) as H1.
  pose proof (H initial "" at_noon) as H0.
  rewrite E in H1. rewrite H0 in H1.
  change (dropped Json.parse (example_config 50) at_noon 0 (lines_of "oops"))
    with 1 in H1.
  change (dropped Json.parse (example_config 50) at_noon 0 (lines_of ""))
    with 0 in H1.
  lia.
Qed.

(** ** buildTransport *)






(** C7 as the code has it.  With no uri option and neither
    LOG_MONGODB_URI nor MONGODB_URI set, buildTransport rejects with the
    configuration error before any call on the MongoDB client.  Every
    other rejection of buildTransport is the error new MongoClient threw or
    client.connect() rejected with.  On the stream, the callback of final
    is called only when the promise of client.close() settles, and with
    the error of close when it rejects; no other event reaches it. *)
Theorem missing_uri_rejects_before_any_client_call
  (e : env) (mongo : client) (opts : option options) :
  (opt_uri (default no_options opts) = None ->
   e "LOG_MONGODB_URI" = None -> e "MONGODB_URI" = None ->
   buildTransport e mongo opts
     = Rejected (ConfigurationError uri_required) []) /\
  (forall f calls,
     buildTransport e mongo opts = Rejected f calls ->
     (f = ConfigurationError uri_required /\ calls = [])
     \/ (exists u err,
           f = ClientError err /\
           ((construct mongo u = Some err /\ calls = [NewClient u])
            \/ (construct mongo u = None /\ connect mongo u = Some err
                /\ calls = [NewClient u; Connect])))) /\
  (forall JSON_parse cfg (st st' : state) (ev : event),
     step JSON_parse cfg st ev = Some st' ->
     final_cb st' <> final_cb st ->
     exists o, ev = Closed o /\ final_cb st' = Some o) /\
  (forall JSON_parse cfg (st : state) (err : error),
     closing st = true -> final_cb st = None ->
     exists st', step JSON_parse cfg st (Closed (Some err)) = Some st' /\
                 final_cb st' = Some (Some err)).
Proof.
  split; [|split; [|split]].
  - intros U E1 E2. unfold buildTransport. by rewrite U, E1, E2.
  - intros f calls. unfold buildTransport.
    destruct (str_or _ None) as [u|]; [|intros [= <- <-]; by left].
    destruct (construct mongo u) as [err|] eqn:C.
    { intros [= <- <-]. right. exists u, err. auto. }
    destruct (connect mongo u) as [err|] eqn:K.
    { intros [= <- <-]. right. exists u, err. auto. }
    by destruct (str_or _ None).
  - intros JSON_parse cfg st st' ev. apply final_cb_only_from_close.
  - intros JSON_parse cfg st err C F.
    exists (closed (Some err) st). simpl. by rewrite C, F.
Qed.

(** *** buildTransport on concrete inputs *)



Lemma missing_uri_rejects_before_any_client_call_witness :
  buildTransport no_env reachable_mongo None
  = Rejected (ConfigurationError uri_required) [].
Proof.
  exact (proj1 (missing_uri_rejects_before_any_client_call no_env
                  reachable_mongo None) eq_refl eq_refl eq_refl).
Defined.

(** C7 fails as stated.  With a sink address given, a rejection of
    client.connect() rejects buildTransport with the error of the driver,
    which is not the configuration error; and a rejection of client.close()
    is passed to the callback of final. *)
Lemma connect_error_reaches_caller :
  buildTransport no_env unreachable_mongo
    (Some (options_with_uri "mongodb://logs.example/central"))
  = Rejected (ClientError boom)
      [NewClient "mongodb://logs.example/central"; Connect]
  /\ exists st,
       run Json.parse (example_config 50) initial [Final; Closed (Some boom)]
         = Some st
       /\ final_cb st = Some (Some boom).
Proof.
  split; [reflexivity|]. eexists. split; reflexivity.
Qed.

(** ** The record mapper *)

Section MapperFacts.

Variable JSON_parse : string -> option json.

Lemma get_prop_filter_out {A : Type} (k : string) (p : string * A -> bool)
  (l : props A) :
  (forall v, p (k, v) = false) -> get_prop k (List.filter p l) = None.
Proof.
  intros H. induction l as [|[k' v] r IH]; simpl; [reflexivity|].
  destruct (p (k', v)) eqn:P; [|exact IH]. simpl.
  destruct (String.eqb_spec k k') as [->|_]; [|exact IH].
  by rewrite H in P.
Qed.

(** The rest pattern leaves out the names the pattern takes. *)
Lemma rest_has_no_named (obj : json) (k : string) :
  mem k named = true -> get_prop k (rest_of obj) = None.
Proof.
  intros M. apply get_prop_filter_out. intros v.
  change (negb (mem k named) = false). by rewrite M.
Qed.

Lemma level_map_names (key s : string) :
  get_prop key LEVEL_MAP = Some s -> mem s level_names = true.
Proof.
  unfold LEVEL_MAP. simpl.
  repeat (destruct (String.eqb key _); [by intros [= <-]|]).
  discriminate.
Qed.

Lemma level_name_is_level (level : option json) (lvl : field) :
  level_name level = Ok lvl ->
  forall key, property_key level = Ok key ->
              mem key Object_prototype = false -> is_level lvl = true.
Proof.
  unfold level_name. intros H key K M. rewrite K in H. simpl in H.
  injection H as <-. unfold LEVEL_MAP_get. rewrite M.
  destruct (get_prop key LEVEL_MAP) as [s|] eqn:G; [|reflexivity].
  apply level_map_names in G. simpl.
  destruct (String.eqb_spec s ""); [by subst s|]. exact G.
Qed.

(** The property key of a number is no name that LEVEL_MAP inherits. *)
Lemma all_digits_uint (u : Decimal.uint) :
  all_digits (NilEmpty.string_of_uint u) = true.
Proof. induction u; simpl; auto. Qed.

Lemma all_digits_digits (z : Z) : all_digits (digits z) = true.
Proof.
  unfold digits, NilZero.string_of_uint.
  destruct (N.to_uint (Z.to_N z)) eqn:E; try reflexivity;
    rewrite <- E; apply all_digits_uint.
Qed.

Lemma all_digits_strip (d : string) :
  all_digits d = true -> all_digits (strip_zeros d) = true.
Proof.
  induction d as [|c r IH]; simpl; [reflexivity|].
  intros H. apply andb_true_iff in H as [Hc Hr]. specialize (IH Hr).
  destruct (strip_zeros r); simpl.
  - destruct (Ascii.eqb c "0"); simpl; [reflexivity|]. by rewrite Hc.
  - rewrite Hc. exact IH.
Qed.

Lemma all_digits_substring (d : string) :
  all_digits d = true ->
  forall i n, all_digits (String.substring i n d) = true.
Proof.
  induction d as [|c r IH]; intros H i n.
  - destruct i, n; reflexivity.
  - simpl in H. apply andb_true_iff in H as [Hc Hr].
    destruct i; simpl.
    + destruct n; simpl; [reflexivity|]. rewrite Hc. apply IH. exact Hr.
    + apply IH. exact Hr.
Qed.

Lemma numeric_head_app (a b : string) :
  all_digits a = true -> numeric_head b = true -> numeric_head (a ++ b) = true.
Proof.
  destruct a as [|c r]; simpl; [auto|].
  intros H _. apply andb_true_iff in H as [-> _]. reflexivity.
Qed.

Lemma numeric_head_zeros (n : nat) (b : string) :
  numeric_head b = true -> numeric_head (zeros n ++ b) = true.
Proof. destruct n; simpl; auto. Qed.

Lemma numeric_head_append (s t : string) :
  numeric_head s = true -> (s = "" -> numeric_head t = true) ->
  numeric_head (s ++ t) = true.
Proof. destruct s; simpl; auto. Qed.

Lemma numeric_head_positive (m : Z) (s : N) :
  numeric_head (positive_toString m s) = true.
Proof.
  unfold positive_toString.
  pose proof (all_digits_strip _ (all_digits_digits m)) as D.
  set (d := strip_zeros (digits m)) in *.
  assert (S : forall i n, all_digits (String.substring i n d) = true)
    by (by apply all_digits_substring).
  repeat match goal with |- context [if ?b then _ else _] => destruct b end.
  - apply numeric_head_app; [exact D|]. by destruct (Z.to_nat _).
  - by apply numeric_head_app.
  - reflexivity.
  - by apply numeric_head_app.
  - by apply numeric_head_app.
  - apply numeric_head_append; [by apply numeric_head_app|].
    by destruct (String.substring 0 1 d).
  - apply numeric_head_append; [by apply numeric_head_app|].
    by destruct (String.substring 0 1 d).
Qed.

Lemma numeric_head_number (n : number) :
  numeric_head (number_toString n) = true.
Proof.
  destruct n as [|m s]; [reflexivity|]. simpl.
  destruct (m =? 0)%Z; [reflexivity|].
  destruct (m <? 0)%Z; [reflexivity|apply numeric_head_positive].
Qed.

Lemma numeric_head_not_inherited (key : string) :
  numeric_head key = true -> mem key Object_prototype = false.
Proof.
  destruct key as [|c r]; [reflexivity|].
  destruct c as [[] [] [] [] [] [] [] []]; try discriminate; reflexivity.
Qed.

Lemma not_null_record {A : Type} (obj : json) (body : res A) (a : A) :
  match obj with
  | JNull => Throw TypeError
  | _ => body
  end = Ok a ->
  obj <> JNull /\ body = Ok a.
Proof. by destruct obj. Qed.

(** The cases of the optional assignments. *)
Ltac optional_fields H :=
  repeat match type of H with
    | context [set_string ?k ?x ?d] =>
        let v := fresh "v" in
        let s := fresh "s" in
        unfold set_string in H at 1;
        destruct (non_null x) as [v|]; simpl in H;
        [destruct (String_ v) as [s|]; simpl in H; [|discriminate]|]
    | context [set_object ?k ?x ?d] =>
        let v := fresh "v" in
        let O := fresh "O" in
        change (set_object k x d)
          with (match non_null x with
                | Some v => if is_object v then set_prop k (FJson v) d else d
                | None => d
                end) in H;
        destruct (non_null x) as [v|];
        [destruct (is_object v) eqn:O|]
    | context [set_meta ?r ?d] =>
        change (set_meta r d)
          with (if (0 <? length (keys r))%nat
                then set_prop "meta" (FJson (JObj r)) d else d) in H;
        destruct (0 <? length (keys r))%nat
    end.

(** C8 as the code has it.  Every document the mapper returns starts with
    level, message, service, source, storage, storageTags and timestamp;
    service is the service name, source is "logger-client-node", storage is
    "mongodb", storageTags is ["mongodb"] and timestamp is a date.  It has
    no field besides these seven and reqId, userId, endpoint, request,
    response and meta; reqId, userId and endpoint are strings and request,
    response and meta are objects where they appear.  level is one of the
    six names whenever the level of the record is not the name of a
    property that LEVEL_MAP inherits, so whenever it is absent or a number;
    message is the msg of the record when that is a string and the empty
    string when msg is absent or null. *)
Theorem document_fields_of_mapper
  (now : Z) (line : json) (service : string) (d : doc) :
  pinoToDoc JSON_parse now line service = Ok d ->
  exists (obj : json) (lvl : field) (msg : json) (ts : date),
    record_of JSON_parse line = Ok obj /\
    firstn 7 d =
      [("level", lvl);
       ("message", FJson msg);
       ("service", FJson (JStr service));
       ("source", FJson (JStr "logger-client-node"));
       ("storage", FJson (JStr "mongodb"));
       ("storageTags", FJson (JArr [JStr "mongodb"]));
       ("timestamp", FDate ts)] /\
    (forall key, property_key (get obj "level") = Ok key ->
                 mem key Object_prototype = false -> is_level lvl = true) /\
    (get obj "level" = None \/ (exists n, get obj "level" = Some (JNum n)) ->
     is_level lvl = true) /\
    (non_null (get obj "msg") = None -> msg = JStr "") /\
    (forall s, get obj "msg" = Some (JStr s) -> msg = JStr s) /\
    forallb (fun k => mem k document_fields) (keys d) = true /\
    optional is_string "reqId" d = true /\
    optional is_string "userId" d = true /\
    optional is_string "endpoint" d = true /\
    optional is_object_field "request" d = true /\
    optional is_object_field "response" d = true /\
    optional is_object_field "meta" d = true.
Proof.
  unfold pinoToDoc. intros H.
  destruct (record_of JSON_parse line) as [obj|] eqn:R; simpl in H;
    [|discriminate].
  apply not_null_record in H as [_ H].
  rewrite (rest_has_no_named obj "msg") in H by reflexivity.
  destruct (level_name (get obj "level")) as [lvl|] eqn:L; simpl in H;
    [|discriminate].
  pose proof (level_name_is_level _ _ L) as HL.
  assert (HN : get obj "level" = None
               \/ (exists n, get obj "level" = Some (JNum n)) ->
               is_level lvl = true).
  { intros [E|[n E]]; rewrite E in HL.
    - by apply (HL "undefined").
    - apply (HL (number_toString n)); [reflexivity|].
      apply numeric_head_not_inherited, numeric_head_number. }
  set (msg := match non_null (get obj "msg") with
              | Some m => m
              | None => JStr ""
              end) in H.
  assert (M1 : non_null (get obj "msg") = None -> msg = JStr "").
  { subst msg. by intros ->. }
  assert (M2 : forall s, get obj "msg" = Some (JStr s) -> msg = JStr s).
  { subst msg. by intros s ->. }
  clearbody msg.
  destruct (match non_null (get obj "time") with
            | Some t => new_Date t
            | None => Ok (DateNow now)
            end) as [ts|]; simpl in H; [|discriminate].
  exists obj, lvl, msg, ts.
  optional_fields H.
  all: simpl in H; injection H as <-.
  all: repeat split; try assumption; try reflexivity.
  all: unfold optional; simpl; assumption.
Qed.

Lemma with_clock_keys (now : Z) (d : doc) : keys (with_clock now d) = keys d.
Proof.
  unfold keys, with_clock. rewrite map_map. by apply map_ext.
Qed.

Lemma with_clock_other (now : Z) (k : string) (d : doc) :
  k <> "timestamp" -> get_prop k (with_clock now d) = get_prop k d.
Proof.
  intros N. induction d as [|[k' f] r IH]; simpl; [reflexivity|].
  destruct (String.eqb_spec k k') as [->|_]; [|exact IH].
  destruct (String.eqb_spec k' "timestamp"); [contradiction|reflexivity].
Qed.

(** The clock enters the document only as the timestamp of a record
    without a time. *)
Lemma pinoToDoc_clock (now1 now2 : Z) (line : json) (service : string) :
  pinoToDoc JSON_parse now2 line service =
    match pinoToDoc JSON_parse now1 line service with
    | Ok d => Ok (with_clock now2 d)
    | Throw e => Throw e
    end.
Proof.
  unfold pinoToDoc, set_string, set_object, set_meta, new_Date.
  destruct (record_of JSON_parse line) as [obj|]; simpl; [|reflexivity].
  destruct obj; try reflexivity.
  all: repeat
         (simpl;
          match goal with
          | |- context [level_name ?l] => destruct (level_name l)
          | |- context [non_null ?x] => destruct (non_null x)
          | |- context [String_ ?v] => destruct (String_ v)
          | |- context [is_object ?v] => destruct (is_object v)
          | |- context [(0 <? length ?l)%nat] => destruct (0 <? length l)%nat
          end).
  all: reflexivity.
Qed.

(** C9 as the code has it.  The mapper reads the clock only for a record
    without a time (absent or null): when the record has a time, calls at
    different moments return the same result; otherwise they throw the same
    error or return documents with the same fields in the same order that
    agree on every field but timestamp, which is the moment of the call. *)
Theorem mapper_reads_clock_only_without_time
  (now1 now2 : Z) (line : json) (service : string) :
  ((forall obj, record_of JSON_parse line = Ok obj ->
                non_null (get obj "time") <> None) ->
   pinoToDoc JSON_parse now1 line service
     = pinoToDoc JSON_parse now2 line service) /\
  (forall e, pinoToDoc JSON_parse now1 line service = Throw e ->
             pinoToDoc JSON_parse now2 line service = Throw e) /\
  (forall d1, pinoToDoc JSON_parse now1 line service = Ok d1 ->
     exists d2,
       pinoToDoc JSON_parse now2 line service = Ok d2 /\
       keys d2 = keys d1 /\
       (forall k, k <> "timestamp" -> get_prop k d2 = get_prop k d1) /\
       (forall obj, record_of JSON_parse line = Ok obj ->
                    non_null (get obj "time") = None ->
                    get_prop "timestamp" d1 = Some (FDate (DateNow now1)) /\
                    get_prop "timestamp" d2 = Some (FDate (DateNow now2)))).
Proof.
  split; [|split].
  - intros T. unfold pinoToDoc.
    destruct (record_of JSON_parse line) as [obj|]; simpl; [|reflexivity].
    specialize (T obj eq_refl).
    destruct (non_null (get obj "time")) as [t|] eqn:E; [|contradiction].
    destruct obj; try reflexivity; simpl in E; discriminate.
  - intros e H. by rewrite (pinoToDoc_clock now1 now2), H.
  - intros d1 H. exists (with_clock now2 d1).
    split; [by rewrite (pinoToDoc_clock now1 now2), H|].
    split; [apply with_clock_keys|].
    split; [intros k N; by apply with_clock_other|].
    intros obj R T. revert H. unfold pinoToDoc. rewrite R. simpl.
    intros H. apply not_null_record in H as [_ H]. rewrite T in H.
    destruct (level_name _) as [lvl|]; simpl in H; [|discriminate].
    optional_fields H.
    all: simpl in H; injection H as <-.
    all: split; reflexivity.
Qed.

End MapperFacts.

(** *** The mapper on concrete inputs *)

Lemma document_fields_of_mapper_witness :
  exists d,
    pinoToDoc Json.parse 0 (JStr full_record) "gym" = Ok d /\
    keys d = document_fields /\
    get_prop "level" d = Some (FJson (JStr "error")) /\
    get_prop "message" d = Some (FJson (JStr "POST /coach 500 12ms")) /\
    get_prop "userId" d = Some (FJson (JStr "42")) /\
    optional is_object_field "meta" d = true.
Proof.
  destruct (pinoToDoc Json.parse 0 (JStr full_record) "gym") as [d|e] eqn:E;
    [|discriminate E].
  exists d. split; [reflexivity|].
  destruct (document_fields_of_mapper Json.parse 0 (JStr full_record) "gym" d E)
    as (obj & lvl & msg & ts & _ & _ & _ & _ & _ & _ & _ & _ & _ & _ & _ & _
        & M).
  injection E as <-.
  split; [reflexivity|]. split; [reflexivity|]. split; [reflexivity|].
  split; [reflexivity|]. exact M.
Defined.

(** C8 fails as stated.  The document of the record {"msg":5} has the
    fields source, storage and storageTags, which the schema does not
    list, and its message is the number 5, not a string. *)
Lemma numeric_msg_document_outside_schema :
  pinoToDoc Json.parse 0 (JStr (Json.js "{'msg':5}")) "gym"
  = Ok [("level", FJson (JStr "info"));
        ("message", FJson (JNum (int 5)));
        ("service", FJson (JStr "gym"));
        ("source", FJson (JStr "logger-client-node"));
        ("storage", FJson (JStr "mongodb"));
        ("storageTags", FJson (JArr [JStr "mongodb"]));
        ("timestamp", FDate (DateNow 0))]
  /\ conforms_to_storage_schema
       [("level", FJson (JStr "info"));
        ("message", FJson (JNum (int 5)));
        ("service", FJson (JStr "gym"));
        ("source", FJson (JStr "logger-client-node"));
        ("storage", FJson (JStr "mongodb"));
        ("storageTags", FJson (JArr [JStr "mongodb"]));
        ("timestamp", FDate (DateNow 0))] = false
  /\ is_string (FJson (JNum (int 5))) = false
  /\ mem "source" schema_fields = false
  /\ mem "storage" schema_fields = false
  /\ mem "storageTags" schema_fields = false.
Proof. repeat split. Qed.

Lemma mapper_reads_clock_only_without_time_witness :
  pinoToDoc Json.parse 1 (JStr (Json.js "{'time':5}")) "gym"
  = pinoToDoc Json.parse 2 (JStr (Json.js "{'time':5}")) "gym"
  /\ exists d2,
       pinoToDoc Json.parse 2 (JStr "{}") "gym" = Ok d2 /\
       get_prop "level" d2 = Some (FJson (JStr "info")) /\
       get_prop "timestamp" d2 = Some (FDate (DateNow 2)).
Proof.
  split.
  - apply (proj1 (mapper_reads_clock_only_without_time Json.parse 1 2
                    (JStr (Json.js "{'time':5}")) "gym")).
    intros obj E. injection E as <-. discriminate.
  - destruct (pinoToDoc Json.parse 1 (JStr "{}") "gym") as [d1|e] eqn:E;
      [|discriminate E].
    destruct (proj2 (proj2 (mapper_reads_clock_only_without_time Json.parse
                              1 2 (JStr "{}") "gym")) d1 E)
      as (d2 & E2 & _ & K & T).
    exists d2. split; [exact E2|]. split.
    + rewrite K by discriminate. injection E as <-. reflexivity.
    + exact (proj2 (T (JObj []) eq_refl eq_refl)).
Defined.

(** C9 fails as stated.  The same record and service name mapped when the
    clock reads 1 and when it reads 2 give two different documents. *)
Lemma mapper_result_changes_with_clock :
  pinoToDoc Json.parse 1 (JStr "{}") "gym"
  <> pinoToDoc Json.parse 2 (JStr "{}") "gym".
Proof. intros E. discriminate E. Qed.

(** ** wrapForNest *)

Section NestFacts.

Import Nest.

Variable host :
  nat -> value -> list value -> list object -> res (value * list object).

Lemma assign_last (h : list object) (o : object) (k : string) (v : value) :
  assign (length h) k v (h ++ [o])
  = h ++ [{| proto := proto o; own := <[k := v]> (own o) |}].
Proof.
  unfold assign.
  rewrite list_lookup_middle by reflexivity.
  rewrite insert_app_r_alt by lia. by rewrite Nat.sub_diag.
Qed.

(** The heap and the object wrapForNest leaves when it wraps. *)
Lemma wrapForNest_fresh
  (logger : value) (h : list object) (w : value) (h' : list object) :
  (forall log verbose,
     get h logger "log" = Ok log -> get h logger "verbose" = Ok verbose ->
     truthy log && truthy verbose = false) ->
  wrapForNest logger h = Ok (w, h') ->
  exists (r : nat) (c : func),
    logger = VRef r /\ w = VRef (length h) /\
    h' = h ++ [{| proto := Some r;
                  own := <["child" := VFun (FChild (FBound c logger))]>
                           (<["verbose" := VFun (FVerbose logger)]>
                              (<["log" := VFun (FLog logger)]> ∅)) |}].
Proof.
  intros F. unfold wrapForNest.
  destruct (get h logger "log") as [log|] eqn:G1; simpl; [|discriminate].
  destruct (get h logger "verbose") as [verbose|] eqn:G2; simpl;
    [|discriminate].
  rewrite (F log verbose eq_refl eq_refl).
  destruct logger as [| | | | |r|]; try discriminate.
  unfold Object_create. cbv zeta. rewrite !assign_last. cbn [proto own].
  destruct (get _ (VRef r) "child") as [child|]; [|discriminate].
  cbn [res_bind]. destruct child as [| | | | | |c]; try discriminate.
  rewrite assign_last. cbn [proto own]. intros [= <- <-]. by exists r, c.
Qed.

Lemma own_of_wrapped (logger : value) (c : func) (k : string) :
  (<["child" := VFun (FChild (FBound c logger))]>
     (<["verbose" := VFun (FVerbose logger)]>
        (<["log" := VFun (FLog logger)]> (∅ : gmap string value)))) !! k
  = if String.eqb k "child" then Some (VFun (FChild (FBound c logger)))
    else if String.eqb k "verbose" then Some (VFun (FVerbose logger))
    else if String.eqb k "log" then Some (VFun (FLog logger))
    else None.
Proof.
  destruct (String.eqb_spec k "child") as [->|N1];
    [by rewrite lookup_insert_eq|].
  rewrite lookup_insert_ne by congruence.
  destruct (String.eqb_spec k "verbose") as [->|N2];
    [by rewrite lookup_insert_eq|].
  rewrite lookup_insert_ne by congruence.
  destruct (String.eqb_spec k "log") as [->|N3];
    [by rewrite lookup_insert_eq|].
  by rewrite lookup_insert_ne by congruence.
Qed.

(** A property of the object just made by wrapForNest: its own, or that
    of the logger it wraps. *)
Lemma get_wrapped (h : list object) (r : nat) (c : func) (k : string) :
  let o := {| proto := Some r;
              own := <["child" := VFun (FChild (FBound c (VRef r)))]>
                       (<["verbose" := VFun (FVerbose (VRef r))]>
                          (<["log" := VFun (FLog (VRef r))]> ∅)) |} in
  get (h ++ [o]) (VRef (length h)) k =
    Ok (if String.eqb k "child" then VFun (FChild (FBound c (VRef r)))
        else if String.eqb k "verbose" then VFun (FVerbose (VRef r))
        else if String.eqb k "log" then VFun (FLog (VRef r))
        else lookup (length (h ++ [o])) (h ++ [o]) r k).
Proof.
  intros o. unfold get. f_equal.
  change (lookup (S ?n) ?h ?r ?k)
    with (match h !! r with
          | None => VUndefined
          | Some o =>
              match own o !! k with
              | Some v => v
              | None => match proto o with
                        | Some p => lookup n h p k
                        | None => VUndefined
                        end
              end
          end).
  rewrite list_lookup_middle by reflexivity.
  subst o. cbn [own proto]. rewrite own_of_wrapped.
  by repeat destruct (String.eqb k _).
Qed.

Lemma lookup_fuel (h : list object) (k : string) :
  older_prototypes h ->
  forall (f1 r f2 : nat),
    r < f1 -> r < f2 -> lookup f1 h r k = lookup f2 h r k.
Proof.
  intros W. induction f1 as [|f1 IH]; intros r f2 L1 L2; [lia|].
  destruct f2 as [|f2]; [lia|]. simpl.
  destruct (h !! r) as [o|] eqn:E; [|reflexivity].
  destruct (own o !! k); [reflexivity|].
  destruct (proto o) as [p|] eqn:P; [|reflexivity].
  specialize (W r p o E P). apply IH; lia.
Qed.

Lemma older_prototypes_alloc
  (h : list object) (r : nat) (m : gmap string value) :
  older_prototypes h -> r < length h ->
  older_prototypes (h ++ [{| proto := Some r; own := m |}]).
Proof.
  intros W L i p o E P.
  destruct (Nat.lt_ge_cases i (length h)) as [Li|Li].
  - rewrite lookup_app_l in E by exact Li. eauto.
  - rewrite lookup_app_r in E by exact Li.
    destruct (i - length h) as [|j] eqn:D; simpl in E; [|discriminate].
    injection E as <-. simpl in P. injection P as <-. lia.
Qed.

(** C10.  wrapForNest returns a logger whose log and verbose are both
    truthy as it is, with nothing allocated or changed; wrapping twice is
    wrapping once, with the same result, the same heap and the same error;
    on a logger it has just wrapped, log(...args) is info.apply(logger,
    args) and verbose(...args) is debug.apply(logger, args), logger being
    the wrapped logger, for all arguments; and info and debug of the
    wrapper are the very functions of the wrapped logger, inherited. *)
Theorem wrapForNest_idempotent_log_is_info (logger : value) (h : list object) :
  (forall log verbose,
     get h logger "log" = Ok log -> get h logger "verbose" = Ok verbose ->
     truthy log && truthy verbose = true ->
     wrapForNest logger h = Ok (logger, h)) /\
  res_bind (wrapForNest logger h) (fun wh => wrapForNest (fst wh) (snd wh))
    = wrapForNest logger h /\
  (forall log verbose w h',
     get h logger "log" = Ok log -> get h logger "verbose" = Ok verbose ->
     truthy log && truthy verbose = false ->
     wrapForNest logger h = Ok (w, h') ->
     (forall (args : list value) (n : nat),
        invoke host (S n) w "log" args h'
          = invoke host n logger "info" args h' /\
        invoke host (S n) w "verbose" args h'
          = invoke host n logger "debug" args h') /\
     (older_prototypes h ->
      (forall r, logger = VRef r -> r < length h) ->
      get h' w "info" = get h' logger "info" /\
      get h' w "debug" = get h' logger "debug")).
Proof.
  split; [|split].
  - intros log verbose G1 G2 T. unfold wrapForNest.
    rewrite G1, G2. simpl. by rewrite T.
  - destruct (wrapForNest logger h) as [[w h']|e] eqn:E; [|reflexivity].
    simpl. revert E. unfold wrapForNest at 1.
    destruct (get h logger "log") as [log|] eqn:G1; simpl; [|discriminate].
    destruct (get h logger "verbose") as [verbose|] eqn:G2; simpl;
      [|discriminate].
    destruct (truthy log && truthy verbose) eqn:T.
    + intros [= <- <-]. unfold wrapForNest. rewrite G1, G2. simpl.
      by rewrite T.
    + intros E.
      assert (E' : wrapForNest logger h = Ok (w, h')).
      { unfold wrapForNest. rewrite G1, G2. simpl. by rewrite T. }
      apply wrapForNest_fresh in E' as (r & c & -> & -> & ->).
      2: { intros l v L V. congruence. }
      unfold wrapForNest. by rewrite !get_wrapped.
  - intros log verbose w h' G1 G2 T E.
    apply wrapForNest_fresh in E as (r & c & -> & -> & ->).
    2: { intros l v L V. congruence. }
    split.
    + intros args n. unfold invoke. rewrite !get_wrapped. simpl.
      split; reflexivity.
    + intros W L. specialize (L r eq_refl).
      rewrite !get_wrapped. unfold get. cbn -[lookup]. split; f_equal.
      all: apply lookup_fuel;
        [by apply older_prototypes_alloc| |];
        rewrite length_app; simpl; lia.
Qed.

End NestFacts.

(** *** wrapForNest on a concrete heap *)

Lemma wrapForNest_idempotent_log_is_info_witness :
  Nest.wrapForNest (Nest.VRef 0) [Nest.library_logger]
    = Ok (Nest.VRef 1, Nest.wrapped_once) /\
  Nest.wrapForNest (Nest.VRef 1) Nest.wrapped_once
    = Ok (Nest.VRef 1, Nest.wrapped_once) /\
  Nest.invoke Nest.echo_host 2 (Nest.VRef 1) "log" [Nest.VStr "started"]
    Nest.wrapped_once
  = Nest.invoke Nest.echo_host 1 (Nest.VRef 0) "info" [Nest.VStr "started"]
      Nest.wrapped_once /\
  Nest.invoke Nest.echo_host 1 (Nest.VRef 0) "info" [Nest.VStr "started"]
    Nest.wrapped_once
  = Some (Ok (Nest.VStr "0:started", Nest.wrapped_once)) /\
  Nest.get Nest.wrapped_once (Nest.VRef 1) "info"
  = Nest.get Nest.wrapped_once (Nest.VRef 0) "info".
Proof.
  assert (E : Nest.wrapForNest (Nest.VRef 0) [Nest.library_logger]
              = Ok (Nest.VRef 1, Nest.wrapped_once)) by reflexivity.
  destruct (wrapForNest_idempotent_log_is_info Nest.echo_host (Nest.VRef 0)
              [Nest.library_logger]) as (_ & I & F).
  rewrite E in I. simpl in I.
  destruct (F Nest.VUndefined Nest.VUndefined (Nest.VRef 1) Nest.wrapped_once
              eq_refl eq_refl eq_refl E) as [L W].
  split; [exact E|]. split; [exact I|].
  split; [exact (proj1 (L [Nest.VStr "started"] 1))|].
  split; [reflexivity|].
  apply W.
  - intros r p o Hr Hp. destruct r as [|r]; simpl in Hr.
    + injection Hr as <-. discriminate Hp.
    + destruct r; discriminate Hr.
  - intros r Hr. injection Hr as <-. simpl. lia.
Defined.

(** ** Invariants of the stream over whole runs *)

(** The cases of one turn of the event loop. *)
Ltac step_cases H st ev :=
  destruct ev as [str now|h|id o| |o]; unfold step in H;
  [ destruct (closing st) eqn:C; [discriminate H|]; injection H as <-
  | destruct (mem_nat h (map fst (timers st))) eqn:M; [|discriminate H];
    injection H as <-
  | destruct (mem_nat id (pending st)) eqn:M; [|discriminate H];
    injection H as <-
  | destruct (closing st) eqn:C; [discriminate H|]; injection H as <-
  | destruct (closing st) eqn:C; [|discriminate H];
    destruct (final_cb st) eqn:F; [discriminate H|]; injection H as <- ].

Section RunFacts.

Variable JSON_parse : string -> option json.
Variable cfg : config.

Lemma write_cases (str : string) (now : nat -> Z) (st : state) :
  let buf := buffer st ++ mapped JSON_parse cfg now 0 (lines_of str) in
  (length_ge (length buf) (batchSize cfg) = true /\
   write JSON_parse cfg str now st
   = call_cb (set_flushTimer None
                (clear_pending_timer (flush (set_buffer buf st)))))
  \/ (length_ge (length buf) (batchSize cfg) = false /\
      write JSON_parse cfg str now st
      = call_cb (scheduleFlush cfg (set_buffer buf st))).
Proof.
  intros buf. subst buf. rewrite <- push_lines_mapped.
  fold (filled JSON_parse cfg str now st).
  destruct (length_ge (length (filled JSON_parse cfg str now st))
              (batchSize cfg)) eqn:L.
  - left. split; [reflexivity|]. by apply write_reached.
  - right. split; [reflexivity|]. by apply write_below.
Qed.

Lemma flush_handed (st : state) :
  handed (flush st) ++ buffer (flush st) = handed st ++ buffer st.
Proof.
  destruct (buffer st) as [|d b] eqn:E.
  - by rewrite flush_empty, E.
  - rewrite flush_nonempty by congruence. unfold handed. simpl.
    rewrite map_app, concat_app. simpl. by rewrite !app_nil_r, E.
Qed.

Lemma clear_pending_timer_handed (st : state) :
  handed (clear_pending_timer st) = handed st.
Proof. unfold clear_pending_timer. by destruct (flushTimer st). Qed.

Lemma step_conserves (st st' : state) (ev : event) :
  step JSON_parse cfg st ev = Some st' ->
  handed st' ++ buffer st'
  = (handed st ++ buffer st) ++ accepted JSON_parse cfg ev.
Proof.
  intros H. step_cases H st ev; simpl accepted; rewrite ?app_nil_r.
  - destruct (write_cases str now st) as [[_ ->]|[_ ->]].
    + change (handed (call_cb ?t)) with (handed t).
      change (buffer (call_cb ?t)) with (buffer t).
      change (handed (set_flushTimer None ?t)) with (handed t).
      change (buffer (set_flushTimer None ?t)) with (buffer t).
      rewrite clear_pending_timer_handed.
      destruct (clear_pending_timer_frame
                  (flush (set_buffer
                            (buffer st
                             ++ mapped JSON_parse cfg now 0 (lines_of str))
                            st))) as (-> & _).
      rewrite flush_handed. unfold handed. simpl. by rewrite app_assoc.
    + unfold scheduleFlush, handed. simpl.
      destruct (flushTimer st); simpl; by rewrite app_assoc.
  - unfold timer_callback. by rewrite flush_handed.
  - reflexivity.
  - unfold final, handed at 1. simpl.
    fold (handed (flush (clear_pending_timer st))).
    rewrite flush_handed, clear_pending_timer_handed.
    by destruct (clear_pending_timer_frame st) as (-> & _).
  - reflexivity.
Qed.

Lemma run_conserves (evs : list event) :
  forall st st' : state,
    run JSON_parse cfg st evs = Some st' ->
    handed st' ++ buffer st'
    = (handed st ++ buffer st) ++ written JSON_parse cfg evs.
Proof.
  induction evs as [|ev evs IH]; simpl; intros st st'.
  - intros [= <-]. by rewrite app_nil_r.
  - destruct (step JSON_parse cfg st ev) as [st1|] eqn:E; [|discriminate].
    intros R. rewrite (IH _ _ R), (step_conserves _ _ _ E).
    by rewrite <- !app_assoc.
Qed.

End RunFacts.

(** ** What a run of the stream keeps *)

Section RunInvariants.

Variable JSON_parse : string -> option json.
Variable cfg : config.

(** What one turn does to the calls of insertMany and to the promises in
    flight: nothing, one more call with the whole non-empty buffer, or one
    promise settled. *)
Lemma flush_calls (st : state) :
  (buffer st = [] /\ inserts (flush st) = inserts st
   /\ pending (flush st) = pending st)
  \/ (buffer st <> []
      /\ inserts (flush st)
         = inserts st ++ [{| docs := buffer st; ordered := false |}]
      /\ pending (flush st) = pending st ++ [length (inserts st)]).
Proof.
  destruct (buffer st) as [|d b] eqn:E.
  - left. by rewrite flush_empty.
  - right. rewrite flush_nonempty by congruence. simpl.
    rewrite E. repeat split. discriminate.
Qed.

Lemma step_calls (st st' : state) (ev : event) :
  step JSON_parse cfg st ev = Some st' ->
  (is_settle ev = false /\ inserts st' = inserts st
   /\ pending st' = pending st)
  \/ (is_settle ev = false /\
      exists b, b <> [] /\
        inserts st' = inserts st ++ [{| docs := b; ordered := false |}] /\
        pending st' = pending st ++ [length (inserts st)])
  \/ (exists id o, ev = Settle id o /\ In id (pending st) /\
        inserts st' = inserts st /\
        pending st'
        = List.filter (fun i => negb (i =? id)%nat) (pending st)).
Proof.
  intros H. step_cases H st ev.
  - destruct (write_cases JSON_parse cfg str now st) as [[_ ->]|[_ ->]].
    + set (st1 := set_buffer _ st).
      change (inserts (call_cb (set_flushTimer None ?t))) with (inserts t).
      change (pending (call_cb (set_flushTimer None ?t))) with (pending t).
      destruct (clear_pending_timer_frame (flush st1))
        as (_ & -> & -> & _).
      destruct (flush_calls st1) as [(_ & -> & ->)|(NE & -> & ->)].
      * left. auto.
      * right. left. split; [reflexivity|]. exists (buffer st1). auto.
    + left. unfold scheduleFlush. simpl. by destruct (flushTimer st).
  - unfold timer_callback.
    destruct (flush_calls (set_flushTimer None (clearTimeout h st)))
      as [(_ & -> & ->)|(NE & -> & ->)].
    + left. auto.
    + right. left. split; [reflexivity|]. eexists. split; [exact NE|]. auto.
  - right. right. exists id, o. split; [reflexivity|].
    split; [|auto]. apply existsb_exists in M as (x & I & E).
    apply Nat.eqb_eq in E. by subst x.
  - unfold final.
    change (inserts {| buffer := _; inserts := ?i |}) with i.
    change (pending {| buffer := _; pending := ?i |}) with i.
    destruct (flush_calls (clear_pending_timer st))
      as [(_ & -> & ->)|(NE & -> & ->)];
      destruct (clear_pending_timer_frame st) as (EB & -> & -> & _).
    + left. auto.
    + right. left. split; [reflexivity|]. eexists. split; [exact NE|]. auto.
  - left. auto.
Qed.




Lemma filter_ne_length (id : nat) (l : list nat) :
  List.NoDup l -> In id l ->
  S (length (List.filter (fun i => negb (i =? id)%nat) l)) = length l.
Proof.
  induction l as [|x l IH]; simpl; [contradiction|].
  intros ND I. apply List.NoDup_cons_iff in ND as [NI ND].
  destruct (Nat.eqb_spec x id) as [->|N]; simpl.
  - f_equal. clear IH I ND. induction l as [|y l IH]; simpl; [reflexivity|].
    destruct (Nat.eqb_spec y id) as [->|_]; simpl.
    + exfalso. apply NI. by left.
    + f_equal. apply IH. intros I. apply NI. by right.
  - destruct I as [->|I]; [contradiction|]. rewrite IH; auto.
Qed.

Lemma step_in_flight (st st' : state) (ev : event) :
  in_flight_ok st -> step JSON_parse cfg st ev = Some st' -> in_flight_ok st'.
Proof.
  intros [ND B] H.
  destruct (step_calls _ _ _ H)
    as [(_ & EI & EP)|[(_ & b & _ & EI & EP)|(id & o & _ & _ & EI & EP)]];
    unfold in_flight_ok; rewrite EI, EP.
  - auto.
  - rewrite List.Forall_forall in B. split.
    + apply List.NoDup_app; [exact ND|repeat constructor; by intros []|].
      intros x Hx [<-|[]]. specialize (B _ Hx). lia.
    + rewrite length_app. simpl. apply List.Forall_app. split.
      * apply List.Forall_forall. intros x Hx. specialize (B _ Hx). lia.
      * constructor; [lia|constructor].
  - split.
    + by apply List.NoDup_filter.
    + rewrite List.Forall_forall in *. intros x Hx.
      apply filter_In in Hx as [Hx _]. by apply B.
Qed.

Lemma step_well_formed_calls (st st' : state) (ev : event) :
  well_formed_calls st -> step JSON_parse cfg st ev = Some st' ->
  well_formed_calls st'.
Proof.
  intros W H. unfold well_formed_calls.
  destruct (step_calls _ _ _ H)
    as [(_ & -> & _)|[(_ & b & NE & -> & _)|(id & o & _ & _ & -> & _)]];
    try exact W.
  apply List.Forall_app. split; [exact W|]. by repeat constructor.
Qed.

Lemma run_invariant (P : state -> Prop) :
  (forall st st' ev, P st -> step JSON_parse cfg st ev = Some st' -> P st') ->
  forall evs st st', P st -> run JSON_parse cfg st evs = Some st' -> P st'.
Proof.
  intros Hs. induction evs as [|ev evs IH]; simpl; intros st st' I.
  - by intros [= <-].
  - destruct (step JSON_parse cfg st ev) as [st1|] eqn:E; [|discriminate].
    eauto.
Qed.

(** X1.  Over any run of the stream from its start, the documents handed
    to insertMany so far, followed by those still in the buffer, are exactly
    the documents the mapper accepted from the chunks written, in the order
    they were written: no record is lost, repeated or reordered. *)
Theorem records_neither_lost_nor_duplicated
  (evs : list event) (st : state) :
  run JSON_parse cfg initial evs = Some st ->
  handed st ++ buffer st = written JSON_parse cfg evs.
Proof.
  intros R. by rewrite (run_conserves _ _ _ _ _ R).
Qed.

(** X2.  Every call of insertMany made in a run carries at least one
    document and the option ordered: false. *)
Theorem batches_are_nonempty_and_unordered
  (evs : list event) (st : state) :
  run JSON_parse cfg initial evs = Some st ->
  Forall (fun c => docs c <> [] /\ ordered c = false) (inserts st).
Proof.
  apply (run_invariant well_formed_calls); [apply step_well_formed_calls|].
  constructor.
Qed.

(** The counts of a run. *)
Lemma step_counts (st st' : state) (ev : event) :
  in_flight_ok st ->
  step JSON_parse cfg st ev = Some st' ->
  length (pending st') + (if is_settle ev then 1 else 0)
  = length (pending st) + (length (inserts st') - length (inserts st))
  /\ length (inserts st) <= length (inserts st')
  /\ length (stderr st')
     = length (stderr st) + (if is_failure ev then 2 else 0)
  /\ write_done st' = write_done st + (if is_write ev then 1 else 0).
Proof.
  intros [ND _] H. split; [|split].
  - destruct (step_calls _ _ _ H)
      as [(-> & -> & ->)|[(-> & b & _ & -> & ->)|(id & o & -> & I & -> & ->)]].
    + lia.
    + rewrite !length_app. simpl. lia.
    + simpl. pose proof (filter_ne_length id _ ND I). lia.
  - destruct (step_calls _ _ _ H)
      as [(_ & -> & _)|[(_ & b & _ & -> & _)|(id & o & _ & _ & -> & _)]];
      rewrite ?length_app; lia.
  - step_cases H st ev; simpl is_failure; simpl is_write.
    + destruct (write_cases JSON_parse cfg str now st) as [[_ ->]|[_ ->]].
      * set (st1 := set_buffer _ st).
        change (stderr (call_cb (set_flushTimer None ?t))) with (stderr t).
        change (write_done (call_cb (set_flushTimer None ?t)))
          with (S (write_done t)).
        destruct (clear_pending_timer_frame (flush st1))
          as (_ & _ & _ & -> & -> & _).
        destruct (flush_frame st1) as (_ & _ & _ & -> & -> & _).
        simpl. lia.
      * unfold scheduleFlush. simpl. destruct (flushTimer st); simpl; lia.
    + unfold timer_callback.
      destruct (flush_frame (set_flushTimer None (clearTimeout h st)))
        as (_ & _ & _ & -> & -> & _). simpl. lia.
    + destruct o; simpl; rewrite ?length_app; simpl; lia.
    + unfold final. simpl.
      destruct (flush_frame (clear_pending_timer st))
        as (_ & _ & _ & -> & -> & _).
      destruct (clear_pending_timer_frame st) as (_ & _ & _ & -> & -> & _).
      lia.
    + simpl. lia.
Qed.

Lemma run_counts (evs : list event) :
  forall st st' : state,
    in_flight_ok st ->
    run JSON_parse cfg st evs = Some st' ->
    length (pending st') + count is_settle evs
    = length (pending st) + (length (inserts st') - length (inserts st))
    /\ length (inserts st) <= length (inserts st')
    /\ length (stderr st') = length (stderr st) + 2 * count is_failure evs
    /\ write_done st' = write_done st + count is_write evs.
Proof.
  unfold count.
  induction evs as [|ev evs IH]; simpl; intros st st' I.
  - intros [= <-]. lia.
  - destruct (step JSON_parse cfg st ev) as [st1|] eqn:E; [|discriminate].
    intros R.
    destruct (step_counts _ _ _ I E) as (A1 & A2 & A3 & A4).
    destruct (IH _ _ (step_in_flight _ _ _ I E) R) as (B1 & B2 & B3 & B4).
    destruct (is_settle ev), (is_failure ev), (is_write ev); simpl; lia.
Qed.

(** X6.  In any run the callback of write was called once for each
    write, stderr holds two lines for each rejected insertMany and no other,
    and the promises in flight are distinct calls that were made: their
    number and the number of settled ones add up to the number of calls of
    insertMany. *)
Theorem callbacks_reports_and_promises_add_up
  (evs : list event) (st : state) :
  run JSON_parse cfg initial evs = Some st ->
  write_done st = count is_write evs /\
  length (stderr st) = 2 * count is_failure evs /\
  length (pending st) + count is_settle evs = length (inserts st) /\
  List.NoDup (pending st) /\
  Forall (fun i => i < length (inserts st)) (pending st).
Proof.
  intros R.
  assert (I0 : in_flight_ok initial) by (split; constructor).
  destruct (run_counts _ _ _ I0 R) as (A1 & A2 & A3 & A4).
  destruct (run_invariant in_flight_ok step_in_flight _ _ _ I0 R) as [ND B].
  simpl in *. repeat split; try assumption; lia.
Qed.


Lemma step_below_threshold (st st' : state) (ev : event) :
  below_threshold cfg st -> step JSON_parse cfg st ev = Some st' ->
  below_threshold cfg st'.
Proof.
  intros B H. step_cases H st ev.
  - destruct (write_cases JSON_parse cfg str now st) as [[_ ->]|[L ->]].
    + left. set (st1 := set_buffer _ st).
      change (buffer (call_cb (set_flushTimer None ?t))) with (buffer t).
      destruct (clear_pending_timer_frame (flush st1)) as (-> & _).
      apply flush_frame.
    + right. unfold scheduleFlush. simpl.
      destruct (flushTimer st); exact L.
  - left. unfold timer_callback. apply flush_frame.
  - exact B.
  - left. unfold final. simpl. apply flush_frame.
  - exact B.
Qed.

(** X3.  Between two turns of the event loop the buffer is empty or holds
    fewer documents than batchSize. *)
Theorem buffer_stays_below_batchSize (evs : list event) (st : state) :
  run JSON_parse cfg initial evs = Some st ->
  buffer st = [] \/ length_ge (length (buffer st)) (batchSize cfg) = false.
Proof.
  apply (run_invariant (below_threshold cfg) step_below_threshold). by left.
Qed.


Lemma clearTimeout_delays (h : nat) (st : state) :
  Forall (fun t => snd t = flushMs cfg) (timers st) ->
  Forall (fun t => snd t = flushMs cfg) (timers (clearTimeout h st)).
Proof.
  simpl. rewrite !List.Forall_forall. intros F x Hx.
  apply filter_In in Hx as [Hx _]. by apply F.
Qed.

Lemma step_timer_covers_buffer (st st' : state) (ev : event) :
  timer_covers_buffer cfg st -> step JSON_parse cfg st ev = Some st' ->
  timer_covers_buffer cfg st'.
Proof.
  intros (O & D & B) H.
  split; [exact (one_timer_step _ _ _ _ _ O H)|].
  step_cases H st ev.
  - destruct (write_cases JSON_parse cfg str now st) as [[_ ->]|[L ->]].
    + set (st1 := set_buffer _ st).
      change (timers (call_cb (set_flushTimer None ?t))) with (timers t).
      change (buffer (call_cb (set_flushTimer None ?t))) with (buffer t).
      destruct (clear_pending_timer_frame (flush st1)) as (-> & _).
      destruct (flush_frame st1) as (FT & TM & _ & _ & _ & _ & _ & ->).
      split; [|congruence].
      unfold clear_pending_timer. rewrite FT.
      destruct (flushTimer st1); [apply clearTimeout_delays|];
        by rewrite TM.
    + unfold scheduleFlush. simpl.
      destruct (flushTimer st) eqn:F; simpl; rewrite ?C.
      * split; [exact D|]. intros _. split; [by rewrite F|reflexivity].
      * split; [|intros _; split; [discriminate|reflexivity]].
        apply List.Forall_app. split; [exact D|]. by repeat constructor.
  - unfold timer_callback.
    destruct (flush_frame (set_flushTimer None (clearTimeout h st)))
      as (_ & -> & _ & _ & _ & _ & _ & ->).
    split; [by apply clearTimeout_delays|congruence].
  - split; [exact D|exact B].
  - unfold final. simpl.
    destruct (flush_frame (clear_pending_timer st))
      as (_ & -> & _ & _ & _ & _ & _ & ->).
    split; [|congruence]. unfold clear_pending_timer.
    destruct (flushTimer st); [by apply clearTimeout_delays|exact D].
  - split; [exact D|]. intros NE. destruct (B NE) as [_ X]. discriminate X.
Qed.

(** X4.  Whenever documents are buffered between two turns of the event
    loop, the stream is not closing and flushTimer names the one timer the
    runtime holds, which was set for flushMs; when it fires, the whole
    buffer goes into one call of insertMany and the buffer is empty. *)
Theorem buffered_records_wait_for_a_live_timer
  (evs : list event) (st : state) :
  run JSON_parse cfg initial evs = Some st ->
  buffer st <> [] ->
  closing st = false /\
  exists h, flushTimer st = Some h /\ timers st = [(h, flushMs cfg)] /\
            exists st', step JSON_parse cfg st (Fire h) = Some st' /\
                        buffer st' = [] /\
                        inserts st'
                        = inserts st ++ [{| docs := buffer st;
                                            ordered := false |}].
Proof.
  intros R NE.
  assert (I : timer_covers_buffer cfg st).
  { apply (run_invariant (timer_covers_buffer cfg) step_timer_covers_buffer
             evs initial st); [|exact R].
    split; [apply one_timer_initial|]. split; [constructor|]. by intros []. }
  destruct I as (O & D & B). destruct (B NE) as [FN C].
  split; [exact C|].
  destruct O as [[_ [F|F]]|(h & d & T & F & _)]; try congruence.
  exists h. rewrite T in D. apply Forall_inv in D. simpl in D. subst d.
  split; [exact F|]. split; [exact T|].
  exists (timer_callback (clearTimeout h st)).
  unfold step. rewrite T. simpl. rewrite Nat.eqb_refl. simpl.
  split; [reflexivity|]. unfold timer_callback.
  by rewrite flush_nonempty.
Qed.


Lemma step_quiet_when_closing (st st' : state) (ev : event) :
  quiet_when_closing st -> step JSON_parse cfg st ev = Some st' ->
  quiet_when_closing st'.
Proof.
  intros (O & Q) H.
  split; [exact (one_timer_step _ _ _ _ _ O H)|].
  step_cases H st ev.
  - intros C'. exfalso. revert C'.
    destruct (write_cases JSON_parse cfg str now st) as [[_ ->]|[_ ->]].
    + set (st1 := set_buffer _ st).
      change (closing (call_cb (set_flushTimer None ?t))) with (closing t).
      destruct (clear_pending_timer_frame (flush st1))
        as (_ & _ & _ & _ & _ & -> & _).
      destruct (flush_frame st1) as (_ & _ & _ & _ & _ & -> & _).
      simpl. congruence.
    + unfold scheduleFlush. simpl. destruct (flushTimer st); simpl; congruence.
  - unfold timer_callback.
    destruct (flush_frame (set_flushTimer None (clearTimeout h st)))
      as (_ & -> & _ & _ & _ & -> & _ & ->).
    simpl. intros C'. destruct (Q C') as [_ T]. rewrite T in M. discriminate.
  - exact Q.
  - intros _. unfold final. simpl.
    destruct (flush_frame (clear_pending_timer st))
      as (_ & -> & _ & _ & _ & _ & _ & ->).
    split; [reflexivity|]. unfold clear_pending_timer.
    destruct O as [[T _]|(h & d & T & F & _)].
    + destruct (flushTimer st); simpl; by rewrite T.
    + rewrite F. simpl. rewrite T. simpl. by rewrite Nat.eqb_refl.
  - intros _. exact (Q eq_refl).
Qed.

Lemma step_after_final (st st' : state) (ev : event) :
  closing st = true -> timers st = [] ->
  step JSON_parse cfg st ev = Some st' ->
  is_write ev = false /\ inserts st' = inserts st /\ buffer st' = buffer st
  /\ closing st' = true /\ timers st' = [].
Proof.
  intros C0 T H. step_cases H st ev; try congruence.
  - rewrite T in M. discriminate.
  - simpl. auto.
  - simpl. auto.
Qed.

Lemma run_after_final (evs : list event) :
  forall st st' : state,
    closing st = true -> timers st = [] ->
    run JSON_parse cfg st evs = Some st' ->
    count is_write evs = 0 /\ inserts st' = inserts st
    /\ buffer st' = buffer st.
Proof.
  unfold count.
  induction evs as [|ev evs IH]; simpl; intros st st' C T.
  - by intros [= <-].
  - destruct (step JSON_parse cfg st ev) as [st1|] eqn:E; [|discriminate].
    intros R.
    destruct (step_after_final _ _ _ C T E) as (W & EI & EB & C1 & T1).
    destruct (IH _ _ C1 T1 R) as (A & B & B').
    rewrite W. split; [exact A|]. split; congruence.
Qed.

(** X5.  Once final has run, the buffer is empty, no timer is left and
    every document accepted in the run has been handed to insertMany; no
    later event is a write or makes another call of insertMany. *)
Theorem final_hands_over_every_record
  (evs : list event) (st : state) :
  run JSON_parse cfg initial evs = Some st ->
  closing st = true ->
  buffer st = [] /\ timers st = [] /\
  handed st = written JSON_parse cfg evs /\
  (forall (more : list event) (st' : state),
     run JSON_parse cfg st more = Some st' ->
     count is_write more = 0 /\ inserts st' = inserts st /\ buffer st' = []).
Proof.
  intros R C.
  assert (I : quiet_when_closing st).
  { apply (run_invariant quiet_when_closing step_quiet_when_closing
             evs initial st); [|exact R].
    split; [apply one_timer_initial|]. discriminate. }
  destruct I as [_ Q]. destruct (Q C) as [B T].
  split; [exact B|]. split; [exact T|]. split.
  - pose proof (run_conserves _ _ _ _ _ R) as E. simpl in E.
    by rewrite B, app_nil_r in E.
  - intros more st' R'.
    destruct (run_after_final _ _ _ C T R') as (A1 & A2 & A3).
    split; [exact A1|]. split; [exact A2|congruence].
Qed.

End RunInvariants.

(** ** Lines, numerals and levels *)

(** *** Lines of a chunk *)

Lemma split_nl_nonempty (s : string) : split_nl s <> [].
Proof.
  destruct s as [|c r]; simpl; [discriminate|].
  destruct (Json.code c =? 10)%Z; [discriminate|].
  by destruct (split_nl r).
Qed.

Lemma split_nl_app (a b : string) :
  split_nl (a ++ newline ++ b)%string = split_nl a ++ split_nl b.
Proof.
  induction a as [|c a IH]; [reflexivity|].
  change ((String c a ++ newline ++ b)%string)
    with (String c (a ++ newline ++ b)%string).
  simpl. destruct (Json.code c =? 10)%Z.
  - by rewrite IH.
  - rewrite IH. pose proof (split_nl_nonempty a) as NE.
    by destruct (split_nl a).
Qed.


Lemma split_nl_lines (s : string) :
  Forall (fun l => has_newline l = false) (split_nl s).
Proof.
  induction s as [|c r IH]; simpl; [by repeat constructor|].
  destruct (Json.code c =? 10)%Z eqn:E.
  - by constructor.
  - destruct (split_nl r) as [|h t].
    + constructor; [|constructor]. simpl. by rewrite E.
    + apply Forall_cons in IH as [Hh Ht].
      constructor; [|exact Ht]. simpl. by rewrite E.
Qed.

Section Lines.
Variable JSON_parse : string -> option json.
Variable cfg : config.

Lemma mapped_app (now : nat -> Z) (l1 l2 : list string) :
  forall i,
    mapped JSON_parse cfg now i (l1 ++ l2)
    = mapped JSON_parse cfg now i l1
      ++ mapped JSON_parse cfg now (i + length l1) l2.
Proof.
  induction l1 as [|x l1 IH]; intros i; simpl.
  - by rewrite Nat.add_0_r.
  - rewrite IH, Nat.add_succ_r. simpl. by destruct (pinoToDoc _ _ _ _).
Qed.

(** X7.  A chunk made of a, a newline and b is read as the lines of a
    followed by the lines of b; no line holds a newline or is blank; and its
    documents are those of a followed by those of b. *)
Theorem chunk_splits_into_lines (a b : string) (now : nat -> Z) :
  lines_of (a ++ newline ++ b)%string = lines_of a ++ lines_of b /\
  Forall (fun l => has_newline l = false /\ trim_truthy l = true)
    (lines_of a) /\
  mapped JSON_parse cfg now 0 (lines_of (a ++ newline ++ b)%string)
  = mapped JSON_parse cfg now 0 (lines_of a)
    ++ mapped JSON_parse cfg now (length (lines_of a)) (lines_of b).
Proof.
  assert (E : lines_of (a ++ newline ++ b)%string = lines_of a ++ lines_of b).
  { unfold lines_of. by rewrite split_nl_app, List.filter_app. }
  split; [exact E|]. split.
  - unfold lines_of. apply List.Forall_forall. intros l Hl.
    apply filter_In in Hl as [Hl T]. split; [|exact T].
    pose proof (split_nl_lines a) as F.
    rewrite List.Forall_forall in F. by apply F.
  - by rewrite E, mapped_app.
Qed.
End Lines.

(** *** parseInt and the decimal writing of integers *)



Lemma uint_value_acc (d : Decimal.uint) :
  forall p : positive,
    uint_value d (Z.pos p) = Z.pos (Pos.of_uint_acc d p).
Proof.
  induction d; intros p; simpl; try reflexivity.
  all: rewrite <- IHd; f_equal; lia.
Qed.

Lemma uint_value_of_uint (d : Decimal.uint) :
  uint_value d 0 = Z.of_N (Pos.of_uint d).
Proof.
  induction d; simpl; try reflexivity; try exact IHd.
  all: exact (uint_value_acc d _).
Qed.

Lemma read_digits_rest (rest : string) (acc : Z) (cnt : N) :
  no_digit_head rest = true ->
  Json.read_digits rest acc cnt = (acc, cnt, rest).
Proof.
  destruct rest as [|c r]; [reflexivity|]. simpl.
  unfold is_digit, Json.digit_val.
  by destruct (_ && _).
Qed.

Lemma read_digits_uint (d : Decimal.uint) (rest : string) :
  no_digit_head rest = true ->
  forall (acc : Z) (cnt : N),
    Json.read_digits (NilEmpty.string_of_uint d ++ rest)%string acc cnt
    = (uint_value d acc,
       (cnt + N.of_nat (String.length (NilEmpty.string_of_uint d)))%N,
       rest).
Proof.
  intros Hr. induction d; intros acc cnt.
  1: { simpl. rewrite read_digits_rest by exact Hr. f_equal. f_equal. lia. }
  all: simpl NilEmpty.string_of_uint;
    change ((String ?c ?s ++ rest)%string) with (String c (s ++ rest)%string);
    cbn [Json.read_digits]; cbv [Json.digit_val Json.code]; simpl;
    rewrite IHd; f_equal; f_equal; try lia; f_equal; lia.
Qed.

Lemma digits_nil_empty (z : Z) :
  digits z = NilEmpty.string_of_uint (N.to_uint (Z.to_N z)).
Proof.
  unfold digits, NilZero.string_of_uint.
  destruct (N.to_uint (Z.to_N z)) eqn:E; try reflexivity.
  destruct (Z.to_N z) as [|p]; [discriminate E|].
  by destruct (DecimalPos.Unsigned.to_uint_nonnil p).
Qed.

Lemma digits_head (z : Z) :
  exists c r, digits z = String c r /\ is_digit c = true.
Proof.
  pose proof (all_digits_digits z) as A. rewrite digits_nil_empty in *.
  destruct (N.to_uint (Z.to_N z)) eqn:E.
  1: { destruct (Z.to_N z) as [|p]; [discriminate E|].
       by destruct (DecimalPos.Unsigned.to_uint_nonnil p). }
  all: simpl in *; eauto.
Qed.



Lemma read_digits_digits (z : Z) (rest : string) :
  (0 <= z)%Z -> no_digit_head rest = true ->
  exists cnt,
    Json.read_digits (digits z ++ rest)%string 0 0 = (z, cnt, rest)
    /\ cnt <> 0%N.
Proof.
  intros Pz Hr. rewrite digits_nil_empty.
  rewrite read_digits_uint by exact Hr.
  rewrite uint_value_of_uint.
  change (Pos.of_uint ?d) with (N.of_uint d).
  rewrite DecimalN.Unsigned.of_to, Z2N.id by exact Pz.
  eexists. split; [reflexivity|].
  destruct (digits_head z) as (c & r & E & _).
  rewrite <- digits_nil_empty, E. simpl. lia.
Qed.


(** *** Numeric levels *)


Lemma digits_inj (z k : Z) :
  (0 <= z)%Z -> (0 <= k)%Z -> digits z = digits k -> z = k.
Proof.
  intros Pz Pk E.
  destruct (read_digits_digits z "" Pz eq_refl) as (c1 & R1 & _).
  destruct (read_digits_digits k "" Pk eq_refl) as (c2 & R2 & _).
  rewrite E, R2 in R1. congruence.
Qed.

Lemma level_key_digits (z : Z) :
  (0 <= z)%Z ->
  get_prop (digits z) LEVEL_MAP
  = if (z =? 10)%Z then Some "trace"
    else if (z =? 20)%Z then Some "debug"
    else if (z =? 30)%Z then Some "info"
    else if (z =? 40)%Z then Some "warn"
    else if (z =? 50)%Z then Some "error"
    else if (z =? 60)%Z then Some "fatal"
    else None.
Proof.
  intros Pz. unfold LEVEL_MAP. cbn [get_prop].
  assert (K : forall k, (0 <= k)%Z ->
                String.eqb (digits z) (digits k) = (z =? k)%Z).
  { intros k Pk. destruct (String.eqb_spec (digits z) (digits k)) as [E|N].
    - apply digits_inj in E; [|lia|lia]. subst. by rewrite Z.eqb_refl.
    - destruct (Z.eqb_spec z k); [subst; contradiction|reflexivity]. }
  change "10" with (digits 10). change "20" with (digits 20).
  change "30" with (digits 30). change "40" with (digits 40).
  change "50" with (digits 50). change "60" with (digits 60).
  rewrite !K by lia. reflexivity.
Qed.

Lemma strip_zeros_length (d : string) :
  String.length (strip_zeros d) <= String.length d.
Proof.
  induction d as [|c r IH]; simpl; [lia|].
  destruct (strip_zeros r); simpl in *; [destruct (Ascii.eqb c "0")|];
    simpl; lia.
Qed.

Lemma strip_zeros_restore (d : string) :
  (strip_zeros d
   ++ zeros (String.length d - String.length (strip_zeros d)))%string = d.
Proof.
  induction d as [|c r IH]; [reflexivity|].
  cbn [strip_zeros String.length].
  destruct (strip_zeros r) as [|c' r'] eqn:E.
  - assert (Z : zeros (String.length r) = r).
    { rewrite <- IH at 2. cbn [String.length]. by rewrite Nat.sub_0_r. }
    destruct (Ascii.eqb_spec c "0") as [->|N]; cbn [String.length].
    + rewrite Nat.sub_0_r.
      change (String "0" (zeros (String.length r)) = String "0" r).
      by f_equal.
    + rewrite Nat.sub_succ, Nat.sub_0_r.
      change (String c (zeros (String.length r)) = String c r). by f_equal.
  - cbn [String.length]. rewrite Nat.sub_succ.
    change ((String c (String c' r') ++ ?t)%string)
      with (String c (String c' r' ++ t)%string).
    f_equal. exact IH.
Qed.

Lemma positive_toString_integer (m : Z) :
  String.length (digits m) <= 21 ->
  positive_toString m 0 = digits m.
Proof.
  intros L. unfold positive_toString.
  pose proof (strip_zeros_length (digits m)) as K.
  rewrite Z.sub_0_r.
  destruct (_ && _)%bool eqn:B.
  - rewrite <- Nat2Z.inj_sub, Nat2Z.id by exact K. apply strip_zeros_restore.
  - apply andb_false_iff in B as [B|B];
      [apply Z.leb_gt in B|apply Z.leb_gt in B];
      lia.
Qed.

Lemma exponential_is_no_level (m : Z) :
  21 < String.length (digits m) ->
  get_prop (positive_toString m 0) LEVEL_MAP = None.
Proof.
  intros L. unfold positive_toString.
  rewrite Z.sub_0_r.
  set (d := strip_zeros (digits m)).
  set (n := Z.of_nat (String.length (digits m))).
  assert (Ln : (21 < n)%Z) by (subst n; lia).
  set (k := Z.of_nat (String.length d)).
  assert (B1 : ((k <=? n) && (n <=? 21))%Z = false).
  { apply andb_false_iff. right. apply Z.leb_gt. lia. }
  assert (B2 : ((0 <? n) && (n <=? 21))%Z = false).
  { apply andb_false_iff. right. apply Z.leb_gt. lia. }
  assert (B3 : ((-6 <? n) && (n <=? 0))%Z = false).
  { apply andb_false_iff. right. apply Z.leb_gt. lia. }
  rewrite B1, B2, B3.
  set (rest := (_ ++ digits _)%string).
  subst k. clearbody rest. clear.
  unfold LEVEL_MAP.
  destruct d as [|c1 [|c2 r]].
  - reflexivity.
  - change (Z.of_nat (String.length (String c1 "")) =? 1)%Z with true.
    simpl.
    repeat match goal with
           | |- context [Ascii.eqb c1 ?x] => destruct (Ascii.eqb c1 x)
           end; reflexivity.
  - destruct (_ =? 1)%Z; simpl;
    repeat match goal with
           | |- context [Ascii.eqb c1 ?x] => destruct (Ascii.eqb c1 x)
           end; try reflexivity;
    repeat match goal with
           | |- context [Ascii.eqb c2 ?x] => destruct (Ascii.eqb c2 x)
           end; try reflexivity; by destruct r.
Qed.

(** X9.  A record whose level is the integer z gets the level trace,
    debug, info, warn, error or fatal for z = 10, 20, 30, 40, 50, 60, and
    info for every other integer, negative or of any size. *)
Theorem integer_level_maps_to_name_or_info (z : Z) :
  level_name (Some (JNum (int z))) = Ok (FJson (JStr (pino_level z))).
Proof.
  unfold level_name, property_key.
  change (String_ (JNum (int z))) with (Ok (number_toString (Num z 0))).
  cbn [res_bind].
  assert (M : mem (number_toString (Num z 0)) Object_prototype = false).
  { apply numeric_head_not_inherited, numeric_head_number. }
  unfold LEVEL_MAP_get. rewrite M.
  assert (G : get_prop (number_toString (Num z 0)) LEVEL_MAP
              = if (z =? 10)%Z then Some "trace"
                else if (z =? 20)%Z then Some "debug"
                else if (z =? 30)%Z then Some "info"
                else if (z =? 40)%Z then Some "warn"
                else if (z =? 50)%Z then Some "error"
                else if (z =? 60)%Z then Some "fatal"
                else None).
  { unfold number_toString.
    destruct (Z.eqb_spec z 0) as [->|NZ]; [reflexivity|].
    destruct (Z.ltb_spec z 0) as [Neg|Pos].
    - assert (E : forall k, (0 < k)%Z -> (z =? k)%Z = false)
        by (intros; apply Z.eqb_neq; lia).
      rewrite !E by lia. reflexivity.
    - destruct (Nat.le_gt_cases (String.length (digits z)) 21) as [L|L].
      + rewrite positive_toString_integer by exact L.
        apply level_key_digits. lia.
      + rewrite exponential_is_no_level by exact L.
        destruct (Z.eqb_spec z 10); [subst z; vm_compute in L; lia|].
        destruct (Z.eqb_spec z 20); [subst z; vm_compute in L; lia|].
        destruct (Z.eqb_spec z 30); [subst z; vm_compute in L; lia|].
        destruct (Z.eqb_spec z 40); [subst z; vm_compute in L; lia|].
        destruct (Z.eqb_spec z 50); [subst z; vm_compute in L; lia|].
        destruct (Z.eqb_spec z 60); [subst z; vm_compute in L; lia|].
        reflexivity. }
  rewrite G. unfold pino_level.
  repeat (destruct (_ =? _)%Z; [reflexivity|]). reflexivity.
Qed.

(** ** The record mapper, field by field *)

Section MapperValues.

Variable JSON_parse : string -> option json.

Lemma String_primitive (v : json) :
  is_object v = false -> exists s, String_ v = Ok s.
Proof. destruct v; try discriminate; simpl; eauto. Qed.

Lemma primitive_stringable (x : option json) :
  primitive_or_absent x = true -> stringable x = true.
Proof.
  unfold stringable, non_null. destruct x as [v|]; [|reflexivity].
  simpl. intros P. apply negb_true_iff in P.
  destruct (String_primitive v P) as [s E].
  destruct v; try reflexivity; by rewrite E.
Qed.

Lemma level_name_stringable (level : option json) :
  (exists f, level_name level = Ok f) <-> stringable level = true.
Proof.
  unfold level_name, stringable, property_key.
  destruct level as [v|]; [|split; simpl; eauto].
  assert (N : v = JNull \/ non_null (Some v) = Some v)
    by (destruct v; auto).
  destruct N as [->| ->]; [split; simpl; eauto|].
  destruct (String_ v); simpl; split; eauto; try discriminate.
  by intros [f E].
Qed.

Lemma json_elements_ind (P : json -> Prop) :
  P JNull -> (forall b, P (JBool b)) -> (forall n, P (JNum n)) ->
  (forall s, P (JStr s)) -> (forall l, Forall P l -> P (JArr l)) ->
  (forall l, P (JObj l)) -> forall v, P v.
Proof.
  intros H0 H1 H2 H3 H4 H5. fix IH 1. intros [|b|n|s|l|l].
  - exact H0.
  - apply H1.
  - apply H2.
  - apply H3.
  - apply H4. induction l as [|x l IHl]; constructor; [apply IH|exact IHl].
  - apply H5.
Qed.

Lemma String_throws (v : json) (e : exn) :
  String_ v = Throw e -> e = TypeError.
Proof.
  revert e. induction v as [|b|n|s|l F|l] using json_elements_ind;
    intros e; try discriminate.
  - simpl.
    match goal with
    | |- res_bind ?m _ = _ -> _ => destruct m as [ss|e'] eqn:R
    end; simpl; [discriminate|].
    intros [= <-]. revert e' R.
    induction F as [|x r Hx F IHr]; intros e; [discriminate|].
    simpl.
    match goal with
    | |- res_bind ?m _ = _ -> _ => destruct m as [s|e'] eqn:X
    end; simpl.
    + match goal with
      | |- res_bind ?m _ = _ -> _ => destruct m as [ss|e''] eqn:R
      end; simpl; [discriminate|].
      intros [= <-]. by apply IHr.
    + intros [= <-]. destruct x; try discriminate; by apply Hx.
  - simpl. destruct (has_prop _ _); [by intros [= <-]|discriminate].
Qed.

Lemma level_name_throws (level : option json) (e : exn) :
  level_name level = Throw e -> e = TypeError.
Proof.
  unfold level_name, property_key. destruct level as [v|]; [|discriminate].
  destruct (String_ v) as [s|e'] eqn:X; simpl; [discriminate|].
  intros [= <-]. by apply (String_throws v).
Qed.

Lemma record_not_null {A : Type} (obj : json) (body : res A) :
  obj <> JNull ->
  match obj with
  | JNull => Throw TypeError
  | _ => body
  end = body.
Proof. by destruct obj. Qed.

Lemma mapper_accepts_stringable
  (now : Z) (line obj : json) (service : string) :
  record_of JSON_parse line = Ok obj -> obj <> JNull ->
  ((exists d, pinoToDoc JSON_parse now line service = Ok d) <->
   forallb (fun k => stringable (get obj k)) converted = true) /\
  pinoToDoc JSON_parse now line service <> Throw SyntaxError.
Proof.
  intros R N. unfold pinoToDoc. rewrite R. cbn [res_bind].
  rewrite record_not_null by exact N.
  unfold converted. cbn [forallb].
  pose proof (level_name_stringable (get obj "level")) as L.
  pose proof (level_name_throws (get obj "level")) as LT.
  destruct (level_name (get obj "level")) as [lvl|e].
  2: { cbn [res_bind]. destruct L as [_ L].
       destruct (stringable (get obj "level")).
       - destruct (L eq_refl) as [f E]. discriminate E.
       - split; [|intros [= ->]; specialize (LT _ eq_refl); discriminate LT].
         split; [by intros [d E]|discriminate]. }
  destruct L as [L _]. rewrite L by eauto. clear L LT.
  cbn [res_bind andb].
  unfold stringable, set_string, new_Date.
  pose proof String_throws as ST.
  destruct (non_null (get obj "time")) as [t|];
    [destruct (String_ t) as [?|e] eqn:E1;
     [|apply ST in E1; subst e]|];
  (destruct (non_null (get obj "reqId")) as [r|];
    [destruct (String_ r) as [?|e] eqn:E2;
     [|apply ST in E2; subst e]|]);
  (destruct (non_null (get obj "userId")) as [u|];
    [destruct (String_ u) as [?|e] eqn:E3;
     [|apply ST in E3; subst e]|]);
  (destruct (non_null (get obj "endpoint")) as [p|];
    [destruct (String_ p) as [?|e] eqn:E4;
     [|apply ST in E4; subst e]|]);
  cbn [res_bind andb].
  all: split; [split; [try (intros _; reflexivity); by intros [d E]
                      |try discriminate; eauto]
              |discriminate].
Qed.

(** X10.  pinoToDoc returns a document exactly when the line is a value
    other than null (after JSON.parse for a string) whose level, time,
    reqId, userId and endpoint, where present and not null, can be converted
    to a string; so whenever none of the five is an object or an array.  It
    throws a SyntaxError exactly when the line is a string JSON.parse
    rejects. *)
Theorem mapper_accepts_exactly (now : Z) (line : json) (service : string) :
  ((exists d, pinoToDoc JSON_parse now line service = Ok d) <->
   (exists obj, record_of JSON_parse line = Ok obj /\ obj <> JNull /\
      forallb (fun k => stringable (get obj k)) converted = true)) /\
  (forall obj, record_of JSON_parse line = Ok obj -> obj <> JNull ->
     forallb (fun k => primitive_or_absent (get obj k)) converted = true ->
     exists d, pinoToDoc JSON_parse now line service = Ok d) /\
  (pinoToDoc JSON_parse now line service = Throw SyntaxError <->
   exists s, line = JStr s /\ JSON_parse s = None).
Proof.
  split; [|split].
  - split.
    + intros [d E].
      destruct (record_of JSON_parse line) as [obj|e] eqn:R.
      2: { unfold pinoToDoc in E. rewrite R in E. discriminate E. }
      assert (N : obj <> JNull).
      { intros ->. unfold pinoToDoc in E. rewrite R in E. discriminate E. }
      exists obj. split; [reflexivity|]. split; [exact N|].
      apply (mapper_accepts_stringable now line obj service R N). eauto.
    + intros (obj & R & N & S).
      by apply (mapper_accepts_stringable now line obj service R N).
  - intros obj R N P.
    apply (mapper_accepts_stringable now line obj service R N).
    apply forallb_forall. intros k Hk. apply primitive_stringable.
    rewrite forallb_forall in P. by apply P.
  - split.
    + intros E. destruct (record_of JSON_parse line) as [obj|e] eqn:R.
      * destruct obj;
          try (unfold pinoToDoc in E; rewrite R in E; discriminate E).
        all: by destruct (proj2 (mapper_accepts_stringable now line _ service
                                   R ltac:(discriminate))).
      * unfold record_of in R. destruct line; try discriminate R.
        destruct (JSON_parse s) eqn:P; [discriminate R|]. eauto.
    + intros (s & -> & P). unfold pinoToDoc, record_of. by rewrite P.
Qed.



End MapperValues.

(** ** buildTransport and createLogger *)

Lemma str_or_truthy (x : option string) (s : string) :
  str_or x None = Some s -> s <> "".
Proof.
  destruct x as [t|]; simpl; [|discriminate].
  destruct (String.eqb_spec t ""); [discriminate|]. by intros [= <-].
Qed.

Lemma str_or_default_truthy (x : option string) (d : string) :
  d <> "" -> default d (str_or x None) <> "".
Proof.
  intros N. destruct (str_or x None) as [s|] eqn:E; simpl; [|exact N].
  by apply str_or_truthy in E.
Qed.

(** X12.  An empty string as uri option makes buildTransport reject with
    the configuration error, with no call on the driver, whatever the
    environment holds.  When buildTransport resolves, the stream starts
    empty, its address is not empty, the client was made with it and
    connected, and was then asked for the database and the collection, in
    this order, and for the default database name before that only when no
    name was configured.  A collection or service option is used as it is;
    left out, the name in use is not empty. *)
Theorem resolved_transport_has_connected
  (e : env) (mongo : client) (o : options) :
  (opt_uri o = Some "" ->
   buildTransport e mongo (Some o)
   = Rejected (ConfigurationError uri_required) []) /\
  (forall cfg st calls,
     buildTransport e mongo (Some o) = Resolved cfg st calls ->
     st = initial /\ uri cfg <> "" /\
     construct mongo (uri cfg) = None /\ connect mongo (uri cfg) = None /\
     (exists asked,
        calls = [NewClient (uri cfg); Connect] ++ asked
                ++ [Db (Some (dbName cfg)); Collection (collection cfg)] /\
        (asked = []
         \/ asked = [Db None] /\ dbName cfg = databaseName mongo (uri cfg)))
     /\ (forall c, opt_collection o = Some c -> collection cfg = c)
     /\ (forall s, opt_service o = Some s -> service cfg = s)
     /\ (opt_collection o = None -> collection cfg <> "")
     /\ (opt_service o = None -> service cfg <> "")).
Proof.
  split.
  - intros U. unfold buildTransport. simpl. by rewrite U.
  - intros cfg st calls. unfold buildTransport. simpl.
    destruct (str_or _ None) as [u|] eqn:U; [|discriminate].
    apply str_or_truthy in U.
    destruct (construct mongo u) eqn:C; [discriminate|].
    destruct (connect mongo u) eqn:K; [discriminate|].
    destruct (str_or _ None) as [d|]; intros [= <- <- <-]; simpl.
    all: split; [reflexivity|]. all: split; [exact U|].
    all: split; [exact C|]. all: split; [exact K|].
    1: split; [exists []; split; [reflexivity|]; auto|].
    2: split; [exists [Db None]; split; [reflexivity|]; auto|].
    all: split; [by intros c ->|]. all: split; [by intros s ->|].
    all: split; intros ->; simpl; by apply str_or_default_truthy.
Qed.

Section IndexFacts.

Import Index.

Lemma first_truthy_two (a b : option string) :
  str_or (str_or a b) None = first_truthy [a; b].
Proof.
  destruct a as [s|]; simpl.
  - destruct (String.eqb_spec s "") as [->|N]; simpl.
    + destruct b as [t|]; simpl; [by destruct (String.eqb t "")|reflexivity].
    + by destruct (String.eqb_spec s "").
  - destruct b as [t|]; simpl; [by destruct (String.eqb t "")|reflexivity].
Qed.

Lemma first_truthy_three (a b c : option string) :
  str_or (str_or (str_or a b) c) None = first_truthy [a; b; c].
Proof.
  destruct a as [s|]; simpl.
  - destruct (String.eqb_spec s "") as [->|N]; simpl.
    + apply first_truthy_two.
    + destruct (String.eqb_spec s ""); [contradiction|]. simpl.
      by destruct (String.eqb_spec s "").
  - apply first_truthy_two.
Qed.

Lemma str_or_some (x : option string) (d : string) :
  d <> "" ->
  exists s, str_or x (Some d) = Some s /\ s <> ""
            /\ s = default d (str_or x None).
Proof.
  intros N. destruct x as [t|]; simpl.
  - destruct (String.eqb_spec t ""); simpl; eauto.
  - eauto.
Qed.

(** X13.  createLogger is in local mode exactly when options.local is
    true, LOG_TO_MONGO is "false" or NODE_ENV is "development".  In local
    mode no transport to MongoDB is among the streams; stdout is one unless
    stdout: false comes with a log file; the file named by options.logFile
    or LOG_FILE is one, after its directory was made.  Otherwise exactly one
    stream is the transport, with the options of transport_options; no file
    is written and no directory made, even with LOG_FILE set; stdout is a
    stream unless stdout: false. *)
Theorem destination_follows_mode (e : env) (o : logger_options) :
  (isLocalMode e o = true <->
   lo_local o = Some true \/ e "LOG_TO_MONGO" = Some "false"
   \/ e "NODE_ENV" = Some "development") /\
  (isLocalMode e o = true ->
   existsb is_transport (streams_of (destination_of e o)) = false /\
   (In Stdout (streams_of (destination_of e o)) <->
    lo_stdout o <> Some false
    \/ first_truthy [lo_logFile o; e "LOG_FILE"] = None) /\
   (forall f, In (File f) (streams_of (destination_of e o)) <->
              first_truthy [lo_logFile o; e "LOG_FILE"] = Some f) /\
   mkdir_for e o = first_truthy [lo_logFile o; e "LOG_FILE"]) /\
  (isLocalMode e o = false ->
   List.filter is_transport (streams_of (destination_of e o))
   = [MongoTransport (transport_options e o)] /\
   existsb is_file (streams_of (destination_of e o)) = false /\
   (In Stdout (streams_of (destination_of e o)) <-> lo_stdout o <> Some false)
   /\ mkdir_for e o = None).
Proof.
  split; [|split].
  - unfold isLocalMode, env_is. rewrite !orb_true_iff. split.
    + intros [[L|L]|L].
      * left. by destruct (lo_local o) as [[]|].
      * right. left. destruct (e "LOG_TO_MONGO"); [|discriminate].
        by apply String.eqb_eq in L as ->.
      * right. right. destruct (e "NODE_ENV"); [|discriminate].
        by apply String.eqb_eq in L as ->.
    + intros [-> | [-> | ->]]; auto.
  - intros L. unfold destination_of, mkdir_for, log_file. rewrite L.
    rewrite first_truthy_two.
    destruct (first_truthy _) as [f|];
      destruct (lo_stdout o) as [[]|]; simpl.
    all: repeat split; try reflexivity; try tauto; try discriminate.
    all: try (intros; intuition congruence).
    all: try (intros f0; split; intros; intuition congruence).
  - intros L. unfold destination_of, mkdir_for. rewrite L.
    destruct (lo_stdout o) as [[]|]; simpl.
    all: repeat split; try reflexivity; try tauto; try discriminate.
    all: try (intros; intuition congruence).
Qed.

Ltac empty_or_not :=
  repeat match goal with
         | |- context [String.eqb ?x ""] =>
             is_var x; destruct (String.eqb_spec x ""); [subst x|]
         end.

Lemma uri_default_first (a b c : option string) :
  str_or match str_or (str_or a b) c with
         | Some u => Some u
         | None => str_or b c
         end None
  = first_truthy [a; b; c].
Proof.
  destruct a as [a|], b as [b|], c as [c|]; unfold str_or, first_truthy;
    empty_or_not; cbn [String.eqb]; empty_or_not;
    try reflexivity; try contradiction.
Qed.

Lemma database_default_first (a b : option string) :
  str_or match str_or a b with
         | Some d => Some d
         | None => b
         end None
  = first_truthy [a; b].
Proof.
  destruct a as [a|], b as [b|]; unfold str_or, first_truthy;
    empty_or_not; cbn [String.eqb]; empty_or_not;
    try reflexivity; try contradiction.
Qed.

(** X14.  buildTransport on the options createLogger hands to the
    transport, in the same environment.  It rejects with the configuration
    error exactly when none of options.uri, LOG_MONGODB_URI and MONGODB_URI
    is a non-empty string.  When it resolves, the address is the first of
    the three that is one; service and collection are the first non-empty
    of the option and LOG_SERVICE or LOG_COLLECTION, else "app" and "logs",
    and never empty; the database is the first non-empty of the option and
    LOG_DATABASE, else the one of the connection string; batchSize and
    flushMs are the options, else BATCH_SIZE and FLUSH_MS. *)
Theorem createLogger_options_reach_transport
  (e : env) (mongo : client) (o : logger_options) :
  let built := buildTransport e mongo (Some (transport_options e o)) in
  let sources := [lo_uri o; e "LOG_MONGODB_URI"; e "MONGODB_URI"] in
  (first_truthy sources = None <->
   built = Rejected (ConfigurationError uri_required) []) /\
  (forall cfg st calls,
     built = Resolved cfg st calls ->
     first_truthy sources = Some (uri cfg) /\
     service cfg
     = default "app" (first_truthy [lo_service o; e "LOG_SERVICE"]) /\
     service cfg <> "" /\
     collection cfg
     = default "logs" (first_truthy [lo_collection o; e "LOG_COLLECTION"]) /\
     collection cfg <> "" /\
     dbName cfg
     = default (databaseName mongo (uri cfg))
         (first_truthy [lo_database o; e "LOG_DATABASE"]) /\
     batchSize cfg = default (BATCH_SIZE e) (lo_batchSize o) /\
     flushMs cfg = default (FLUSH_MS e) (lo_flushMs o)).
Proof.
  intros built sources. subst built sources.
  unfold buildTransport, transport_options, getLogsMongoUri.
  cbn [default from_option id opt_uri opt_service opt_database opt_collection
         opt_batchSize opt_flushMs].
  rewrite uri_default_first, database_default_first.
  destruct (str_or_some (str_or (lo_service o) (e "LOG_SERVICE")) "app")
    as (sv & -> & NS & ES); [discriminate|].
  destruct (str_or_some (str_or (lo_collection o) (e "LOG_COLLECTION")) "logs")
    as (cl & -> & NC & EC); [discriminate|].
  rewrite first_truthy_two in ES, EC. cbn [default].
  destruct (first_truthy [lo_uri o; _; _]) as [u|].
  - split; [split; [discriminate|]|].
    + destruct (construct mongo u); [discriminate|].
      destruct (connect mongo u); [discriminate|].
      by destruct (first_truthy [lo_database o; _]).
    + intros cfg st calls.
      destruct (construct mongo u); [discriminate|].
      destruct (connect mongo u); [discriminate|].
      destruct (first_truthy [lo_database o; _]); intros [= <- <- <-];
        simpl; repeat split; assumption.
  - split; [by split|discriminate].
Qed.

Lemma get_set_prop {A : Type} (k k' : string) (v : A) (l : props A) :
  get_prop k (set_prop k' v l)
  = if String.eqb k k' then Some v else get_prop k l.
Proof.
  induction l as [|[k0 v0] r IH]; simpl.
  - by destruct (String.eqb k k').
  - destruct (String.eqb_spec k' k0) as [->|N]; simpl.
    + by destruct (String.eqb k k0).
    + rewrite IH. destruct (String.eqb_spec k k0) as [->|_]; [|reflexivity].
      destruct (String.eqb_spec k0 k'); [by subst|reflexivity].
Qed.



End IndexFacts.

(** ** wrapForNest and createLogger *)

Section NestCalls.

Import Nest.

Variable host :
  nat -> value -> list value -> list object -> res (value * list object).

(** What wrapForNest returns: the logger itself, or a new object. *)
Lemma wrapForNest_cases
  (logger : value) (h : list object) (w : value) (h' : list object) :
  wrapForNest logger h = Ok (w, h') ->
  (w = logger /\ h' = h /\
   exists log verbose,
     get h logger "log" = Ok log /\ get h logger "verbose" = Ok verbose /\
     truthy log && truthy verbose = true)
  \/ (exists (r : nat) (c : func),
        logger = VRef r /\ w = VRef (length h) /\
        h' = h ++ [{| proto := Some r;
                      own := <["child" := VFun (FChild (FBound c logger))]>
                               (<["verbose" := VFun (FVerbose logger)]>
                                  (<["log" := VFun (FLog logger)]> ∅)) |}]).
Proof.
  intros E. pose proof E as E0. revert E. unfold wrapForNest at 1.
  destruct (get h logger "log") as [log|] eqn:G1; simpl; [|discriminate].
  destruct (get h logger "verbose") as [verbose|] eqn:G2; simpl;
    [|discriminate].
  destruct (truthy log && truthy verbose) eqn:T.
  - intros [= <- <-]. left. split; [reflexivity|]. split; [reflexivity|].
    by exists log, verbose.
  - intros _. right. apply wrapForNest_fresh in E0; [exact E0|].
    intros l v L V. congruence.
Qed.

Lemma lookup_app_older (h t : list object) (k : string) :
  older_prototypes h ->
  forall (f r : nat),
    r < length h -> lookup f (h ++ t) r k = lookup f h r k.
Proof.
  intros W. induction f as [|f IH]; intros r L; [reflexivity|]. simpl.
  rewrite lookup_app_l by exact L.
  destruct (h !! r) as [x|] eqn:X; [|reflexivity].
  destruct (own x !! k); [reflexivity|].
  destruct (proto x) as [p|] eqn:P; [|reflexivity].
  apply IH. specialize (W r p x X P). lia.
Qed.

(** X16.  What wrapForNest returns has a truthy log and a truthy verbose.
    It allocates at most one object and leaves every object of the heap as
    it was; every property but log, verbose and child reads on the result as
    it does on the logger. *)
Theorem wrapped_logger_has_nest_methods
  (logger : value) (h : list object) (w : value) (h' : list object) :
  wrapForNest logger h = Ok (w, h') ->
  (exists log verbose,
     get h' w "log" = Ok log /\ get h' w "verbose" = Ok verbose /\
     truthy log && truthy verbose = true) /\
  (exists n, length h' = length h + n /\ n <= 1) /\
  (forall i, i < length h -> h' !! i = h !! i) /\
  (forall k, older_prototypes h ->
             (forall r, logger = VRef r -> r < length h) ->
             k <> "log" -> k <> "verbose" -> k <> "child" ->
             get h' w k = get h logger k).
Proof.
  intros E.
  destruct (wrapForNest_cases _ _ _ _ E)
    as [(-> & -> & log & verbose & G1 & G2 & T)|(r & c & -> & -> & ->)].
  - split; [by exists log, verbose|]. split; [exists 0; lia|].
    split; [reflexivity|]. reflexivity.
  - split; [|split; [|split]].
    + rewrite !get_wrapped. simpl. eauto.
    + exists 1. rewrite length_app. simpl. lia.
    + intros i L. by rewrite lookup_app_l.
    + intros k W L N1 N2 N3. specialize (L r eq_refl).
      rewrite get_wrapped.
      destruct (String.eqb_spec k "child"); [contradiction|].
      destruct (String.eqb_spec k "verbose"); [contradiction|].
      destruct (String.eqb_spec k "log"); [contradiction|].
      unfold get. f_equal.
      set (o := {| proto := Some r; own := _ |}).
      assert (W' : older_prototypes (h ++ [o]))
        by (by apply older_prototypes_alloc).
      rewrite (lookup_fuel _ k W' _ r (S (length h)))
        by (rewrite ?length_app; simpl; lia).
      clear W'. subst o. by apply lookup_app_older.
Qed.


(** X18.  createLogger throws what pino throws, and is otherwise
    wrapForNest of the logger pino made with the options and the destination
    computed.  The logger it returns is that logger or a new object, and has
    a truthy log and a truthy verbose. *)
Theorem createLogger_returns_nest_logger
  (pino : props Index.pino_value -> Index.destination -> list object
          -> res (value * list object))
  (e : env) (options : option Index.logger_options) (h : list object) :
  let o := default Index.no_logger_options options in
  let made := pino (Index.pino_options e o) (Index.destination_of e o) h in
  (forall x, made = Throw x -> Index.createLogger pino e options h = Throw x)
  /\ (forall logger h1,
        made = Ok (logger, h1) ->
        Index.createLogger pino e options h = wrapForNest logger h1) /\
  (forall w h',
     Index.createLogger pino e options h = Ok (w, h') ->
     exists logger h1 log verbose,
       made = Ok (logger, h1) /\
       (w = logger \/ w = VRef (length h1)) /\
       get h' w "log" = Ok log /\ get h' w "verbose" = Ok verbose /\
       truthy log && truthy verbose = true).
Proof.
  intros o made. subst o made. unfold Index.createLogger.
  destruct (pino _ _ h) as [[logger h1]|x]; simpl.
  - split; [discriminate|]. split; [by intros ? ? [= <- <-]|].
    intros w h' W. exists logger, h1.
    destruct (wrapForNest_cases _ _ _ _ W)
      as [(-> & -> & log & verbose & G1 & G2 & T)|(r & c & -> & -> & ->)].
    + exists log, verbose. auto.
    + rewrite !get_wrapped. simpl. eexists _, _. split; [reflexivity|].
      split; [by right|]. auto.
  - split; [by intros ? [= <-]|]. split; discriminate.
Qed.

End NestCalls.

(** ** The request logger *)

Section RequestLoggerFacts.

Import RequestLogger.

Lemma slice0_integer (t : text) (n : Z) :
  (0 <= n)%Z -> slice0 t (int n) = firstn (Z.to_nat n) t.
Proof.
  intros P. unfold slice0, to_integer, int. simpl.
  rewrite Z.quot_1_r. destruct (Z.ltb_spec n 0); [lia|].
  destruct (Z.le_gt_cases n (Z.of_nat (length t))) as [L|L].
  - by rewrite Z.min_l.
  - rewrite Z.min_r by lia. rewrite Nat2Z.id.
    rewrite !firstn_all2; [reflexivity| |]; lia.
Qed.

(** X19.  sanitizeBody with an integer maxLength n >= 0.  The result is
    undefined exactly for an undefined or null body.  A body that is no
    object gives the first n code units of String(body).  An object whose
    JSON text has at most n code units gives that text, a longer one its
    first n code units followed by three dots.  So the result has at most
    n + 3 code units, or is the text "[non-serializable]". *)
Theorem sanitized_body_is_bounded (b : body) (n : Z) :
  (0 <= n)%Z ->
  (sanitizeBody b (Some (int n)) = None <-> b = BUndefined \/ b = BNull) /\
  (forall s, b = BPrimitive s ->
     sanitizeBody b (Some (int n)) = Some (firstn (Z.to_nat n) s)) /\
  (forall s, b = BObject (Some s) ->
     sanitizeBody b (Some (int n))
     = Some (if (Z.to_nat n <? length s)%nat
             then firstn (Z.to_nat n) s ++ units "..."
             else s)) /\
  (forall t, sanitizeBody b (Some (int n)) = Some t ->
     length t <= Z.to_nat n + 3 \/ t = units "[non-serializable]").
Proof.
  intros P.
  assert (G : forall s : text, length_gt (length s) (int n)
                        = (Z.to_nat n <? length s)%nat).
  { intros s. unfold length_gt, int. simpl. rewrite Z.mul_1_r.
    destruct (Z.ltb_spec n (Z.of_nat (length s)));
      destruct (Nat.ltb_spec (Z.to_nat n) (length s)); try reflexivity; lia. }
  assert (S2 : forall s, sanitizeBody (BPrimitive s) (Some (int n))
                         = Some (firstn (Z.to_nat n) s)).
  { intros s. unfold sanitizeBody. cbn [default from_option id].
    by rewrite slice0_integer. }
  assert (S3 : forall s, sanitizeBody (BObject (Some s)) (Some (int n))
                         = Some (if (Z.to_nat n <? length s)%nat
                                 then firstn (Z.to_nat n) s ++ units "..."
                                 else s)).
  { intros s. unfold sanitizeBody. cbn [default from_option id].
    by rewrite G, slice0_integer. }
  split; [|split; [|split]].
  - split.
    + destruct b as [| |s|[s|]]; try discriminate; auto.
    + by intros [-> | ->].
  - by intros s ->.
  - by intros s ->.
  - intros t. destruct b as [| |s|[s|]]; try discriminate.
    + rewrite S2. intros [= <-]. left. rewrite length_firstn. lia.
    + rewrite S3. intros [= <-]. left.
      destruct (Nat.ltb_spec (Z.to_nat n) (length s)).
      * rewrite length_app, length_firstn. simpl. lia.
      * lia.
    + intros [= <-]. by right.
Qed.

(** X20.  sanitizeBody outside that range.  With NaN as maxLength the
    JSON text of an object is returned whole and a body that is no object
    gives the empty text; without a maxLength the bound is 2000.  With a
    negative integer n, the last -n code units are cut off, and the three
    dots are added to the JSON text whatever its length. *)
Theorem sanitizeBody_without_a_bound (s : text) (n : Z) :
  sanitizeBody (BObject (Some s)) (Some NaN) = Some s /\
  sanitizeBody (BPrimitive s) (Some NaN) = Some [] /\
  sanitizeBody (BObject (Some s)) None
  = sanitizeBody (BObject (Some s)) (Some (int 2000)) /\
  ((n < 0)%Z ->
   let kept := firstn (length s - Z.to_nat (- n)) s in
   sanitizeBody (BObject (Some s)) (Some (int n))
   = Some (kept ++ units "...") /\
   sanitizeBody (BPrimitive s) (Some (int n)) = Some kept).
Proof.
  split; [reflexivity|].
  split.
  { unfold sanitizeBody, slice0. cbn [default from_option id to_integer].
    destruct (Z.ltb_spec 0 0); [lia|]. rewrite Z.min_l by lia. reflexivity. }
  split; [reflexivity|].
  intros Neg kept.
  assert (S : slice0 s (int n) = kept).
  { subst kept. unfold slice0, to_integer, int. simpl. rewrite Z.quot_1_r.
    destruct (Z.ltb_spec n 0); [|lia]. f_equal. lia. }
  unfold sanitizeBody. cbn [default from_option id]. rewrite S.
  split; [|reflexivity].
  unfold length_gt, int.
  destruct (Z.ltb_spec n (Z.of_nat (length s) * 10 ^ Z.of_N 0));
    [reflexivity|]. simpl in *. lia.
Qed.

Variable toLowerCase : string -> string.

Lemma redact_one_other (h : props json) (key k : string) :
  k <> toLowerCase key ->
  get_prop k (redact_one toLowerCase h key) = get_prop k h.
Proof.
  intros N. unfold redact_one.
  destruct (get_prop (toLowerCase key) h) as [v|].
  - destruct (is_null v); [reflexivity|]. rewrite get_set_prop.
    by destruct (String.eqb_spec k (toLowerCase key)).
  - destruct (_ && _); [|reflexivity]. rewrite get_set_prop.
    by destruct (String.eqb_spec k (toLowerCase key)).
Qed.

Lemma redact_one_hidden (h : props json) (key : string) :
  redacted_or_absent
    (get_prop (toLowerCase key) (redact_one toLowerCase h key)) = true.
Proof.
  unfold redact_one.
  destruct (get_prop (toLowerCase key) h) as [v|] eqn:G.
  - destruct v; simpl; rewrite ?G; try reflexivity.
    all: by rewrite get_set_prop, String.eqb_refl.
  - destruct (_ && _); [|by rewrite G].
    by rewrite get_set_prop, String.eqb_refl.
Qed.

Lemma redact_one_keeps_hidden (h : props json) (key k : string) :
  redacted_or_absent (get_prop k h) = true ->
  redacted_or_absent (get_prop k (redact_one toLowerCase h key)) = true.
Proof.
  intros H. destruct (String.eqb_spec k (toLowerCase key)) as [->|N].
  - apply redact_one_hidden.
  - by rewrite redact_one_other.
Qed.

Lemma redact_one_keeps_present (h : props json) (key k : string) (v : json) :
  get_prop k h = Some v ->
  exists v', get_prop k (redact_one toLowerCase h key) = Some v'.
Proof.
  intros G. destruct (String.eqb_spec k (toLowerCase key)) as [->|N].
  - unfold redact_one. rewrite G. destruct (is_null v); [eauto|].
    rewrite get_set_prop, String.eqb_refl. eauto.
  - rewrite redact_one_other by exact N. eauto.
Qed.

Lemma redact_facts (keys : list string) :
  forall hs : props json,
    (forall key, In key keys ->
       redacted_or_absent
         (get_prop (toLowerCase key) (redact toLowerCase keys hs)) = true) /\
    (forall k, redacted_or_absent (get_prop k hs) = true ->
       redacted_or_absent (get_prop k (redact toLowerCase keys hs)) = true) /\
    (forall k, ~ In k (map toLowerCase keys) ->
       get_prop k (redact toLowerCase keys hs) = get_prop k hs) /\
    (forall k v, get_prop k hs = Some v ->
       exists v', get_prop k (redact toLowerCase keys hs) = Some v').
Proof.
  unfold redact. induction keys as [|key keys IH]; intros hs; simpl.
  - repeat split; try tauto; eauto.
  - destruct (IH (redact_one toLowerCase hs key)) as (A & B & C & D).
    split; [|split; [|split]].
    + intros key' [<-|I]; [|by apply A].
      apply B, redact_one_hidden.
    + intros k H. by apply B, redact_one_keeps_hidden.
    + intros k N. simpl in N. rewrite C by tauto. apply redact_one_other.
      intros ->. apply N. by left.
    + intros k v G.
      destruct (redact_one_keeps_present hs key k v G) as [v' G'].
      by apply (D k v').
Qed.

(** X21.  When the log call of a finished request carries headers, the
    headers were asked for and the request has some.  For every name of
    redactHeaders (authorization and cookie when not given), the logged
    header of the lower-cased name is absent, null or "[redacted]"; every
    header whose name is no lower-cased name of redactHeaders is logged as
    it is; and no header of the request is missing. *)
Theorem redacted_headers_hide_values
  (o : middleware_options) (req : request) (reqId : json) (start now : Z)
  (statusCode : number) (call : log_call) (logged : props json) :
  on_finish toLowerCase o req reqId start statusCode now = Some call ->
  rd_headers (lc_request call) = Some logged ->
  exists hs,
    req_headers req = Some hs /\ mo_includeHeaders o = Some true /\
    (forall key,
       In key (default ["authorization"; "cookie"] (mo_redactHeaders o)) ->
       redacted_or_absent (get_prop (toLowerCase key) logged) = true) /\
    (forall k,
       ~ In k (map toLowerCase
                 (default ["authorization"; "cookie"] (mo_redactHeaders o))) ->
       get_prop k logged = get_prop k hs) /\
    (forall k v, get_prop k hs = Some v ->
                 exists v', get_prop k logged = Some v').
Proof.
  unfold on_finish.
  destruct (match mo_logger o with
            | Some l => Some l
            | None => req_app_locals_logger req
            end) as [logger|]; [|discriminate].
  intros [= <-]. cbn [lc_request rd_headers].
  destruct (mo_includeHeaders o) as [[]|]; try discriminate.
  cbn [default from_option id].
  destruct (req_headers req) as [hs|]; [|discriminate].
  intros [= <-]. exists hs. split; [reflexivity|]. split; [reflexivity|].
  destruct (redact_facts (default ["authorization"; "cookie"]
                            (mo_redactHeaders o)) hs) as (A & _ & C & D).
  auto.
Qed.





(** X23.  The id the middleware gives a request is truthy: req.id when
    that is a non-empty string, and req-<clock>-<random> for a request with
    neither id nor headers.  Every log call of the request carries this id,
    the status code, the time from the arrival of the request to the finish
    of the response, and the level error for a status code of 500 or more,
    warn for 400 to 499 and info below. *)
Theorem every_request_gets_an_id
  (options : option middleware_options) (req : request) (start now : Z)
  (random : string) :
  let id := fst (middleware toLowerCase options req start now random) in
  let handler := snd (middleware toLowerCase options req start now random) in
  truthy id = true /\
  (forall s, req_id req = Some s -> s <> "" -> id = JStr s) /\
  (req_id req = None -> req_headers req = None ->
   id = JStr ("req-" ++ number_toString (int now) ++ "-" ++ random)) /\
  (forall status finished call,
     handler (int status) finished = Some call ->
     lc_reqId call = id /\
     lc_durationMs call = (finished - start)%Z /\
     lc_statusCode call = int status /\
     lc_level call = (if (500 <=? status)%Z then "error"
                      else if (400 <=? status)%Z then "warn"
                      else "info")).
Proof.
  unfold middleware. cbn [fst snd].
  split; [|split; [|split]].
  - unfold reqId_of.
    assert (G : truthy (JStr ("req-" ++ number_toString (int now) ++ "-"
                              ++ random)) = true) by reflexivity.
    destruct (str_or (req_id req) None) as [s|] eqn:E.
    + simpl. destruct (req_id req) as [t|]; [|discriminate E]. simpl in E.
      destruct (String.eqb_spec t ""); [discriminate E|].
      injection E as <-. by destruct (String.eqb_spec t "").
    + destruct (req_headers req) as [hs|]; [|exact G].
      destruct (get_prop _ hs) as [v|]; [|exact G].
      destruct (truthy v) eqn:T; [exact T|exact G].
  - intros s E N. unfold reqId_of. rewrite E. simpl.
    by destruct (String.eqb_spec s "").
  - intros E H. unfold reqId_of. by rewrite E, H.
  - intros status finished call. unfold on_finish.
    destruct (match mo_logger _ with
              | Some l => Some l
              | None => req_app_locals_logger req
              end) as [logger|]; [|discriminate].
    intros [= <-]. cbn [lc_reqId lc_durationMs lc_statusCode lc_level].
    repeat split.
Qed.

End RequestLoggerFacts.

(** ** The properties on concrete inputs *)

Lemma records_neither_lost_nor_duplicated_witness :
  exists st,
    run Json.parse (example_config 2) initial two_chunks = Some st /\
    length (handed st) = 3 /\ length (buffer st) = 1 /\
    handed st ++ buffer st = written Json.parse (example_config 2) two_chunks.
Proof.
  destruct (run Json.parse (example_config 2) initial two_chunks)
    as [st|] eqn:R; [|vm_compute in R; discriminate R].
  exists st. split; [reflexivity|].
  pose proof (records_neither_lost_nor_duplicated Json.parse
                (example_config 2) two_chunks st R) as H.
  vm_compute in R. injection R as <-.
  split; [reflexivity|]. split; [reflexivity|]. exact H.
Defined.

Lemma batches_are_nonempty_and_unordered_witness :
  exists st,
    run Json.parse (example_config 2) initial whole_life = Some st /\
    length (inserts st) = 2 /\
    Forall (fun c => docs c <> [] /\ ordered c = false) (inserts st).
Proof.
  destruct (run Json.parse (example_config 2) initial whole_life)
    as [st|] eqn:R; [|vm_compute in R; discriminate R].
  exists st. split; [reflexivity|].
  pose proof (batches_are_nonempty_and_unordered Json.parse
                (example_config 2) whole_life st R) as H.
  vm_compute in R. injection R as <-. split; [reflexivity|]. exact H.
Defined.

Lemma buffer_stays_below_batchSize_witness :
  exists st,
    run Json.parse (example_config 2) initial two_chunks = Some st /\
    length (buffer st) = 1 /\
    (buffer st = []
     \/ length_ge (length (buffer st)) (batchSize (example_config 2)) = false).
Proof.
  destruct (run Json.parse (example_config 2) initial two_chunks)
    as [st|] eqn:R; [|vm_compute in R; discriminate R].
  exists st. split; [reflexivity|].
  pose proof (buffer_stays_below_batchSize Json.parse
                (example_config 2) two_chunks st R) as H.
  vm_compute in R. injection R as <-. split; [reflexivity|]. exact H.
Defined.

Lemma buffered_records_wait_for_a_live_timer_witness :
  exists st h st',
    run Json.parse (example_config 2) initial two_chunks = Some st /\
    flushTimer st = Some h /\
    step Json.parse (example_config 2) st (Fire h) = Some st' /\
    buffer st' = [] /\ length (inserts st') = 2.
Proof.
  destruct (run Json.parse (example_config 2) initial two_chunks)
    as [st|] eqn:R; [|vm_compute in R; discriminate R].
  assert (NE : buffer st <> [])
    by (pose proof R as R'; vm_compute in R'; injection R' as <-;
        discriminate).
  destruct (buffered_records_wait_for_a_live_timer Json.parse
              (example_config 2) two_chunks st R NE)
    as (_ & h & F & _ & st' & S & B & I).
  exists st, h, st'. split; [reflexivity|]. split; [exact F|].
  split; [exact S|]. split; [exact B|]. rewrite I, length_app.
  vm_compute in R. injection R as <-. reflexivity.
Defined.

Lemma final_hands_over_every_record_witness :
  exists st,
    run Json.parse (example_config 2) initial whole_life = Some st /\
    buffer st = [] /\ timers st = [] /\ length (handed st) = 4 /\
    handed st = written Json.parse (example_config 2) whole_life.
Proof.
  destruct (run Json.parse (example_config 2) initial whole_life)
    as [st|] eqn:R; [|vm_compute in R; discriminate R].
  assert (C : closing st = true)
    by (pose proof R as R'; vm_compute in R'; injection R' as <-;
        reflexivity).
  destruct (final_hands_over_every_record Json.parse
              (example_config 2) whole_life st R C) as (B & T & H & _).
  exists st. split; [reflexivity|]. split; [exact B|]. split; [exact T|].
  split; [|exact H]. vm_compute in R. injection R as <-. reflexivity.
Defined.

Lemma callbacks_reports_and_promises_add_up_witness :
  exists st,
    run Json.parse (example_config 2) initial whole_life = Some st /\
    write_done st = 2 /\ length (stderr st) = 2 /\ pending st = [] /\
    length (inserts st) = 2.
Proof.
  destruct (run Json.parse (example_config 2) initial whole_life)
    as [st|] eqn:R; [|vm_compute in R; discriminate R].
  destruct (callbacks_reports_and_promises_add_up Json.parse
              (example_config 2) whole_life st R) as (W & E & P & _).
  exists st. split; [reflexivity|]. split; [exact W|]. split; [exact E|].
  vm_compute in R. injection R as <-. split; reflexivity.
Defined.


Lemma mapper_accepts_exactly_witness :
  (exists d, pinoToDoc Json.parse 0 (JStr full_record) "gym" = Ok d) /\
  pinoToDoc Json.parse 0 (JStr "null") "gym" = Throw TypeError /\
  pinoToDoc Json.parse 0 (JStr "oops") "gym" = Throw SyntaxError.
Proof.
  destruct (mapper_accepts_exactly Json.parse 0 (JStr full_record) "gym")
    as (_ & A & _).
  destruct (mapper_accepts_exactly Json.parse 0 (JStr "oops") "gym")
    as (_ & _ & S).
  destruct (record_of Json.parse (JStr full_record)) as [obj|] eqn:R;
    [|discriminate R].
  split; [|split; [reflexivity|]].
  - apply (A obj eq_refl); injection R as <-; [discriminate|reflexivity].
  - apply S. exists "oops". split; reflexivity.
Defined.


Lemma resolved_transport_has_connected_witness :
  exists cfg calls,
    buildTransport no_env reachable_mongo
      (Some (options_with_uri "mongodb://logs.example/central"))
    = Resolved cfg initial calls /\
    uri cfg <> "" /\ collection cfg = "logs" /\
    calls = [NewClient "mongodb://logs.example/central"; Connect; Db None;
             Db (Some "central"); Collection "logs"].
Proof.
  destruct (buildTransport no_env reachable_mongo
              (Some (options_with_uri "mongodb://logs.example/central")))
    as [f calls|cfg st calls] eqn:B; [discriminate B|].
  destruct (proj2 (resolved_transport_has_connected no_env reachable_mongo
                     (options_with_uri "mongodb://logs.example/central"))
              cfg st calls B) as (-> & U & _).
  exists cfg, calls. split; [reflexivity|]. split; [exact U|].
  injection B as <- <-. split; reflexivity.
Defined.

Lemma destination_follows_mode_witness :
  Index.destination_of (env_with "NODE_ENV" "development") gym_options
  = Index.Single Index.Stdout /\
  Index.mkdir_for (env_with "NODE_ENV" "development") gym_options = None /\
  List.filter Index.is_transport
    (Index.streams_of (Index.destination_of no_env gym_options))
  = [Index.MongoTransport (Index.transport_options no_env gym_options)].
Proof.
  destruct (destination_follows_mode (env_with "NODE_ENV" "development")
              gym_options) as (_ & L & _).
  destruct (destination_follows_mode no_env gym_options) as (_ & _ & P).
  destruct (L eq_refl) as (_ & _ & _ & M).
  split; [reflexivity|]. split; [exact M|]. exact (proj1 (P eq_refl)).
Defined.

Lemma createLogger_options_reach_transport_witness :
  exists cfg calls,
    buildTransport (env_with "MONGODB_URI" "mongodb://logs.example/central")
      reachable_mongo
      (Some (Index.transport_options
               (env_with "MONGODB_URI" "mongodb://logs.example/central")
               gym_options))
    = Resolved cfg initial calls /\
    uri cfg = "mongodb://logs.example/central" /\ service cfg = "gym" /\
    collection cfg = "logs" /\ batchSize cfg = int 50.
Proof.
  set (e := env_with "MONGODB_URI" "mongodb://logs.example/central").
  destruct (buildTransport e reachable_mongo
              (Some (Index.transport_options e gym_options)))
    as [f calls|cfg st calls] eqn:B; [discriminate B|].
  destruct (proj2 (createLogger_options_reach_transport e reachable_mongo
                     gym_options) cfg st calls B)
    as (U & S & _ & C & _ & _ & N & _).
  exists cfg, calls. split; [by injection B as <- <- <-|].
  split; [by injection U|]. split; [exact S|]. split; [exact C|exact N].
Defined.


Lemma wrapped_logger_has_nest_methods_witness :
  exists log verbose,
    Nest.get Nest.wrapped_once (Nest.VRef 1) "log" = Ok log /\
    Nest.get Nest.wrapped_once (Nest.VRef 1) "verbose" = Ok verbose /\
    Nest.truthy log && Nest.truthy verbose = true.
Proof.
  exact (proj1 (wrapped_logger_has_nest_methods (Nest.VRef 0)
                  [Nest.library_logger] (Nest.VRef 1) Nest.wrapped_once
                  eq_refl)).
Defined.


Lemma createLogger_returns_nest_logger_witness :
  exists w h' log verbose,
    Index.createLogger example_pino no_env (Some gym_options) [] = Ok (w, h')
    /\ w = Nest.VRef 1 /\
    Nest.get h' w "log" = Ok log /\ Nest.get h' w "verbose" = Ok verbose /\
    Nest.truthy log && Nest.truthy verbose = true.
Proof.
  destruct (Index.createLogger example_pino no_env (Some gym_options) [])
    as [[w h']|x] eqn:E; [|discriminate E].
  destruct (proj2 (proj2 (createLogger_returns_nest_logger example_pino
                            no_env (Some gym_options) [])) w h' E)
    as (logger & h1 & log & verbose & _ & _ & L & V & T).
  exists w, h', log, verbose. split; [reflexivity|].
  split; [by injection E as <- <-|]. auto.
Defined.

Lemma sanitized_body_is_bounded_witness :
  RequestLogger.sanitizeBody
    (RequestLogger.BObject (Some (RequestLogger.units (Json.js "{'a':100}"))))
    (Some (int 4))
  = Some (RequestLogger.units (Json.js "{'a'...")).
Proof.
  destruct (sanitized_body_is_bounded
              (RequestLogger.BObject
                 (Some (RequestLogger.units (Json.js "{'a':100}"))))
              4 ltac:(lia)) as (_ & _ & O & _).
  exact (O _ eq_refl).
Defined.

Lemma sanitizeBody_without_a_bound_witness :
  RequestLogger.sanitizeBody
    (RequestLogger.BObject (Some (RequestLogger.units "abcdef")))
    (Some (int (-2)))
  = Some (RequestLogger.units "abcd...") /\
  RequestLogger.sanitizeBody
    (RequestLogger.BPrimitive (RequestLogger.units "abcdef"))
    (Some (int (-2)))
  = Some (RequestLogger.units "abcd").
Proof.
  exact (proj2 (proj2 (proj2 (sanitizeBody_without_a_bound
                                (RequestLogger.units "abcdef") (-2))))
           ltac:(lia)).
Defined.

Lemma redacted_headers_hide_values_witness :
  exists call logged,
    RequestLogger.on_finish lower_case_already with_headers example_request
      (JStr "r-1") 100 (int 201) 112 = Some call /\
    RequestLogger.rd_headers (RequestLogger.lc_request call) = Some logged /\
    get_prop "authorization" logged = Some (JStr "[redacted]") /\
    get_prop "accept" logged = Some (JStr "*/*") /\
    RequestLogger.redacted_or_absent (get_prop "cookie" logged) = true.
Proof.
  destruct (RequestLogger.on_finish lower_case_already with_headers
              example_request (JStr "r-1") 100 (int 201) 112)
    as [call|] eqn:E; [|discriminate E].
  destruct (RequestLogger.rd_headers (RequestLogger.lc_request call))
    as [logged|] eqn:H; [|injection E as <-; discriminate H].
  destruct (redacted_headers_hide_values lower_case_already with_headers
              example_request (JStr "r-1") 100 112 (int 201) call logged E H)
    as (hs & _ & _ & R & _).
  exists call, logged. split; [reflexivity|]. split; [exact H|].
  split; [|split; [|apply (R "cookie"); simpl; auto]].
  all: vm_compute in E; injection E as <-; by injection H as <-.
Defined.


Lemma every_request_gets_an_id_witness :
  fst (RequestLogger.middleware lower_case_already (Some with_headers)
         example_request 100 101 "k3j9x2a")
  = JStr "req-101-k3j9x2a" /\
  exists call,
    snd (RequestLogger.middleware lower_case_already (Some with_headers)
           example_request 100 101 "k3j9x2a") (int 503) 112%Z = Some call /\
    RequestLogger.lc_level call = "error" /\
    RequestLogger.lc_durationMs call = 12%Z /\
    RequestLogger.lc_reqId call = JStr "req-101-k3j9x2a".
Proof.
  destruct (every_request_gets_an_id lower_case_already (Some with_headers)
              example_request 100 101 "k3j9x2a") as (_ & _ & G & H).
  split; [reflexivity|].
  destruct (snd (RequestLogger.middleware lower_case_already
                   (Some with_headers) example_request 100 101 "k3j9x2a")
              (int 503) 112%Z) as [call|] eqn:E; [|discriminate E].
  destruct (H 503%Z 112%Z call E) as (I & D & _ & L).
  exists call. split; [reflexivity|]. split; [exact L|].
  split; [exact D|exact I].
Defined.
